(** * Flood area analysis: classification of flood depths and zonal aggregation

    A shallow embedding of [classify_flood_depth] and
    [calculate_flood_area_by_village] (Flood_analysis.ipynb), and the
    properties of the depth bands, of the reported areas and of the error
    behaviour.

    Modelling choices.
    - A numpy cell or a Python float is a [num]: a rational, an infinity or
      NaN.  The classifier only compares cells, and IEEE comparisons agree
      with the order of the extended rationals, NaN being unordered.
    - [classify_flood_depth] is embedded twice.  The first embedding works on
      the cells alone: the thresholds are the numbers the cells are compared
      with, and a cell can hold any category.  The second ([Dtyped]) is the
      function on a numpy array with its dtype: numpy converts a Python
      threshold to the dtype of the array before it compares (a float32
      raster compares with [float32(threshold)]), [np.zeros_like] keeps the
      dtype, and an integer dtype refuses a category it cannot hold.  The
      second is the first applied to the converted thresholds
      ([classify_converted]).
    - Areas are binary64 floats: a rational that is the result of an IEEE
      operation, that is the exact result rounded to nearest, ties to even
      ([Ieee.round64]).  Overflow to infinity is not modelled: a result above
      the largest float stays a rational.
    - Python exceptions are values ([exn]); the calls to geopandas and
      rasterio go through a [world] and are logged as [event]s. *)

From Stdlib Require Import String Ascii DecimalString.
From Stdlib Require DecimalZ.
From Stdlib Require Import List ZArith QArith Qabs Bool Lia Lqa.
Import ListNotations.

Local Open Scope nat_scope.

(** ** Python results and exceptions *)

Module Py.

(** An exception: its class name and its message. *)
Record exn : Type := Exn { exn_class : string; exn_msg : string }.

Definition result (A : Type) : Type := (exn + A)%type.

Definition ret {A} (a : A) : result A := inr a.
Definition raise {A} (e : exn) : result A := inl e.

Definition bind {A B} (m : result A) (k : A -> result B) : result B :=
  match m with
  | inl e => inl e
  | inr a => k a
  end.

Definition IndexError (msg : string) : exn := Exn "IndexError" msg.
Definition ValueError (msg : string) : exn := Exn "ValueError" msg.

(** [for x in l: s = body x s], stopping at the first exception. *)
Fixpoint for_each {A S} (l : list A) (body : A -> S -> result S) (s : S)
  : result S :=
  match l with
  | [] => ret s
  | x :: l' => bind (body x s) (for_each l' body)
  end.

Fixpoint enumerate_from {A} (i : nat) (l : list A) : list (nat * A) :=
  match l with
  | [] => []
  | x :: l' => (i, x) :: enumerate_from (S i) l'
  end.

(** [enumerate(l)] *)
Definition enumerate {A} (l : list A) : list (nat * A) := enumerate_from 0 l.

(** [l[i]] for a non-negative index. *)
Definition getitem {A} (l : list A) (i : nat) : result A :=
  match nth_error l i with
  | Some x => ret x
  | None => raise (IndexError "list index out of range")
  end.

(** [l[-1]] *)
Definition getitem_last {A} (l : list A) : result A :=
  match l with
  | [] => raise (IndexError "list index out of range")
  | x :: l' => ret (List.last l' x)
  end.

(** [str(i)] for a Python int. *)
Definition str_of_int (z : Z) : string := NilEmpty.string_of_int (Z.to_int z).

End Py.

Notation "x <- m ;; k" := (Py.bind m (fun x => k))
  (at level 61, m at next level, right associativity).

(** ** Binary floating point *)

Module Ieee.

(** [n / d] to the nearest integer, ties to even, for [n >= 0] and [d > 0]. *)
Definition round_half_even (n d : Z) : Z :=
  let q := (n / d)%Z in
  match (2 * (n mod d) ?= d)%Z with
  | Lt => q
  | Gt => (q + 1)%Z
  | Eq => if Z.even q then q else (q + 1)%Z
  end.

(** The integer [e] with [2^e <= n/d < 2^(e+1)]. *)
Definition floor_log2 (n d : positive) : Z :=
  let e0 := (Z.log2 (Zpos n) - Z.log2 (Zpos d))%Z in
  if (Zpos d * 2 ^ Z.max e0 0 <=? Zpos n * 2 ^ Z.max (- e0) 0)%Z
  then e0 else (e0 - 1)%Z.

(** [n/d > 0] rounded to [prec] significant bits, the last bit being worth at
    least [2^emin] (the subnormal numbers). *)
Definition round_pos (prec emin : Z) (n d : positive) : Q :=
  let e := floor_log2 n d in
  let s := Z.max (e - (prec - 1)) emin in
  let m := round_half_even (Zpos n * 2 ^ Z.max (- s) 0)
                           (Zpos d * 2 ^ Z.max s 0) in
  Qred (Qmake (m * 2 ^ Z.max s 0) (Z.to_pos (2 ^ Z.max (- s) 0))).

(** Rounding to nearest, ties to even; the result is a reduced fraction. *)
Definition round_to (prec emin : Z) (x : Q) : Q :=
  let r := Qred x in
  match Qnum r with
  | Z0 => 0%Q
  | Zpos n => round_pos prec emin n (Qden r)
  | Zneg n => Qopp (round_pos prec emin n (Qden r))
  end.

(** binary64, the Python float and numpy's float64. *)
Definition round64 : Q -> Q := round_to 53 (-1074).

(** binary32, numpy's float32. *)
Definition round32 : Q -> Q := round_to 24 (-149).

(** The largest binary64 and binary32 numbers. *)
Definition max64 : Q := inject_Z ((2 ^ 53 - 1) * 2 ^ 971).
Definition max32 : Q := inject_Z ((2 ^ 24 - 1) * 2 ^ 104).

(** [float(z)] for a Python or numpy int. *)
Definition of_int (z : Z) : Q := round64 (inject_Z z).

(** [x + y], [x - y], [x * y] and [x / y] on two floats. *)
Definition add (x y : Q) : Q := round64 (x + y).
Definition mul (x y : Q) : Q := round64 (x * y).
Definition div (x y : Q) : Q := round64 (x / y).

End Ieee.

(** ** Numbers and numpy arrays *)

Module Np.

(** The value of an array cell or of a Python float. *)
Inductive num : Type :=
| Fin (q : Q)
| PInf
| NInf
| NaN.

Definition Qltb (a b : Q) : bool := negb (Qle_bool b a).

(** [x < y]: false as soon as one side is NaN. *)
Definition ltb (x y : num) : bool :=
  match x, y with
  | NaN, _ | _, NaN => false
  | Fin a, Fin b => Qltb a b
  | _, NInf => false
  | NInf, _ => true
  | PInf, _ => false
  | Fin _, PInf => true
  end.

(** [x == y] *)
Definition eqb (x y : num) : bool :=
  match x, y with
  | Fin a, Fin b => Qeq_bool a b
  | PInf, PInf => true
  | NInf, NInf => true
  | _, _ => false
  end.

(** [x <= y] *)
Definition leb (x y : num) : bool := ltb x y || eqb x y.
(** [x > y] *)
Definition gtb (x y : num) : bool := ltb y x.
(** [x >= y] *)
Definition geb (x y : num) : bool := leb y x.

Definition num_of_Z (z : Z) : num := Fin (inject_Z z).
Definition num_of_nat (n : nat) : num := num_of_Z (Z.of_nat n).

(** A two-dimensional array, row by row. *)
Definition grid (A : Type) : Type := list (list A).

Definition shape {A} (g : grid A) : list nat := map (@length A) g.

Definition grid_map {A B} (f : A -> B) (g : grid A) : grid B := map (map f) g.

Fixpoint zip_with {A B C} (f : A -> B -> C) (l : list A) (m : list B)
  : list C :=
  match l, m with
  | a :: l', b :: m' => f a b :: zip_with f l' m'
  | _, _ => []
  end.

Definition grid_zip {A B C} (f : A -> B -> C) (g : grid A) (h : grid B)
  : grid C :=
  zip_with (zip_with f) g h.

(** [np.zeros_like(a)] *)
Definition zeros_like (a : grid num) : grid num :=
  grid_map (fun _ => num_of_nat 0) a.

(** [a == v], [a > v], [a <= v], [a >= v] against a scalar. *)
Definition eq_scalar (a : grid num) (v : num) : grid bool :=
  grid_map (fun x => eqb x v) a.
Definition gt_scalar (a : grid num) (v : num) : grid bool :=
  grid_map (fun x => gtb x v) a.
Definition le_scalar (a : grid num) (v : num) : grid bool :=
  grid_map (fun x => leb x v) a.
Definition ge_scalar (a : grid num) (v : num) : grid bool :=
  grid_map (fun x => geb x v) a.

(** [m1 & m2] on two masks of one shape. *)
Definition mask_and (m1 m2 : grid bool) : grid bool := grid_zip andb m1 m2.

Definition shape_eqb (s t : list nat) : bool :=
  if list_eq_dec Nat.eq_dec s t then true else false.

(** [a[mask] = v]: numpy refuses a mask whose shape is not that of [a]. *)
Definition setmask (a : grid num) (mask : grid bool) (v : num)
  : Py.result (grid num) :=
  if shape_eqb (shape mask) (shape a)
  then Py.ret (grid_zip (fun (b : bool) x => if b then v else x) mask a)
  else Py.raise (Py.IndexError
                   "boolean index did not match indexed array").

(** [np.sum(mask)]: the number of [True] cells. *)
Definition sum (mask : grid bool) : nat :=
  length (filter (fun b : bool => b) (concat mask)).

End Np.

Import Np.

(** ** Thresholds *)

(** A threshold is a Python number: an int or a float. *)
Inductive pynum : Type :=
| PyInt (z : Z)
| PyFloat (x : num).

Definition py_value (t : pynum) : num :=
  match t with
  | PyInt z => num_of_Z z
  | PyFloat x => x
  end.

(** [[0.5, 1.0, 2.0, 3.0]] *)
Definition default_thresholds : list pynum :=
  [PyFloat (Fin (1 # 2)); PyFloat (Fin 1); PyFloat (Fin 2); PyFloat (Fin 3)].

(** ** The depth classifier *)

(** Lines 51 to 57: one turn of the loop over [enumerate(thresholds)]. *)
Definition classify_band (depth_array : grid num) (thresholds : list pynum)
  (it : nat * pynum) (classified : grid num) : Py.result (grid num) :=
  let '(i, threshold) := it in
  if Nat.eqb i 0
  then
    setmask classified
      (mask_and (gt_scalar depth_array (num_of_nat 0))
                (le_scalar depth_array (py_value threshold)))
      (num_of_nat (i + 1))
  else
    previous <- Py.getitem thresholds (i - 1) ;;
    setmask classified
      (mask_and (gt_scalar depth_array (py_value previous))
                (le_scalar depth_array (py_value threshold)))
      (num_of_nat (i + 1)).

Definition classify_flood_depth (depth_array : grid num)
  (thresholds : option (list pynum)) : Py.result (grid num) :=
  let thresholds :=
    match thresholds with
    | None => default_thresholds
    | Some ths => ths
    end in
  let classified := zeros_like depth_array in
  classified <- setmask classified
                  (eq_scalar depth_array (num_of_nat 0)) (num_of_nat 0) ;;
  classified <- Py.for_each (Py.enumerate thresholds)
                  (classify_band depth_array thresholds) classified ;;
  last_threshold <- Py.getitem_last thresholds ;;
  setmask classified
    (gt_scalar depth_array (py_value last_threshold))
    (num_of_nat (length thresholds + 1)).

(** ** The tests of the classifier at one cell *)

(** The lower bound the loop uses for band [i]: 0 for the first band, the
    previous threshold for the others. *)
Definition band_lower (thresholds : list pynum) (i : nat) : option num :=
  if Nat.eqb i 0 then Some (num_of_nat 0)
  else option_map py_value (nth_error thresholds (i - 1)).

(** The mask of band [i] at a cell of depth [d] (lines 54 and 57). *)
Definition in_band (thresholds : list pynum) (i : nat) (d : num) : bool :=
  match band_lower thresholds i, nth_error thresholds i with
  | Some lo, Some t => gtb d lo && leb d (py_value t)
  | _, _ => false
  end.

(** The mask of the last category at a cell of depth [d] (line 60). *)
Definition above_last (thresholds : list pynum) (d : num) : bool :=
  match thresholds with
  | [] => false
  | t :: ths => gtb d (py_value (List.last ths t))
  end.

(** One turn of the loop at a cell of depth [d] that holds [v]. *)
Definition cell_band (thresholds : list pynum) (d : num) (v : num)
  (it : nat * pynum) : num :=
  let '(i, threshold) := it in
  match band_lower thresholds i with
  | Some lo =>
      if gtb d lo && leb d (py_value threshold) then num_of_nat (i + 1) else v
  | None => v
  end.

(** The category a cell of depth [d] ends with: the statements of
    [classify_flood_depth] followed at that cell (the first assignment writes
    0 over 0). *)
Definition cell_category (thresholds : list pynum) (d : num) : num :=
  let v0 := if eqb d (num_of_nat 0) then num_of_nat 0 else num_of_nat 0 in
  let v := fold_left (cell_band thresholds d) (Py.enumerate thresholds) v0 in
  match thresholds with
  | [] => v
  | t :: ths =>
      if gtb d (py_value (List.last ths t))
      then num_of_nat (length thresholds + 1)
      else v
  end.

(** ** Conditions on the thresholds *)

(** Every threshold above zero. *)
Definition positive (thresholds : list pynum) : bool :=
  forallb (fun t => ltb (num_of_nat 0) (py_value t)) thresholds.

(** No threshold below the depth [d]. *)
Definition none_below (thresholds : list pynum) (d : num) : bool :=
  forallb (fun t => negb (ltb (py_value t) d)) thresholds.

(** Thresholds in strictly ascending order. *)
Fixpoint ascending (thresholds : list pynum) : bool :=
  match thresholds with
  | a :: (b :: _) as rest => ltb (py_value a) (py_value b) && ascending rest
  | _ => true
  end.

(** ** The classifier on an array with its dtype *)

Module Dtyped.

(** The dtypes of a raster band that are modelled.  Conversions follow
    NumPy 2: a Python number takes the dtype of the array it meets. *)
Inductive dtype : Type :=
| float32
| float64
| uint8
| int16
| int32.

Definition is_integer (dt : dtype) : bool :=
  match dt with
  | float32 | float64 => false
  | uint8 | int16 | int32 => true
  end.

Definition dtype_name (dt : dtype) : string :=
  match dt with
  | float32 => "float32"
  | float64 => "float64"
  | uint8 => "uint8"
  | int16 => "int16"
  | int32 => "int32"
  end.

(** The largest value of an integer dtype. *)
Definition int_max (dt : dtype) : Z :=
  match dt with
  | uint8 => 255
  | int16 => 32767
  | int32 => 2147483647
  | float32 | float64 => 0
  end.

(** A numpy array: its dtype and its cells. *)
Record ndarray : Type := NdArray { nd_dtype : dtype; nd_cells : grid num }.

Definition OverflowError (msg : string) : Py.exn := Py.Exn "OverflowError" msg.

(** [float(t)]: a Python int is rounded to the nearest float and refused
    above the largest float. *)
Definition as_float64 (t : pynum) : Py.result num :=
  match t with
  | PyFloat x => Py.ret x
  | PyInt z =>
      let r := Ieee.round64 (inject_Z z) in
      if Qltb Ieee.max64 (Qabs r)
      then Py.raise (OverflowError "int too large to convert to float")
      else Py.ret (Fin r)
  end.

(** A float64 cast to float32: rounded, and an infinity above the largest
    float32. *)
Definition as_float32 (x : num) : num :=
  match x with
  | Fin q =>
      let r := Ieee.round32 q in
      if Qltb Ieee.max32 r then PInf
      else if Qltb r (- Ieee.max32) then NInf
      else Fin r
  | PInf | NInf | NaN => x
  end.

(** The number the cells of an array of dtype [dt] are compared with in
    [array > t], [array <= t] and [array == t], [t] being a Python number.
    A float array takes [t] in its own dtype.  An integer array is compared
    with a Python int exactly, and with a Python float as float64, which
    holds every value of the integer dtypes above. *)
Definition scalar_as (dt : dtype) (t : pynum) : Py.result num :=
  match dt with
  | float64 => as_float64 t
  | float32 => x <- as_float64 t ;; Py.ret (as_float32 x)
  | uint8 | int16 | int32 => Py.ret (py_value t)
  end.

(** The cell that [array[mask] = k] writes for a Python int [k]: an integer
    dtype refuses a value it cannot hold (OverflowError), a float dtype
    converts it as it converts a threshold. *)
Definition store (dt : dtype) (k : nat) : Py.result num :=
  if is_integer dt
  then
    if (Z.of_nat k <=? int_max dt)%Z
    then Py.ret (num_of_nat k)
    else Py.raise
           (OverflowError
              ("Python integer " ++ Py.str_of_int (Z.of_nat k)
               ++ " out of bounds for " ++ dtype_name dt)%string)
  else scalar_as dt (PyInt (Z.of_nat k)).

(** [np.zeros_like(a)] *)
Definition zeros_like (a : ndarray) : ndarray :=
  NdArray (nd_dtype a) (Np.zeros_like (nd_cells a)).

(** [a == t], [a > t], [a <= t], [a >= t] against a Python number. *)
Definition eq (a : ndarray) (t : pynum) : Py.result (grid bool) :=
  v <- scalar_as (nd_dtype a) t ;; Py.ret (eq_scalar (nd_cells a) v).
Definition gt (a : ndarray) (t : pynum) : Py.result (grid bool) :=
  v <- scalar_as (nd_dtype a) t ;; Py.ret (gt_scalar (nd_cells a) v).
Definition le (a : ndarray) (t : pynum) : Py.result (grid bool) :=
  v <- scalar_as (nd_dtype a) t ;; Py.ret (le_scalar (nd_cells a) v).
Definition ge (a : ndarray) (t : pynum) : Py.result (grid bool) :=
  v <- scalar_as (nd_dtype a) t ;; Py.ret (ge_scalar (nd_cells a) v).

(** [a[mask] = k] for a Python int [k]. *)
Definition setitem (a : ndarray) (mask : grid bool) (k : nat)
  : Py.result ndarray :=
  v <- store (nd_dtype a) k ;;
  cells <- setmask (nd_cells a) mask v ;;
  Py.ret (NdArray (nd_dtype a) cells).

(** Lines 51 to 57: one turn of the loop over [enumerate(thresholds)]. *)
Definition classify_band (depth_array : ndarray) (thresholds : list pynum)
  (it : nat * pynum) (classified : ndarray) : Py.result ndarray :=
  let '(i, threshold) := it in
  if Nat.eqb i 0
  then
    above <- gt depth_array (PyInt 0) ;;
    within <- le depth_array threshold ;;
    setitem classified (mask_and above within) (i + 1)
  else
    previous <- Py.getitem thresholds (i - 1) ;;
    above <- gt depth_array previous ;;
    within <- le depth_array threshold ;;
    setitem classified (mask_and above within) (i + 1).

(** Lines 45 to 62. *)
Definition classify_flood_depth (depth_array : ndarray)
  (thresholds : option (list pynum)) : Py.result ndarray :=
  let thresholds :=
    match thresholds with
    | None => default_thresholds
    | Some ths => ths
    end in
  let classified := zeros_like depth_array in
  dry <- eq depth_array (PyInt 0) ;;
  classified <- setitem classified dry 0 ;;
  classified <- Py.for_each (Py.enumerate thresholds)
                  (classify_band depth_array thresholds) classified ;;
  last_threshold <- Py.getitem_last thresholds ;;
  above <- gt depth_array last_threshold ;;
  setitem classified above (length thresholds + 1).

(** The thresholds as an array of dtype [dt] compares them. *)
Fixpoint converted (dt : dtype) (thresholds : list pynum)
  : Py.result (list pynum) :=
  match thresholds with
  | [] => Py.ret []
  | t :: rest =>
      v <- scalar_as dt t ;;
      vs <- converted dt rest ;;
      Py.ret (PyFloat v :: vs)
  end.

(** [np.sum(mask)] for the mask of a comparison. *)
Definition count (mask : Py.result (grid bool)) : Py.result nat :=
  m <- mask ;; Py.ret (Np.sum m).

(** Two arrays of one dtype and one shape. *)
Definition same_kind (a b : ndarray) : Prop :=
  nd_dtype a = nd_dtype b /\ shape (nd_cells a) = shape (nd_cells b).

(** The same number, written the same way. *)
Definition num_same (x y : num) : bool :=
  match x, y with
  | Fin a, Fin b => Z.eqb (Qnum a) (Qnum b) && Pos.eqb (Qden a) (Qden b)
  | PInf, PInf | NInf, NInf | NaN, NaN => true
  | _, _ => false
  end.

(** The dtype holds the categories 0 to [n + 1] as they are. *)
Definition categories_fit (dt : dtype) (n : nat) : bool :=
  forallb
    (fun k =>
       match store dt k with
       | inr v => num_same v (num_of_nat k)
       | inl _ => false
       end)
    (seq 0 (n + 2)).

(** The Python floats [[0.1, 0.3, 0.7]]. *)
Definition example_thresholds : list pynum :=
  [PyFloat (Fin (Ieee.round64 (1 # 10)));
   PyFloat (Fin (Ieee.round64 (3 # 10)));
   PyFloat (Fin (Ieee.round64 (7 # 10)))].

(** A float32 array with the cells [0.1], [0.3] and [0.7]. *)
Definition example_float32 : ndarray :=
  NdArray float32
    [map (fun t => as_float32 (py_value t)) example_thresholds].

End Dtyped.

(** ** Records of the result table *)

(** A value of a result record: an attribute of the layer, a positional index
    or an area. *)
Inductive pyval : Type :=
| VStr (s : string)
| VInt (z : Z)
| VNum (q : Q).

(** A Python [dict] with string keys, in insertion order. *)
Definition dict : Type := list (string * pyval).

(** [d[k] = v]: a key already there keeps its place and takes the new value. *)
Fixpoint dict_set (d : dict) (k : string) (v : pyval) : dict :=
  match d with
  | [] => [(k, v)]
  | (k', v') :: d' =>
      if String.eqb k' k then (k', v) :: d' else (k', v') :: dict_set d' k v
  end.

Fixpoint dict_get (d : dict) (k : string) : option pyval :=
  match d with
  | [] => None
  | (k', v') :: d' => if String.eqb k' k then Some v' else dict_get d' k
  end.

Definition dict_keys (d : dict) : list string := map fst d.

(** [pd.DataFrame(results)]: the table of the records, row by row. *)
Inductive DataFrame : Type :=
| pd_DataFrame (records : list dict).

Definition records (df : DataFrame) : list dict :=
  match df with
  | pd_DataFrame rs => rs
  end.

(** The text Python prints for a float in an f-string. *)
Class FloatRepr : Type := float_repr : num -> string.

(** [f'{t}'] for a threshold. *)
Definition py_str `{FloatRepr} (t : pynum) : string :=
  match t with
  | PyInt z => Py.str_of_int z
  | PyFloat x => float_repr x
  end.

(** ** The collaborators: vector layer and raster *)

Definition geometry : Type := list (Q * Q).

(** One row of the GeoDataFrame. *)
Record village : Type := Village {
  village_geometry : geometry;
  village_attrs : dict
}.

(** [village.get(key, default)] *)
Definition village_get (v : village) (key : string) (default : pyval) : pyval :=
  match dict_get (village_attrs v) key with
  | Some x => x
  | None => default
  end.

(** The rows of a layer share its columns: every village has the attribute
    names of the first one. *)
Definition same_columns (villages : list village) : bool :=
  match villages with
  | [] => true
  | v :: rest =>
      forallb
        (fun v' =>
           if list_eq_dec string_dec (dict_keys (village_attrs v))
                (dict_keys (village_attrs v'))
           then true else false)
        rest
  end.

(** An open raster: [src.read], [src.transform] and what
    [rasterio.mask.mask(src, shapes, crop=True)] returns, the clipped bands or
    an exception. *)
Record dataset : Type := Dataset {
  ds_read : nat -> Py.result (grid num);
  transform_a : Q;
  transform_e : Q;
  ds_mask : list geometry -> Py.result (list (grid num))
}.

Record world : Type := World {
  gpd_read_file : string -> Py.result (list village);
  rasterio_open : string -> Py.result dataset
}.

Module IO.

Inductive event : Type :=
| ReadFile (path : string)
| Open (path : string)
| ReadBand (band : nat)
| Mask (shapes : list geometry)
| Close (path : string).

(** A computation that logs its calls to the collaborators. *)
Definition io (A : Type) : Type := list event -> Py.result A * list event.

Definition ret {A} (a : A) : io A := fun log => (inr a, log).

Definition bind {A B} (m : io A) (k : A -> io B) : io B :=
  fun log =>
    match m log with
    | (inl e, log') => (inl e, log')
    | (inr a, log') => k a log'
    end.

Definition lift {A} (r : Py.result A) : io A := fun log => (r, log).

Definition call {A} (ev : event) (r : Py.result A) : io A :=
  fun log => (r, log ++ [ev]).

(** [gpd.read_file(path)] *)
Definition read_file (w : world) (path : string) : io (list village) :=
  call (ReadFile path) (gpd_read_file w path).

(** [src.read(band)] *)
Definition read (src : dataset) (band : nat) : io (grid num) :=
  call (ReadBand band) (ds_read src band).

(** [mask(src, shapes, crop=True)] *)
Definition mask (src : dataset) (shapes : list geometry)
  : io (list (grid num)) :=
  call (Mask shapes) (ds_mask src shapes).

(** [with rasterio.open(path) as src: body]: the file is closed on the way
    out, also when [body] raises. *)
Definition with_open {A} (w : world) (path : string) (body : dataset -> io A)
  : io A :=
  fun log =>
    match rasterio_open w path with
    | inl e => (inl e, log ++ [Open path])
    | inr src =>
        let '(r, log') := body src (log ++ [Open path]) in
        (r, log' ++ [Close path])
    end.

Fixpoint for_each {A S} (l : list A) (body : A -> S -> io S) (s : S) : io S :=
  match l with
  | [] => ret s
  | x :: l' => bind (body x s) (for_each l' body)
  end.

End IO.

Notation "x <~ m ;; k" := (IO.bind m (fun x => k))
  (at level 61, m at next level, right associativity).

(** ** The zonal aggregator *)

Local Open Scope string_scope.

(** Lines 95 to 111: the pixel area in the unit asked for, and the suffix of
    the column names.  The divisor is a Python int, converted to a float. *)
Definition unit_conversion (unit : string) (pixel_area_m2 : Q)
  : Py.result (Q * string) :=
  if unit =? "m2" then Py.ret (pixel_area_m2, " (m²)")
  else if unit =? "km2"
       then Py.ret (Ieee.div pixel_area_m2 (Ieee.of_int 1000000), " (km²)")
  else if unit =? "hectare"
       then Py.ret (Ieee.div pixel_area_m2 (Ieee.of_int 10000), " (hectares)")
  else if unit =? "rai"
       then Py.ret (Ieee.div pixel_area_m2 (Ieee.of_int 1600), " (rai)")
  else Py.raise (Py.ValueError
                   "Unit must be one of: 'm2', 'km2', 'hectare', 'rai'").

(** [count * pixel_area]: the count is a numpy int, converted to a float
    before the float multiplication. *)
Definition scaled (count : nat) (pixel_area : Q) : Q :=
  Ieee.mul (Ieee.of_int (Z.of_nat count)) pixel_area.

(** [np.sum(mask) * pixel_area] *)
Definition area (mask : grid bool) (pixel_area : Q) : pyval :=
  VNum (scaled (Np.sum mask) pixel_area).

(** Lines 130 to 135: the column of one threshold band. *)
Definition band_field `{FloatRepr} (thresholds : list pynum)
  (masked_classified : grid num) (pixel_area : Q) (unit_suffix : string)
  (it : nat * pynum) (village_result : dict) : Py.result dict :=
  let '(i, threshold) := it in
  field_name <-
    (if Nat.eqb i 0
     then Py.ret ("0-" ++ py_str threshold ++ " m" ++ unit_suffix)
     else
       previous <- Py.getitem thresholds (i - 1) ;;
       Py.ret (py_str previous ++ "-" ++ py_str threshold ++ "m"
                 ++ unit_suffix)) ;;
  Py.ret (dict_set village_result field_name
            (area (eq_scalar masked_classified (num_of_nat (i + 1)))
               pixel_area)).

(** Lines 122 to 141: the record of one village, from its classified grid. *)
Definition village_result `{FloatRepr} (thresholds : list pynum)
  (masked_classified : grid num) (pixel_area : Q) (unit_suffix : string)
  (idx : nat) (v : village) : Py.result dict :=
  let village_result : dict := [] in
  let village_result :=
    dict_set village_result "village_id"
      (village_get v "ADM3_EN" (VInt (Z.of_nat idx))) in
  let village_result :=
    dict_set village_result "village_name"
      (village_get v "ADM3_TH"
         (VStr ("Village_" ++ Py.str_of_int (Z.of_nat idx)))) in
  let village_result :=
    dict_set village_result ("total_area" ++ unit_suffix)
      (area (ge_scalar masked_classified (num_of_nat 0)) pixel_area) in
  let village_result :=
    dict_set village_result ("no_flood_area" ++ unit_suffix)
      (area (eq_scalar masked_classified (num_of_nat 0)) pixel_area) in
  village_result <-
    Py.for_each (Py.enumerate thresholds)
      (band_field thresholds masked_classified pixel_area unit_suffix)
      village_result ;;
  last_threshold <- Py.getitem_last thresholds ;;
  let village_result :=
    dict_set village_result (">" ++ py_str last_threshold ++ " m" ++ unit_suffix)
      (area (eq_scalar masked_classified
               (num_of_nat (List.length thresholds + 1))) pixel_area) in
  let village_result :=
    dict_set village_result ("total_flooded_area" ++ unit_suffix)
      (area (gt_scalar masked_classified (num_of_nat 0)) pixel_area) in
  Py.ret village_result.

(** Lines 116 to 141: one turn of the loop over the villages. *)
Definition village_record `{FloatRepr} (src : dataset)
  (thresholds : list pynum) (pixel_area : Q) (unit_suffix : string)
  (idx : nat) (v : village) : IO.io dict :=
  let village_geom := [village_geometry v] in
  masked_flood <~ IO.mask src village_geom ;;
  band0 <~ IO.lift (Py.getitem masked_flood 0) ;;
  masked_classified <~ IO.lift (classify_flood_depth band0 (Some thresholds)) ;;
  IO.lift (village_result thresholds masked_classified pixel_area unit_suffix
             idx v).

(** [unit] is the token the caller passes ('m2' when it is left out). *)
Definition calculate_flood_area_by_village `{FloatRepr} (w : world)
  (flood_raster_path villages_shapefile_path : string)
  (thresholds : option (list pynum)) (unit : string) : IO.io DataFrame :=
  let thresholds :=
    match thresholds with
    | None => default_thresholds
    | Some ths => ths
    end in
  villages_gdf <~ IO.read_file w villages_shapefile_path ;;
  results <~
    IO.with_open w flood_raster_path (fun src =>
      flood_data <~ IO.read src 1 ;;
      let pixel_area_m2 :=
        Qabs (Ieee.mul (transform_a src) (transform_e src)) in
      conv <~ IO.lift (unit_conversion unit pixel_area_m2) ;;
      let '(pixel_area, unit_suffix) := conv in
      IO.for_each (Py.enumerate villages_gdf)
        (fun '(idx, v) results =>
           village_result <~
             village_record src thresholds pixel_area unit_suffix idx v ;;
           IO.ret (results ++ [village_result])%list)
        []) ;;
  IO.ret (pd_DataFrame results).

(** ** The columns of a record *)

(** The name given to the column of band [i] (lines 131 to 134). *)
Definition band_column `{FloatRepr} (thresholds : list pynum)
  (unit_suffix : string) (it : nat * pynum) : string :=
  let '(i, threshold) := it in
  if Nat.eqb i 0 then "0-" ++ py_str threshold ++ " m" ++ unit_suffix
  else py_str (nth (i - 1) thresholds threshold) ++ "-" ++ py_str threshold
         ++ "m" ++ unit_suffix.

(** The name of the last category (line 138). *)
Definition last_column `{FloatRepr} (thresholds : list pynum)
  (unit_suffix : string) : list string :=
  match thresholds with
  | [] => []
  | t :: ths => [">" ++ py_str (List.last ths t) ++ " m" ++ unit_suffix]
  end.

(** The band columns in the order the code assigns them. *)
Definition band_columns `{FloatRepr} (thresholds : list pynum)
  (unit_suffix : string) : list string :=
  List.app (map (band_column thresholds unit_suffix) (Py.enumerate thresholds))
    (last_column thresholds unit_suffix).

(** The area columns in the order the code assigns them. *)
Definition area_columns `{FloatRepr} (thresholds : list pynum)
  (unit_suffix : string) : list string :=
  ("total_area" ++ unit_suffix)
  :: ("no_flood_area" ++ unit_suffix)
  :: List.app (band_columns thresholds unit_suffix)
       ["total_flooded_area" ++ unit_suffix].

(** All the columns in the order the code assigns them. *)
Definition column_names `{FloatRepr} (thresholds : list pynum)
  (unit_suffix : string) : list string :=
  "village_id" :: "village_name" :: area_columns thresholds unit_suffix.

(** The cell counts behind the band columns: categories 1 to n+1. *)
Definition band_counts (thresholds : list pynum) (masked_classified : grid num)
  : list nat :=
  map (fun k => Np.sum (eq_scalar masked_classified (num_of_nat k)))
      (seq 1 (List.length thresholds + 1)).

(** The cell counts behind the area columns. *)
Definition area_counts (thresholds : list pynum) (masked_classified : grid num)
  : list nat :=
  Np.sum (ge_scalar masked_classified (num_of_nat 0))
  :: Np.sum (eq_scalar masked_classified (num_of_nat 0))
  :: List.app (band_counts thresholds masked_classified)
       [Np.sum (gt_scalar masked_classified (num_of_nat 0))].

(** The (name, value) pairs the code assigns to a record, in order. *)
Definition village_fields `{FloatRepr} (thresholds : list pynum)
  (masked_classified : grid num) (pixel_area : Q) (unit_suffix : string)
  (idx : nat) (v : village) : list (string * pyval) :=
  ("village_id", village_get v "ADM3_EN" (VInt (Z.of_nat idx)))
  :: ("village_name",
       village_get v "ADM3_TH"
         (VStr ("Village_" ++ Py.str_of_int (Z.of_nat idx))))
  :: combine (area_columns thresholds unit_suffix)
       (map (fun n => VNum (scaled n pixel_area))
            (area_counts thresholds masked_classified)).

(** The divisor of each unit (lines 98 to 109). *)
Definition unit_factors : list (string * Z) :=
  [("m2", 1%Z); ("km2", 1000000%Z); ("hectare", 10000%Z); ("rai", 1600%Z)].

(** The pixel area in a unit of divisor [f]: a float division for every unit
    but m2, for which the code does not divide. *)
Definition unit_pixel_area (unit : string) (f : Z) (pixel_area_m2 : Q) : Q :=
  if unit =? "m2" then pixel_area_m2
  else Ieee.div pixel_area_m2 (Ieee.of_int f).

(** The dict left by a sequence of assignments [d[k] = v]. *)
Definition dict_of_fields (fields : list (string * pyval)) : dict :=
  fold_left (fun d kv => dict_set d (fst kv) (snd kv)) fields [].

(** The keys left by assigning to the names in turn: each name once, at the
    place of its first assignment. *)
Definition assigned_keys (names : list string) : list string :=
  fold_left
    (fun ks k => if existsb (String.eqb k) ks then ks else (ks ++ [k])%list)
    names [].


(** The last character of a string. *)
Fixpoint string_last (s : string) : option ascii :=
  match s with
  | EmptyString => None
  | String a s' =>
      match string_last s' with
      | None => Some a
      | Some c => Some c
      end
  end.

(** Equal as numbers: two fractions of one value are the same cell value. *)
Definition num_equiv (x y : num) : Prop :=
  match x, y with
  | Fin a, Fin b => (a == b)%Q
  | PInf, PInf => True
  | NInf, NInf => True
  | NaN, NaN => True
  | _, _ => False
  end.

(** ** The run without its log *)

(** What one turn of the loop over the villages returns. *)
Definition record_of `{FloatRepr} (src : dataset) (thresholds : list pynum)
  (pixel_area : Q) (unit_suffix : string) (it : nat * village)
  : Py.result dict :=
  masked_flood <- ds_mask src [village_geometry (snd it)] ;;
  band0 <- Py.getitem masked_flood 0 ;;
  masked_classified <- classify_flood_depth band0 (Some thresholds) ;;
  village_result thresholds masked_classified pixel_area unit_suffix
    (fst it) (snd it).

(** The clips the loop asks for: one per village, up to the first failure. *)
Fixpoint mask_events `{FloatRepr} (src : dataset) (thresholds : list pynum)
  (pixel_area : Q) (unit_suffix : string) (l : list (nat * village))
  : list IO.event :=
  match l with
  | [] => []
  | it :: l' =>
      IO.Mask [village_geometry (snd it)]
      :: match record_of src thresholds pixel_area unit_suffix it with
         | inl _ => []
         | inr _ => mask_events src thresholds pixel_area unit_suffix l'
         end
  end.

Definition collect_records `{FloatRepr} (src : dataset)
  (thresholds : list pynum) (pixel_area : Q) (unit_suffix : string)
  (l : list (nat * village)) (results : list dict) : Py.result (list dict) :=
  Py.for_each l
    (fun it results =>
       village_result <- record_of src thresholds pixel_area unit_suffix it ;;
       Py.ret (List.app results [village_result]))
    results.

Definition effective_thresholds (thresholds : option (list pynum))
  : list pynum :=
  match thresholds with
  | None => default_thresholds
  | Some ths => ths
  end.

(** What a run returns. *)
Definition run_result `{FloatRepr} (w : world)
  (flood_raster_path villages_shapefile_path : string)
  (thresholds : option (list pynum)) (unit : string) : Py.result DataFrame :=
  villages_gdf <- gpd_read_file w villages_shapefile_path ;;
  src <- rasterio_open w flood_raster_path ;;
  flood_data <- ds_read src 1 ;;
  conv <- unit_conversion unit
            (Qabs (Ieee.mul (transform_a src) (transform_e src))) ;;
  results <- collect_records src (effective_thresholds thresholds)
               (fst conv) (snd conv) (Py.enumerate villages_gdf) [] ;;
  Py.ret (pd_DataFrame results).

(** The calls a run makes to the collaborators. *)
Definition run_events `{FloatRepr} (w : world)
  (flood_raster_path villages_shapefile_path : string)
  (thresholds : option (list pynum)) (unit : string) : list IO.event :=
  IO.ReadFile villages_shapefile_path
  :: match gpd_read_file w villages_shapefile_path with
     | inl _ => []
     | inr villages_gdf =>
         IO.Open flood_raster_path
         :: match rasterio_open w flood_raster_path with
            | inl _ => []
            | inr src =>
                List.app
                  (IO.ReadBand 1
                   :: match ds_read src 1 with
                      | inl _ => []
                      | inr _ =>
                          match unit_conversion unit
                                  (Qabs
                                     (Ieee.mul (transform_a src)
                                        (transform_e src)))
                          with
                          | inl _ => []
                          | inr conv =>
                              mask_events src (effective_thresholds thresholds)
                                (fst conv) (snd conv)
                                (Py.enumerate villages_gdf)
                          end
                      end)
                  [IO.Close flood_raster_path]
            end
     end.

(** ** Example inputs *)

(** The float format used in the examples: a float that is not negative and
    has one decimal place, as Python prints 0.5 or 2.0. *)
Definition example_repr : FloatRepr :=
  fun x =>
    match x with
    | Fin q =>
        let tenths := (Qnum q * 10 / Zpos (Qden q))%Z in
        Py.str_of_int (tenths / 10) ++ "." ++ Py.str_of_int (tenths mod 10)
    | PInf => "inf"
    | NInf => "-inf"
    | NaN => "nan"
    end.

(** A 3 x 3 depth grid with cells of 10 m x 10 m. *)
Definition example_depths : grid num :=
  [[Fin 0; Fin (3 # 10); Fin (6 # 10)];
   [Fin (15 # 10); Fin (25 # 10); Fin (35 # 10)];
   [Fin 0; Fin 0; Fin 0]].

(** A raster of cells [a] x [e] whose clip is the whole grid, an empty grid
    for a polygon of fewer than three points, and an error for a polygon with
    no point. *)
Definition example_raster_of (a e : Q) (depths : grid num) : dataset :=
  {| ds_read := fun _ => inr depths;
     transform_a := a;
     transform_e := e;
     ds_mask := fun shapes =>
       match shapes with
       | [[]] => inl (Py.ValueError "Input shapes do not overlap raster.")
       | [[_]] | [[_; _]] => inr [[]]
       | _ => inr [depths]
       end |}.

Definition example_raster : dataset :=
  example_raster_of 10 (-10) example_depths.


Definition example_square : geometry :=
  [(0, 0); (30, 0); (30, 30); (0, 30)]%Q.

Definition example_villages : list village :=
  [ {| village_geometry := example_square;
       village_attrs := [("ADM3_EN", VStr "Nai Mueang")] |};
    {| village_geometry := example_square; village_attrs := [] |} ].

(** A layer with the column ADM3_EN and without the column ADM3_TH. *)
Definition example_layer : list village :=
  [ {| village_geometry := example_square;
       village_attrs := [("ADM3_EN", VStr "Nai Mueang")] |};
    {| village_geometry := example_square;
       village_attrs := [("ADM3_EN", VStr "Pak Nam")] |} ].

Definition example_world_of (raster : dataset) (villages : list village)
  : world :=
  {| gpd_read_file := fun _ => inr villages;
     rasterio_open := fun _ => inr raster |}.

Definition example_world (villages : list village) : world :=
  example_world_of example_raster villages.

(** * Properties *)

Local Close Scope string_scope.
Local Open Scope string_scope.
Local Open Scope list_scope.

(** ** Rounding *)

Section Rounding.

Variables prec emin : Z.

Lemma round_to_eq (x y : Q) :
  (x == y)%Q -> Ieee.round_to prec emin x = Ieee.round_to prec emin y.
Proof.
  intros E. unfold Ieee.round_to. rewrite (Qred_complete _ _ E). reflexivity.
Qed.

Lemma round_to_zero (x : Q) : (x == 0)%Q -> Ieee.round_to prec emin x = 0%Q.
Proof. intros E. rewrite (round_to_eq _ _ E). reflexivity. Qed.

Lemma round_half_even_nonneg (n d : Z) :
  (0 <= n)%Z -> (0 < d)%Z -> (0 <= Ieee.round_half_even n d)%Z.
Proof.
  intros Hn Hd. unfold Ieee.round_half_even.
  pose proof (Z.div_pos n d Hn Hd).
  destruct (2 * (n mod d) ?= d)%Z; [destruct (Z.even (n / d))|..]; lia.
Qed.

Lemma round_pos_nonneg (n d : BinNums.positive) :
  (0 <= Ieee.round_pos prec emin n d)%Q.
Proof.
  unfold Ieee.round_pos. rewrite Qred_correct.
  set (s := Z.max (Ieee.floor_log2 n d - (prec - 1)) emin).
  assert (Hp : forall k, (0 < 2 ^ Z.max k 0)%Z)
    by (intros k; apply Z.pow_pos_nonneg; lia).
  pose proof (round_half_even_nonneg (Zpos n * 2 ^ Z.max (- s) 0)
                (Zpos d * 2 ^ Z.max s 0)) as Hm.
  pose proof (Hp s). pose proof (Hp (- s)%Z).
  unfold Qle. cbn [Qnum Qden]. rewrite Z.mul_1_r. cbn [Z.mul].
  apply Z.mul_nonneg_nonneg; [apply Hm|]; nia.
Qed.

Lemma round_to_nonneg (x : Q) :
  (0 <= x)%Q -> (0 <= Ieee.round_to prec emin x)%Q.
Proof.
  intros Hx. rewrite <- (Qred_correct x) in Hx. unfold Ieee.round_to.
  destruct (Qred x) as [n d]. cbn [Qnum Qden]. destruct n.
  - apply Qle_refl.
  - apply round_pos_nonneg.
  - exfalso. unfold Qle in Hx. cbn in Hx. lia.
Qed.

End Rounding.

(** ** The order of the cell values *)

Section NumOrder.

Lemma Qltb_lt (a b : Q) : Qltb a b = true <-> (a < b)%Q.
Proof.
  unfold Qltb. rewrite negb_true_iff. split.
  - intros H. apply Qnot_le_lt. intros H'.
    apply Qle_bool_iff in H'. congruence.
  - intros H. destruct (Qle_bool b a) eqn:E; [|reflexivity].
    apply Qle_bool_iff in E. exfalso. apply (Qlt_not_le _ _ H E).
Qed.

Lemma ltb_irrefl (x : num) : ltb x x = false.
Proof.
  destruct x; simpl; try reflexivity.
  destruct (Qltb q q) eqn:E; [|reflexivity].
  apply Qltb_lt in E. exfalso. apply (Qlt_irrefl _ E).
Qed.

Lemma ltb_trans (x y z : num) :
  ltb x y = true -> ltb y z = true -> ltb x z = true.
Proof.
  destruct x, y, z; simpl; try congruence.
  rewrite !Qltb_lt. apply Qlt_trans.
Qed.

Lemma eqb_ltb_trans (x y z : num) :
  eqb x y = true -> ltb y z = true -> ltb x z = true.
Proof.
  destruct x, y, z; simpl; try congruence.
  rewrite Qeq_bool_iff, !Qltb_lt. intros E H. now rewrite E.
Qed.

Lemma eqb_refl_fin (x : num) : x <> NaN -> eqb x x = true.
Proof.
  destruct x; simpl; try congruence. intros _. apply Qeq_bool_iff. reflexivity.
Qed.

(** Comparing with NaN is false on either side. *)
Lemma nan_cmp (x : num) :
  ltb NaN x = false /\ ltb x NaN = false /\ eqb NaN x = false
  /\ eqb x NaN = false /\ leb NaN x = false /\ leb x NaN = false
  /\ gtb NaN x = false /\ gtb x NaN = false.
Proof. unfold gtb, leb. destruct x; simpl; repeat split; reflexivity. Qed.

Lemma eqb_nat (a b : nat) : eqb (num_of_nat a) (num_of_nat b) = Nat.eqb a b.
Proof.
  unfold num_of_nat, num_of_Z. simpl.
  destruct (Nat.eqb a b) eqn:E.
  - apply Nat.eqb_eq in E. subst. apply Qeq_bool_iff. reflexivity.
  - apply Nat.eqb_neq in E.
    destruct (Qeq_bool _ _) eqn:E'; [|reflexivity].
    apply Qeq_bool_iff in E'. unfold Qeq in E'. simpl in E'. lia.
Qed.

Lemma ltb_nat (a b : nat) : ltb (num_of_nat a) (num_of_nat b) = Nat.ltb a b.
Proof.
  unfold num_of_nat, num_of_Z. simpl.
  destruct (Nat.ltb a b) eqn:E.
  - apply Nat.ltb_lt in E. apply Qltb_lt. unfold Qlt. simpl. lia.
  - apply Nat.ltb_ge in E.
    destruct (Qltb _ _) eqn:E'; [|reflexivity].
    apply Qltb_lt in E'. unfold Qlt in E'. simpl in E'. lia.
Qed.

Lemma num_of_nat_inj (a b : nat) : num_of_nat a = num_of_nat b -> a = b.
Proof.
  intros H. apply Nat.eqb_eq. rewrite <- eqb_nat, H.
  apply eqb_refl_fin. discriminate.
Qed.

End NumOrder.

(** ** Arrays *)

Section Grids.

Context {A B C : Type}.

Lemma shape_grid_map (f : A -> B) (g : grid A) :
  shape (grid_map f g) = shape g.
Proof.
  unfold shape, grid_map. rewrite map_map. apply map_ext.
  intros row. apply length_map.
Qed.

Lemma zip_with_map {X} (h : B -> C -> X) (f : A -> B) (f' : A -> C)
  (l : list A) :
  zip_with h (map f l) (map f' l) = map (fun x => h (f x) (f' x)) l.
Proof. induction l as [|x l IH]; simpl; [reflexivity | now rewrite IH]. Qed.

Lemma grid_zip_map {X} (h : B -> C -> X) (f : A -> B) (f' : A -> C)
  (g : grid A) :
  grid_zip h (grid_map f g) (grid_map f' g)
  = grid_map (fun x => h (f x) (f' x)) g.
Proof.
  unfold grid_zip, grid_map.
  induction g as [|row g IH]; simpl; [reflexivity|].
  now rewrite zip_with_map, IH.
Qed.

Lemma Forall2_grid_map (P : A -> B -> Prop) (f : A -> B) (g : grid A) :
  (forall x, P x (f x)) -> Forall2 (Forall2 P) g (grid_map f g).
Proof.
  intros H. unfold grid_map.
  induction g as [|row g IH]; simpl; constructor; [|exact IH].
  induction row as [|x row IHr]; simpl; constructor; auto.
Qed.

Lemma concat_grid_map (f : A -> B) (g : grid A) :
  concat (grid_map f g) = map f (concat g).
Proof. unfold grid_map. symmetry. apply concat_map. Qed.

End Grids.

Lemma shape_eqb_refl (s : list nat) : shape_eqb s s = true.
Proof. unfold shape_eqb. destruct (list_eq_dec Nat.eq_dec s s); congruence. Qed.

(** A masked assignment, seen cell by cell. *)
Lemma setmask_map (f : num -> num) (p : num -> bool) (v : num) (g : grid num) :
  setmask (grid_map f g) (grid_map p g) v
  = inr (grid_map (fun d => if p d then v else f d) g).
Proof.
  unfold setmask. rewrite !shape_grid_map, shape_eqb_refl.
  unfold Py.ret. f_equal. apply grid_zip_map.
Qed.

Lemma mask_and_map (p q : num -> bool) (g : grid num) :
  mask_and (grid_map p g) (grid_map q g) = grid_map (fun d => p d && q d) g.
Proof. apply grid_zip_map. Qed.

(** ** The classifier, cell by cell *)

Lemma enumerate_from_In {A} (l : list A) (k i : nat) (x : A) :
  In (i, x) (Py.enumerate_from k l) -> k <= i /\ nth_error l (i - k) = Some x.
Proof.
  revert k. induction l as [|y l IH]; simpl; intros k H; [contradiction|].
  destruct H as [H | H].
  - inversion H; subst. rewrite Nat.sub_diag. split; [lia | reflexivity].
  - apply IH in H. destruct H as [Hk Hn]. split; [lia|].
    replace (i - k) with (S (i - S k)) by lia. exact Hn.
Qed.

Lemma enumerate_In {A} (l : list A) (i : nat) (x : A) :
  In (i, x) (Py.enumerate l) -> nth_error l i = Some x.
Proof.
  intros H. apply enumerate_from_In in H. now rewrite Nat.sub_0_r in H.
Qed.

Lemma band_lower_Some (ths : list pynum) (i : nat) (t : pynum) :
  nth_error ths i = Some t -> exists lo, band_lower ths i = Some lo.
Proof.
  intros H. unfold band_lower. destruct i as [|i]; simpl; [eauto|].
  rewrite Nat.sub_0_r.
  destruct (nth_error ths i) eqn:E; simpl; [eauto|].
  apply nth_error_None in E.
  assert (S i < length ths) by (apply nth_error_Some; congruence). lia.
Qed.

Lemma classify_band_map (g : grid num) (ths : list pynum) (i : nat) (t : pynum)
  (f : num -> num) :
  nth_error ths i = Some t ->
  classify_band g ths (i, t) (grid_map f g)
  = inr (grid_map (fun d => cell_band ths d (f d) (i, t)) g).
Proof.
  intros H. destruct (band_lower_Some _ _ _ H) as [lo Hlo].
  unfold classify_band, cell_band. rewrite Hlo.
  unfold band_lower in Hlo. destruct (Nat.eqb i 0).
  - inversion Hlo; subst. unfold gt_scalar, le_scalar.
    rewrite mask_and_map. apply setmask_map.
  - unfold Py.getitem. destruct (nth_error ths (i - 1)); [|discriminate].
    simpl in Hlo. inversion Hlo; subst. simpl. unfold gt_scalar, le_scalar.
    rewrite mask_and_map. apply setmask_map.
Qed.

Lemma classify_loop_map (g : grid num) (ths : list pynum) :
  forall (l : list (nat * pynum)) (f : num -> num),
    (forall i t, In (i, t) l -> nth_error ths i = Some t) ->
    Py.for_each l (classify_band g ths) (grid_map f g)
    = inr (grid_map (fun d => fold_left (cell_band ths d) l (f d)) g).
Proof.
  induction l as [|[i t] l IH]; intros f H; cbn [Py.for_each];
    [reflexivity|].
  rewrite classify_band_map by (apply H; now left). cbn [Py.bind].
  rewrite IH by (intros; apply H; now right). reflexivity.
Qed.

(** The whole classifier maps one function over the cells, unless the list of
    thresholds is empty. *)
Lemma classify_cells (g : grid num) (ths : list pynum) :
  classify_flood_depth g (Some ths)
  = match ths with
    | [] => inl (Py.IndexError "list index out of range")
    | _ :: _ => inr (grid_map (cell_category ths) g)
    end.
Proof.
  unfold classify_flood_depth, zeros_like, eq_scalar.
  rewrite setmask_map. simpl Py.bind.
  rewrite classify_loop_map by (intros; now apply enumerate_In).
  simpl Py.bind. destruct ths as [|t ths]; [reflexivity|].
  unfold Py.getitem_last. simpl Py.bind. unfold gt_scalar.
  rewrite setmask_map. f_equal.
Qed.

Lemma cell_band_in_band (ths : list pynum) (d v : num) (k : nat) (t : pynum) :
  nth_error ths k = Some t ->
  cell_band ths d v (k, t) = if in_band ths k d then num_of_nat (k + 1) else v.
Proof.
  intros H. unfold cell_band, in_band. rewrite H.
  destruct (band_lower ths k); reflexivity.
Qed.

Lemma in_band_out_of_range (ths : list pynum) (i : nat) (d : num) :
  length ths <= i -> in_band ths i d = false.
Proof.
  intros H. unfold in_band. apply nth_error_None in H. rewrite H.
  destruct (band_lower ths i); reflexivity.
Qed.

(** After the loop a cell holds the number of the last band whose mask it is
    in, or the value it had before the loop. *)
Lemma fold_bands (ths : list pynum) (d : num) :
  forall (suf : list pynum) (k : nat) (v : num),
    (forall j, nth_error suf j = nth_error ths (k + j)) ->
    let r := fold_left (cell_band ths d) (Py.enumerate_from k suf) v in
    (exists i, k <= i /\ i < length ths /\ in_band ths i d = true
               /\ (forall j, i < j -> in_band ths j d = false)
               /\ r = num_of_nat (i + 1))
    \/ ((forall j, k <= j -> in_band ths j d = false) /\ r = v).
Proof.
  induction suf as [|t suf IH]; intros k v H; cbv zeta;
    cbn [Py.enumerate_from fold_left].
  - right. split; [|reflexivity]. intros j Hj.
    apply in_band_out_of_range. apply nth_error_None.
    specialize (H (j - k)). replace (k + (j - k)) with j in H by lia.
    rewrite <- H. now destruct (j - k).
  - assert (Hk : nth_error ths k = Some t).
    { specialize (H 0). rewrite Nat.add_0_r in H. now rewrite <- H. }
    rewrite (cell_band_in_band _ _ _ _ _ Hk).
    assert (Hs : forall j, nth_error suf j = nth_error ths (S k + j)).
    { intros j. specialize (H (S j)). simpl in H.
      now replace (S k + j) with (k + S j) by lia. }
    destruct (in_band ths k d) eqn:Ek.
    + destruct (IH (S k) (num_of_nat (k + 1)) Hs)
        as [(i & Hi & Hlt & Hb & Hno & Hr) | (Hno & Hr)].
      * left. exists i. repeat split; auto. lia.
      * left. exists k. repeat split; auto.
        apply nth_error_Some. congruence.
    + destruct (IH (S k) v Hs)
        as [(i & Hi & Hlt & Hb & Hno & Hr) | (Hno & Hr)].
      * left. exists i. repeat split; auto. lia.
      * right. split; [|exact Hr]. intros j Hj.
        destruct (Nat.eq_dec j k) as [->|Hne]; [exact Ek|].
        apply Hno. lia.
Qed.

(** The three ways a cell gets its category. *)
Lemma cell_category_cases (ths : list pynum) (d : num) :
  ths <> [] ->
  (above_last ths d = true
   /\ cell_category ths d = num_of_nat (length ths + 1))
  \/ (above_last ths d = false
      /\ exists i, i < length ths /\ in_band ths i d = true
                   /\ (forall j, i < j -> in_band ths j d = false)
                   /\ cell_category ths d = num_of_nat (i + 1))
  \/ (above_last ths d = false
      /\ (forall j, in_band ths j d = false)
      /\ cell_category ths d = num_of_nat 0).
Proof.
  intros Hne. destruct ths as [|t ths']; [congruence|].
  unfold cell_category, above_last.
  set (l := t :: ths').
  destruct (gtb d (py_value (last ths' t))) eqn:Ea; [left; auto|].
  right.
  destruct (fold_bands l d l 0
              (if eqb d (num_of_nat 0) then num_of_nat 0 else num_of_nat 0)
              (fun j => eq_refl))
    as [(i & _ & Hlt & Hb & Hno & Hr) | (Hno & Hr)].
  - left. split; [reflexivity|]. exists i. auto.
  - right. split; [reflexivity|]. split.
    + intros j. apply Hno. lia.
    + unfold Py.enumerate. rewrite Hr. now destruct (eqb d (num_of_nat 0)).
Qed.

Lemma cell_category_range (ths : list pynum) (d : num) :
  ths <> [] ->
  exists k, k <= length ths + 1 /\ cell_category ths d = num_of_nat k.
Proof.
  intros Hne.
  destruct (cell_category_cases ths d Hne)
    as [[_ H] | [[_ (i & Hi & _ & _ & H)] | [_ [_ H]]]].
  - exists (length ths + 1). split; [lia | exact H].
  - exists (i + 1). split; [lia | exact H].
  - exists 0. split; [lia | exact H].
Qed.

(** ** Sorted thresholds *)

Lemma eqb_sym (x y : num) : eqb x y = eqb y x.
Proof.
  destruct x, y; simpl; try reflexivity.
  apply eq_true_iff_eq. rewrite !Qeq_bool_iff. split; intros E; now symmetry.
Qed.

Lemma ltb_eqb_trans (x y z : num) :
  ltb x y = true -> eqb y z = true -> ltb x z = true.
Proof.
  destruct x, y, z; simpl; try congruence.
  rewrite Qeq_bool_iff, !Qltb_lt. intros H E. now rewrite <- E.
Qed.

Lemma ascending_head (a : pynum) (l : list pynum) :
  ascending (a :: l) = true ->
  forall j t, nth_error l j = Some t -> ltb (py_value a) (py_value t) = true.
Proof.
  revert a. induction l as [|b l IH]; intros a H j t Hj.
  - destruct j; discriminate.
  - simpl in H. apply andb_true_iff in H. destruct H as [Hab Hl].
    destruct j as [|j]; simpl in Hj.
    + inversion Hj; subst. exact Hab.
    + apply (ltb_trans _ (py_value b)); [exact Hab|].
      exact (IH b Hl j t Hj).
Qed.

Lemma ascending_tail (a : pynum) (l : list pynum) :
  ascending (a :: l) = true -> ascending l = true.
Proof.
  destruct l as [|b l]; [reflexivity|]. simpl. intros H.
  apply andb_true_iff in H. apply H.
Qed.

(** In an ascending list an earlier threshold is below a later one. *)
Lemma ascending_nth (ths : list pynum) :
  ascending ths = true ->
  forall i j ti tj,
    i < j -> nth_error ths i = Some ti -> nth_error ths j = Some tj ->
    ltb (py_value ti) (py_value tj) = true.
Proof.
  induction ths as [|a l IH]; intros H i j ti tj Hij Hi Hj.
  - destruct i; discriminate.
  - destruct j as [|j]; [lia|]. simpl in Hj. destruct i as [|i]; simpl in Hi.
    + inversion Hi; subst. exact (ascending_head _ _ H j tj Hj).
    + apply (IH (ascending_tail _ _ H) i j); auto. lia.
Qed.

Lemma last_cons_default {A} (l : list A) (b t : A) :
  last (b :: l) t = last l b.
Proof.
  revert b t. induction l as [|c l IH]; intros b t; [reflexivity|].
  change (last (b :: c :: l) t) with (last (c :: l) t).
  now rewrite !IH.
Qed.

Lemma nth_error_last {A} (l : list A) (t : A) :
  nth_error (t :: l) (length l) = Some (last l t).
Proof.
  revert t. induction l as [|b l IH]; intros t; [reflexivity|].
  simpl length. cbn [nth_error]. rewrite IH. now rewrite last_cons_default.
Qed.

Lemma above_last_nth (ths : list pynum) (d : num) :
  ths <> [] ->
  exists tl, nth_error ths (length ths - 1) = Some tl
             /\ above_last ths d = gtb d (py_value tl).
Proof.
  intros Hne. destruct ths as [|t l]; [congruence|].
  exists (last l t). split; [|reflexivity].
  simpl length. rewrite Nat.sub_1_r. simpl Nat.pred. apply nth_error_last.
Qed.

Lemma ltb_leb_trans (x y z : num) :
  ltb x y = true -> leb y z = true -> ltb x z = true.
Proof.
  unfold leb. rewrite orb_true_iff. intros H [H' | H'].
  - exact (ltb_trans _ _ _ H H').
  - exact (ltb_eqb_trans _ _ _ H H').
Qed.

Lemma band_lower_S (ths : list pynum) (i : nat) :
  band_lower ths (S i) = option_map py_value (nth_error ths i).
Proof. unfold band_lower. simpl. now rewrite Nat.sub_0_r. Qed.

(** The band tests as the code writes them. *)
Lemma in_band_first (ths : list pynum) (t : pynum) (d : num) :
  nth_error ths 0 = Some t ->
  in_band ths 0 d = gtb d (num_of_nat 0) && leb d (py_value t).
Proof. intros Ht. unfold in_band. now rewrite Ht. Qed.

Lemma in_band_next (ths : list pynum) (i : nat) (p t : pynum) (d : num) :
  nth_error ths i = Some p -> nth_error ths (S i) = Some t ->
  in_band ths (S i) d = gtb d (py_value p) && leb d (py_value t).
Proof. intros Hp Ht. unfold in_band. now rewrite band_lower_S, Hp, Ht. Qed.

Lemma in_band_true (ths : list pynum) (i : nat) (d : num) :
  in_band ths i d = true ->
  exists lo t, band_lower ths i = Some lo /\ nth_error ths i = Some t
               /\ ltb lo d = true /\ leb d (py_value t) = true.
Proof.
  unfold in_band. intros H.
  destruct (band_lower ths i) as [lo|]; [|discriminate].
  destruct (nth_error ths i) as [t|]; [|discriminate].
  apply andb_true_iff in H. exists lo, t. unfold gtb in H. tauto.
Qed.

Lemma ascending_le (ths : list pynum) :
  ascending ths = true ->
  forall i j ti tj x,
    i <= j -> nth_error ths i = Some ti -> nth_error ths j = Some tj ->
    ltb (py_value tj) x = true -> ltb (py_value ti) x = true.
Proof.
  intros H i j ti tj x Hij Hi Hj Hx.
  destruct (Nat.eq_dec i j) as [->|Hne].
  - congruence.
  - apply (ltb_trans _ (py_value tj)); [|exact Hx].
    apply (ascending_nth ths H i j); auto. lia.
Qed.

(** Two bands of an ascending list share no depth. *)
Lemma bands_disjoint (ths : list pynum) (d : num) (i j : nat) :
  ascending ths = true -> i < j ->
  in_band ths i d = true -> in_band ths j d = true -> False.
Proof.
  intros H Hij Hi Hj.
  apply in_band_true in Hi. destruct Hi as (_ & ti & _ & Hti & _ & Hle).
  apply in_band_true in Hj. destruct Hj as (lo & _ & Hlo & _ & Hgt & _).
  destruct j as [|j]; [lia|]. rewrite band_lower_S in Hlo.
  destruct (nth_error ths j) as [tp|] eqn:Hp; [|discriminate].
  simpl in Hlo. inversion Hlo; subst lo.
  pose proof (ltb_leb_trans _ _ _ Hgt Hle) as Hc.
  pose proof (ascending_le ths H i j ti tp _ ltac:(lia) Hti Hp Hc) as Hc'.
  rewrite ltb_irrefl in Hc'. discriminate.
Qed.

Lemma band_above_disjoint (ths : list pynum) (d : num) (i : nat) :
  ascending ths = true ->
  in_band ths i d = true -> above_last ths d = true -> False.
Proof.
  intros H Hi Ha.
  apply in_band_true in Hi. destruct Hi as (_ & ti & _ & Hti & _ & Hle).
  assert (Hne : ths <> []) by (destruct ths; [destruct i|]; discriminate).
  destruct (above_last_nth ths d Hne) as (tl & Htl & Heq).
  rewrite Heq in Ha. unfold gtb in Ha.
  pose proof (ltb_leb_trans _ _ _ Ha Hle) as Hc.
  assert (Hlt : i < length ths) by (apply nth_error_Some; congruence).
  pose proof (ascending_le ths H i (length ths - 1) ti tl _ ltac:(lia)
                Hti Htl Hc) as Hc'.
  rewrite ltb_irrefl in Hc'. discriminate.
Qed.

Lemma positive_nth (ths : list pynum) (i : nat) (t : pynum) :
  positive ths = true -> nth_error ths i = Some t ->
  ltb (num_of_nat 0) (py_value t) = true.
Proof.
  unfold positive. rewrite forallb_forall. intros H Hi.
  apply H. eapply nth_error_In; eauto.
Qed.

(** Above zero thresholds: every band, and the last category, lie above 0. *)
Lemma in_band_positive (ths : list pynum) (i : nat) (d : num) :
  positive ths = true -> in_band ths i d = true ->
  ltb (num_of_nat 0) d = true.
Proof.
  intros Hp Hi. apply in_band_true in Hi.
  destruct Hi as (lo & t & Hlo & _ & Hgt & _).
  destruct i as [|i].
  - unfold band_lower in Hlo. simpl in Hlo. inversion Hlo; subst. exact Hgt.
  - rewrite band_lower_S in Hlo.
    destruct (nth_error ths i) as [tp|] eqn:E; [|discriminate].
    simpl in Hlo. inversion Hlo; subst.
    apply (ltb_trans _ (py_value tp)); [|exact Hgt].
    exact (positive_nth _ _ _ Hp E).
Qed.

Lemma above_last_positive (ths : list pynum) (d : num) :
  positive ths = true -> above_last ths d = true ->
  ltb (num_of_nat 0) d = true.
Proof.
  intros Hp Ha.
  assert (Hne : ths <> []) by (destruct ths; discriminate).
  destruct (above_last_nth ths d Hne) as (tl & Htl & Heq).
  rewrite Heq in Ha. unfold gtb in Ha.
  apply (ltb_trans _ (py_value tl)); [|exact Ha].
  exact (positive_nth _ _ _ Hp Htl).
Qed.

Lemma zero_not_positive (d : num) :
  eqb d (num_of_nat 0) = true -> ltb (num_of_nat 0) d = true -> False.
Proof.
  intros He Hl. pose proof (ltb_eqb_trans _ _ _ Hl He) as Hc.
  rewrite ltb_irrefl in Hc. discriminate.
Qed.

(** A depth equal to threshold [i] is in band [i]. *)
Lemma boundary_in_band (ths : list pynum) (i : nat) (t : pynum) (d : num) :
  ascending ths = true -> positive ths = true ->
  nth_error ths i = Some t -> eqb d (py_value t) = true ->
  in_band ths i d = true.
Proof.
  intros Ha Hp Hi He. unfold in_band. rewrite Hi.
  assert (Hle : leb d (py_value t) = true).
  { unfold leb. rewrite He. apply orb_true_r. }
  rewrite eqb_sym in He.
  destruct i as [|i].
  - change (band_lower ths 0) with (Some (num_of_nat 0)). cbv beta iota.
    unfold gtb. rewrite Hle.
    rewrite (ltb_eqb_trans _ _ _ (positive_nth _ _ _ Hp Hi) He). reflexivity.
  - rewrite band_lower_S.
    destruct (nth_error ths i) as [tp|] eqn:E.
    + cbn [option_map]. unfold gtb. rewrite Hle.
      rewrite (ltb_eqb_trans _ _ _
                 (ascending_nth ths Ha i (S i) tp t ltac:(lia) E Hi) He).
      reflexivity.
    + apply nth_error_None in E.
      assert (S i < length ths) by (apply nth_error_Some; congruence). lia.
Qed.

(** The category of a cell under ascending thresholds above zero. *)
Lemma cell_category_sorted (ths : list pynum) (d : num) :
  ths <> [] -> ascending ths = true -> positive ths = true ->
  exists k,
    cell_category ths d = num_of_nat k
    /\ k <= length ths + 1
    /\ (eqb d (num_of_nat 0) = true -> k = 0)
    /\ (forall i, i < length ths -> (k = i + 1 <-> in_band ths i d = true))
    /\ (k = length ths + 1 <-> above_last ths d = true)
    /\ (forall i t, nth_error ths i = Some t ->
                    eqb d (py_value t) = true -> k = i + 1).
Proof.
  intros Hne Ha Hp.
  assert (Hiff : forall k,
    cell_category ths d = num_of_nat k ->
    ((above_last ths d = true /\ k = length ths + 1)
     \/ (above_last ths d = false
         /\ exists i, i < length ths /\ in_band ths i d = true
                      /\ (forall j, i < j -> in_band ths j d = false)
                      /\ k = i + 1)
     \/ (above_last ths d = false /\ (forall j, in_band ths j d = false)
         /\ k = 0))).
  { intros k Hk.
    destruct (cell_category_cases ths d Hne)
      as [[Hab H] | [[Hab (i & Hi & Hb & Hno & H)] | [Hab [Hno H]]]];
      rewrite Hk in H; apply num_of_nat_inj in H.
    - left. auto.
    - right. left. split; [exact Hab|]. exists i. auto.
    - right. right. auto. }
  destruct (cell_category_range ths d Hne) as (k & Hk & Hcat).
  exists k. split; [exact Hcat|]. split; [exact Hk|].
  specialize (Hiff k Hcat).
  assert (Hband : forall i, i < length ths ->
                            (k = i + 1 <-> in_band ths i d = true)).
  { intros i Hi. split.
    - intros ->.
      destruct Hiff as [[_ H] | [[_ (i' & _ & Hb & _ & H)] | [_ [_ H]]]];
        try lia.
      now replace i with i' by lia.
    - intros Hb.
      destruct Hiff as [[Hab _] | [[_ (i' & _ & Hb' & Hno & H)] | [_ [Hno _]]]].
      + exfalso. exact (band_above_disjoint ths d i Ha Hb Hab).
      + destruct (Nat.lt_trichotomy i i') as [Hlt | [-> | Hgt]].
        * exfalso. exact (bands_disjoint ths d i i' Ha Hlt Hb Hb').
        * exact H.
        * rewrite (Hno i Hgt) in Hb. discriminate.
      + rewrite Hno in Hb. discriminate. }
  split; [|split; [exact Hband | split]].
  - intros Hz.
    destruct Hiff as [[Hab _] | [[_ (i' & _ & Hb' & _ & _)] | [_ [_ H]]]].
    + exfalso. exact (zero_not_positive d Hz (above_last_positive _ _ Hp Hab)).
    + exfalso. exact (zero_not_positive d Hz (in_band_positive _ _ _ Hp Hb')).
    + exact H.
  - split.
    + intros ->.
      destruct Hiff as [[Hab _] | [[_ (i' & Hi' & _ & _ & H)] | [_ [_ H]]]];
        [exact Hab | lia | lia].
    + intros Hab.
      destruct Hiff as [[_ H] | [[Hab' _] | [Hab' _]]];
        [exact H | congruence | congruence].
  - intros i t Hi He. apply Hband.
    + apply nth_error_Some. congruence.
    + exact (boundary_in_band ths i t d Ha Hp Hi He).
Qed.

(** ** Cells that no band takes *)

Lemma in_band_nan (ths : list pynum) (i : nat) : in_band ths i NaN = false.
Proof.
  unfold in_band. destruct (band_lower ths i) as [lo|]; [|reflexivity].
  destruct (nth_error ths i); [|reflexivity].
  unfold gtb. now destruct lo.
Qed.

Lemma above_last_nan (ths : list pynum) : above_last ths NaN = false.
Proof.
  unfold above_last. destruct ths as [|t l]; [reflexivity|].
  unfold gtb. now destruct (py_value (last l t)).
Qed.

Lemma none_below_nth (ths : list pynum) (d : num) (i : nat) (t : pynum) :
  none_below ths d = true -> nth_error ths i = Some t ->
  ltb (py_value t) d = false.
Proof.
  unfold none_below. rewrite forallb_forall. intros H Hi.
  apply negb_true_iff. apply H. eapply nth_error_In; eauto.
Qed.

Lemma in_band_negative (ths : list pynum) (i : nat) (d : num) :
  ltb d (num_of_nat 0) = true -> none_below ths d = true ->
  in_band ths i d = false.
Proof.
  intros Hneg Hnb. destruct (in_band ths i d) eqn:E; [|reflexivity].
  apply in_band_true in E. destruct E as (lo & t & Hlo & _ & Hgt & _).
  destruct i as [|i].
  - unfold band_lower in Hlo. simpl in Hlo. inversion Hlo; subst.
    pose proof (ltb_trans _ _ _ Hgt Hneg) as Hc.
    rewrite ltb_irrefl in Hc. discriminate.
  - rewrite band_lower_S in Hlo.
    destruct (nth_error ths i) as [tp|] eqn:Ep; [|discriminate].
    simpl in Hlo. inversion Hlo; subst.
    rewrite (none_below_nth _ _ _ _ Hnb Ep) in Hgt. discriminate.
Qed.

Lemma above_last_negative (ths : list pynum) (d : num) :
  none_below ths d = true -> above_last ths d = false.
Proof.
  intros Hnb. destruct ths as [|t l] eqn:E; [reflexivity|]. rewrite <- E.
  assert (Hne : ths <> []) by (subst; discriminate).
  destruct (above_last_nth ths d Hne) as (tl & Htl & Heq).
  rewrite Heq. unfold gtb. rewrite <- E in Hnb.
  exact (none_below_nth _ _ _ _ Hnb Htl).
Qed.

Lemma cell_category_unmatched (ths : list pynum) (d : num) :
  ths <> [] -> (forall i, in_band ths i d = false) ->
  above_last ths d = false -> cell_category ths d = num_of_nat 0.
Proof.
  intros Hne Hno Hab.
  destruct (cell_category_cases ths d Hne)
    as [[Hab' _] | [[_ (i & _ & Hb & _)] | [_ [_ H]]]].
  - congruence.
  - rewrite Hno in Hb. discriminate.
  - exact H.
Qed.

Lemma cell_category_nonzero (ths : list pynum) (d : num) :
  ths <> [] -> cell_category ths d <> num_of_nat 0 ->
  (exists i, i < length ths /\ in_band ths i d = true)
  \/ above_last ths d = true.
Proof.
  intros Hne Hnz.
  destruct (cell_category_cases ths d Hne)
    as [[Hab _] | [[_ (i & Hi & Hb & _)] | [_ [_ H]]]].
  - now right.
  - left. eauto.
  - contradiction.
Qed.

(** ** The claims on the classifier *)

(** C4 (amended: a negative depth stays at 0 when no threshold is below it).
    For every non-empty threshold list the classifier returns a grid in which
    a NaN cell fails every band test and holds category 0, a negative cell
    holds category 0 whenever no threshold is below its depth (so whenever no
    threshold is negative), and a cell holds a category other than 0 only if
    its depth is in one of the bands or above the last threshold. *)
Theorem classify_unmatched_cells (depth_array : grid num)
  (thresholds : list pynum) :
  thresholds <> [] ->
  exists classified,
    classify_flood_depth depth_array (Some thresholds) = inr classified
    /\ Forall2 (Forall2 (fun d v =>
         (d = NaN ->
          v = num_of_nat 0
          /\ (forall i, in_band thresholds i d = false)
          /\ above_last thresholds d = false)
         /\ (ltb d (num_of_nat 0) = true ->
             none_below thresholds d = true -> v = num_of_nat 0)
         /\ (v <> num_of_nat 0 ->
             (exists i, i < length thresholds
                        /\ in_band thresholds i d = true)
             \/ above_last thresholds d = true)))
         depth_array classified.
Proof.
  intros Hne. rewrite classify_cells.
  destruct thresholds as [|t l] eqn:E; [congruence|]. rewrite <- E in *.
  eexists. split; [reflexivity|].
  apply Forall2_grid_map. intros d. split; [|split].
  - intros ->. split; [|split].
    + apply cell_category_unmatched; auto using in_band_nan, above_last_nan.
    + intros i. apply in_band_nan.
    + apply above_last_nan.
  - intros Hneg Hnb. apply cell_category_unmatched; auto.
    + intros i. now apply in_band_negative.
    + now apply above_last_negative.
  - now apply cell_category_nonzero.
Qed.

Lemma classify_unmatched_cells_witness :
  exists classified,
    classify_flood_depth [[NaN; Fin (-2); Fin (1 # 4)]]
      (Some [PyFloat (Fin (1 # 2)); PyInt 1]) = inr classified
    /\ Forall2 (Forall2 (fun d v =>
         (d = NaN ->
          v = num_of_nat 0
          /\ (forall i,
                in_band [PyFloat (Fin (1 # 2)); PyInt 1] i d = false)
          /\ above_last [PyFloat (Fin (1 # 2)); PyInt 1] d = false)
         /\ (ltb d (num_of_nat 0) = true ->
             none_below [PyFloat (Fin (1 # 2)); PyInt 1] d = true ->
             v = num_of_nat 0)
         /\ (v <> num_of_nat 0 ->
             (exists i, i < length [PyFloat (Fin (1 # 2)); PyInt 1]
                        /\ in_band [PyFloat (Fin (1 # 2)); PyInt 1] i d = true)
             \/ above_last [PyFloat (Fin (1 # 2)); PyInt 1] d = true)))
         [[NaN; Fin (-2); Fin (1 # 4)]] classified.
Proof.
  apply (classify_unmatched_cells [[NaN; Fin (-2); Fin (1 # 4)]]
           [PyFloat (Fin (1 # 2)); PyInt 1]).
  discriminate.
Defined.

(** C4 as stated fails for a negative depth above a negative threshold: with
    the one threshold -1, a cell of depth -1/2 is above the last threshold
    and gets category 2. *)
Lemma classify_negative_depth_negative_threshold :
  ltb (Fin (-1 # 2)) (num_of_nat 0) = true
  /\ classify_flood_depth [[Fin (-1 # 2)]] (Some [PyInt (-1)])
     = inr [[num_of_nat 2]]
  /\ num_of_nat 2 <> num_of_nat 0.
Proof.
  split; [reflexivity|]. split; [reflexivity|].
  intros H. apply num_of_nat_inj in H. discriminate.
Qed.

(** C10.  With an empty threshold list the classifier raises IndexError at
    [thresholds[-1]]: the loop has no turn, no grid is returned, and the
    exception is not a ConfigurationError. *)
Theorem classify_empty_thresholds (depth_array : grid num) :
  Py.for_each (Py.enumerate (@nil pynum))
    (classify_band depth_array []) (zeros_like depth_array)
  = inr (zeros_like depth_array)
  /\ classify_flood_depth depth_array (Some [])
     = inl (Py.IndexError "list index out of range")
  /\ Py.exn_class (Py.IndexError "list index out of range")
     <> "ConfigurationError"%string.
Proof.
  split; [reflexivity|]. split; [apply (classify_cells depth_array [])|].
  discriminate.
Qed.

(** ** The run and its log *)

Section Run.

Context `{FloatRepr}.

Lemma village_record_run (src : dataset) (ths : list pynum) (pa : Q)
  (sfx : string) (idx : nat) (v : village) (log : list IO.event) :
  village_record src ths pa sfx idx v log
  = (record_of src ths pa sfx (idx, v),
     log ++ [IO.Mask [village_geometry v]]).
Proof.
  unfold village_record, record_of, IO.bind, IO.mask, IO.call, IO.lift.
  cbn [fst snd].
  destruct (ds_mask src [village_geometry v]) as [e|masked]; [reflexivity|].
  cbn [Py.bind].
  destruct (Py.getitem masked 0) as [e|band0]; [reflexivity|].
  cbn [Py.bind].
  destruct (classify_flood_depth band0 (Some ths)) as [e|c]; reflexivity.
Qed.

Lemma villages_loop_run (src : dataset) (ths : list pynum) (pa : Q)
  (sfx : string) :
  forall (l : list (nat * village)) (acc : list dict) (log : list IO.event),
    IO.for_each l
      (fun '(idx, v) results =>
         village_result <~ village_record src ths pa sfx idx v ;;
         IO.ret (results ++ [village_result]))
      acc log
    = (collect_records src ths pa sfx l acc,
       log ++ mask_events src ths pa sfx l).
Proof.
  unfold collect_records.
  induction l as [|[idx v] l IH]; intros acc log;
    cbn [IO.for_each Py.for_each mask_events].
  - unfold IO.ret, Py.ret. now rewrite app_nil_r.
  - unfold IO.bind at 1. unfold IO.bind at 1.
    rewrite village_record_run. cbn [snd].
    destruct (record_of src ths pa sfx (idx, v)) as [e|row]; cbn [Py.bind].
    + reflexivity.
    + unfold IO.ret at 1. rewrite IH. unfold Py.ret.
      now rewrite <- app_assoc.
Qed.

(** A run returns [run_result] and appends [run_events] to the log. *)
Lemma calculate_run (w : world) (rp sp : string)
  (thresholds : option (list pynum)) (unit : string) (log : list IO.event) :
  calculate_flood_area_by_village w rp sp thresholds unit log
  = (run_result w rp sp thresholds unit,
     log ++ run_events w rp sp thresholds unit).
Proof.
  unfold calculate_flood_area_by_village, run_result, run_events.
  unfold IO.bind at 1. unfold IO.read_file, IO.call.
  destruct (gpd_read_file w sp) as [e|villages]; [reflexivity|].
  cbn [Py.bind]. unfold IO.bind at 1. unfold IO.with_open.
  destruct (rasterio_open w rp) as [e|src].
  { cbn [Py.bind]. now rewrite <- app_assoc. }
  cbn [Py.bind]. unfold IO.bind at 1. unfold IO.read, IO.call.
  destruct (ds_read src 1) as [e|data].
  { cbn [Py.bind]. now rewrite <- !app_assoc. }
  cbn [Py.bind]. unfold IO.bind at 1. unfold IO.lift.
  destruct (unit_conversion unit
              (Qabs (Ieee.mul (transform_a src) (transform_e src))))
    as [e|[pa sfx]].
  { cbn [Py.bind]. now rewrite <- !app_assoc. }
  cbn [Py.bind fst snd].
  fold (effective_thresholds thresholds).
  rewrite villages_loop_run.
  destruct (collect_records src (effective_thresholds thresholds) pa sfx
              (Py.enumerate villages) []) as [e|rows];
    cbn [Py.bind]; unfold IO.ret, Py.ret; now rewrite <- !app_assoc.
Qed.

End Run.

(** ** Building a record *)

Lemma combine_app_same {A B} (l1 l2 : list A) (m1 m2 : list B) :
  length l1 = length m1 ->
  combine (l1 ++ l2) (m1 ++ m2) = combine l1 m1 ++ combine l2 m2.
Proof.
  revert m1. induction l1 as [|a l1 IH]; intros [|b m1] Hl;
    simpl in *; try discriminate; [reflexivity|].
  f_equal. apply IH. lia.
Qed.

Lemma length_enumerate_from {A} (l : list A) (k : nat) :
  length (Py.enumerate_from k l) = length l.
Proof.
  revert k. induction l as [|x l IH]; intros k; simpl; [reflexivity|].
  now rewrite IH.
Qed.

Section Records.

Context `{FloatRepr}.

Variables (ths : list pynum) (c : grid num) (pa : Q) (sfx : string).

Let setkv : dict -> string * pyval -> dict :=
  fun d kv => dict_set d (fst kv) (snd kv).

Let band_value (k : nat) : pyval :=
  VNum (scaled (Np.sum (eq_scalar c (num_of_nat k))) pa).

Lemma band_field_eq (i : nat) (t : pynum) (d : dict) :
  nth_error ths i = Some t ->
  band_field ths c pa sfx (i, t) d
  = inr (dict_set d (band_column ths sfx (i, t)) (band_value (i + 1))).
Proof.
  intros Hi. unfold band_field, band_column, band_value, area.
  destruct (Nat.eqb i 0) eqn:E; [reflexivity|].
  apply Nat.eqb_neq in E. unfold Py.getitem.
  assert (Hlt : i - 1 < length ths).
  { assert (i < length ths) by (apply nth_error_Some; congruence). lia. }
  rewrite (nth_error_nth' ths t Hlt). reflexivity.
Qed.

Lemma band_loop_eq :
  forall (suf : list pynum) (k : nat) (d : dict),
    (forall j, nth_error suf j = nth_error ths (k + j)) ->
    Py.for_each (Py.enumerate_from k suf) (band_field ths c pa sfx) d
    = inr (fold_left setkv
             (combine (map (band_column ths sfx) (Py.enumerate_from k suf))
                      (map band_value (seq (k + 1) (length suf))))
             d).
Proof.
  induction suf as [|t suf IH]; intros k d Hal; [reflexivity|].
  cbn [Py.enumerate_from Py.for_each length seq map combine fold_left].
  rewrite band_field_eq.
  2:{ specialize (Hal 0). rewrite Nat.add_0_r in Hal. now rewrite <- Hal. }
  cbn [Py.bind]. rewrite IH.
  - reflexivity.
  - intros j. specialize (Hal (S j)). cbn [nth_error] in Hal.
    now replace (S k + j) with (k + S j) by lia.
Qed.

Lemma length_band_columns :
  ths <> [] -> length (band_columns ths sfx) = length ths + 1.
Proof.
  intros Hne. unfold band_columns, last_column, Py.enumerate.
  rewrite length_app, length_map, length_enumerate_from.
  destruct ths; [congruence | reflexivity].
Qed.

Lemma length_band_counts : length (band_counts ths c) = length ths + 1.
Proof. unfold band_counts. now rewrite length_map, length_seq. Qed.

Lemma village_fields_split (idx : nat) (v : village) :
  ths <> [] ->
  village_fields ths c pa sfx idx v
  = [("village_id", village_get v "ADM3_EN" (VInt (Z.of_nat idx)));
     ("village_name",
       village_get v "ADM3_TH"
         (VStr ("Village_" ++ Py.str_of_int (Z.of_nat idx))%string));
     (("total_area" ++ sfx)%string,
       VNum (scaled (Np.sum (ge_scalar c (num_of_nat 0))) pa));
     (("no_flood_area" ++ sfx)%string, band_value 0)]
    ++ combine (map (band_column ths sfx) (Py.enumerate ths))
         (map band_value (seq 1 (length ths)))
    ++ combine (last_column ths sfx) [band_value (length ths + 1)]
    ++ [(("total_flooded_area" ++ sfx)%string,
          VNum (scaled (Np.sum (gt_scalar c (num_of_nat 0))) pa))].
Proof.
  intros Hne. unfold village_fields, area_columns, area_counts.
  cbn [map combine app]. do 4 f_equal.
  rewrite map_app, combine_app_same
    by (now rewrite length_map, length_band_columns, length_band_counts).
  rewrite app_assoc. f_equal.
  unfold band_columns, band_counts.
  rewrite Nat.add_1_r at 1. rewrite seq_S, !map_app.
  rewrite !map_map.
  rewrite combine_app_same.
  2:{ unfold Py.enumerate.
      now rewrite !length_map, length_enumerate_from, length_seq. }
  cbn [map].
  replace (1 + length ths) with (length ths + 1) by lia. reflexivity.
Qed.

(** The record is the dict of the assignments of [village_fields]. *)
Lemma village_result_eq (idx : nat) (v : village) :
  ths <> [] ->
  village_result ths c pa sfx idx v
  = inr (dict_of_fields (village_fields ths c pa sfx idx v)).
Proof.
  intros Hne. rewrite village_fields_split by exact Hne.
  unfold village_result, dict_of_fields. unfold Py.enumerate.
  rewrite band_loop_eq by reflexivity. cbn [Py.bind].
  destruct ths as [|t l] eqn:E; [congruence|]. rewrite <- E.
  assert (Hlast : Py.getitem_last ths = inr (last l t)) by now rewrite E.
  rewrite Hlast. cbn [Py.bind]. unfold Py.ret. f_equal.
  rewrite !fold_left_app.
  assert (Hcol : last_column ths sfx
                 = [(">" ++ py_str (last l t) ++ " m" ++ sfx)%string])
    by now rewrite E.
  rewrite Hcol. reflexivity.
Qed.

End Records.

(** ** Dicts *)

Lemma existsb_eqb_In (k : string) (ks : list string) :
  existsb (String.eqb k) ks = true <-> In k ks.
Proof.
  rewrite existsb_exists. split.
  - intros (x & Hx & E). apply String.eqb_eq in E. now subst.
  - intros Hk. exists k. split; [exact Hk | apply String.eqb_refl].
Qed.

Lemma dict_set_fresh (d : dict) (k : string) (v : pyval) :
  ~ In k (dict_keys d) -> dict_set d k v = d ++ [(k, v)].
Proof.
  induction d as [|[k' v'] d IH]; intros Hk; simpl; [reflexivity|].
  destruct (String.eqb k' k) eqn:E.
  - apply String.eqb_eq in E. subst. exfalso. apply Hk. now left.
  - rewrite IH; [reflexivity|]. intros Hin. apply Hk. now right.
Qed.

Lemma dict_keys_set (d : dict) (k : string) (v : pyval) :
  dict_keys (dict_set d k v)
  = if existsb (String.eqb k) (dict_keys d) then dict_keys d
    else dict_keys d ++ [k].
Proof.
  induction d as [|[k' v'] d IH]; simpl; [reflexivity|].
  rewrite (String.eqb_sym k k').
  destruct (String.eqb k' k) eqn:E; simpl; [reflexivity|].
  rewrite IH. now destruct (existsb (String.eqb k) (dict_keys d)).
Qed.

Lemma dict_set_In (d : dict) (k : string) (v : pyval) (kv : string * pyval) :
  In kv (dict_set d k v) -> In kv d \/ kv = (k, v).
Proof.
  induction d as [|[k' v'] d IH]; simpl.
  - intros [E | []]. now right.
  - destruct (String.eqb k' k) eqn:Ek; simpl.
    + apply String.eqb_eq in Ek. subst. intros [E | Hin]; auto.
    + intros [E | Hin]; auto. destruct (IH Hin); auto.
Qed.

Lemma fold_set_keys (fs : list (string * pyval)) :
  forall d : dict,
    dict_keys (fold_left (fun d kv => dict_set d (fst kv) (snd kv)) fs d)
    = fold_left
        (fun ks k => if existsb (String.eqb k) ks then ks else ks ++ [k])
        (map fst fs) (dict_keys d).
Proof.
  induction fs as [|[k v] fs IH]; intros d; simpl; [reflexivity|].
  now rewrite IH, dict_keys_set.
Qed.

(** The keys of a record depend on the names assigned only. *)
Lemma dict_keys_of_fields (fs : list (string * pyval)) :
  dict_keys (dict_of_fields fs) = assigned_keys (map fst fs).
Proof. apply (fold_set_keys fs []). Qed.

Lemma fold_set_nodup (fs : list (string * pyval)) :
  forall d : dict,
    NoDup (dict_keys d ++ map fst fs) ->
    fold_left (fun d kv => dict_set d (fst kv) (snd kv)) fs d = d ++ fs.
Proof.
  induction fs as [|[k v] fs IH]; intros d Hnd; simpl.
  - now rewrite app_nil_r.
  - simpl in Hnd. rewrite dict_set_fresh.
    + rewrite IH.
      * now rewrite <- app_assoc.
      * unfold dict_keys in *. rewrite map_app. simpl.
        now rewrite <- app_assoc.
    + apply NoDup_remove_2 in Hnd. intros Hin. apply Hnd.
      apply in_or_app. now left.
Qed.

(** Distinct names: the record holds the assignments as they were made. *)
Lemma dict_of_fields_nodup (fs : list (string * pyval)) :
  NoDup (map fst fs) -> dict_of_fields fs = fs.
Proof. intros Hnd. apply (fold_set_nodup fs []). exact Hnd. Qed.

Lemma fold_set_In (fs : list (string * pyval)) (kv : string * pyval) :
  forall d : dict,
    In kv (fold_left (fun d kv => dict_set d (fst kv) (snd kv)) fs d) ->
    In kv d \/ In kv fs.
Proof.
  induction fs as [|[k v] fs IH]; intros d Hin; simpl in *; [now left|].
  destruct (IH _ Hin) as [Hd | Hf]; [|now right; right].
  destruct (dict_set_In _ _ _ _ Hd) as [Hd' | E]; [now left|].
  right. left. now symmetry.
Qed.

(** A record holds nothing but values that were assigned to it. *)
Lemma dict_of_fields_In (fs : list (string * pyval)) (kv : string * pyval) :
  In kv (dict_of_fields fs) -> In kv fs.
Proof.
  intros Hin. destruct (fold_set_In fs kv [] Hin) as [[] | Hf]. exact Hf.
Qed.

Lemma assigned_keys_nodup (names : list string) :
  NoDup names -> assigned_keys names = names.
Proof.
  intros Hnd.
  pose proof (dict_of_fields_nodup (map (fun k => (k, VInt 0)) names)) as Hd.
  rewrite map_map, map_id in Hd. specialize (Hd Hnd).
  apply (f_equal dict_keys) in Hd. rewrite dict_keys_of_fields in Hd.
  unfold dict_keys in Hd. now rewrite !map_map, map_id in Hd.
Qed.

(** ** Successful runs *)

Section Inversion.

Context `{FloatRepr}.

Lemma getitem_0_inr {A} (l : list A) (x : A) :
  Py.getitem l 0 = inr x <-> exists rest, l = x :: rest.
Proof.
  unfold Py.getitem. destruct l as [|y l]; simpl; split.
  - discriminate.
  - intros [rest Hr]. discriminate.
  - intros E. inversion E. eauto.
  - intros [rest Hr]. inversion Hr. reflexivity.
Qed.

Lemma classify_inr_nonempty (g : grid num) (ths : list pynum)
  (classified : grid num) :
  classify_flood_depth g (Some ths) = inr classified -> ths <> [].
Proof.
  rewrite classify_cells. destruct ths; [discriminate | discriminate].
Qed.

(** When one turn of the loop over the villages returns a record. *)
Lemma record_of_inr (src : dataset) (ths : list pynum) (pa : Q)
  (sfx : string) (idx : nat) (v : village) (row : dict) :
  record_of src ths pa sfx (idx, v) = inr row
  <-> exists band0 rest classified,
        ds_mask src [village_geometry v] = inr (band0 :: rest)
        /\ classify_flood_depth band0 (Some ths) = inr classified
        /\ row = dict_of_fields (village_fields ths classified pa sfx idx v).
Proof.
  unfold record_of. cbn [fst snd]. split.
  - destruct (ds_mask src [village_geometry v]) as [e|masked];
      [discriminate|]. cbn [Py.bind].
    destruct (Py.getitem masked 0) as [e|band0] eqn:Eg; [discriminate|].
    apply getitem_0_inr in Eg. destruct Eg as [rest ->]. cbn [Py.bind].
    destruct (classify_flood_depth band0 (Some ths)) as [e|classified] eqn:Ec;
      [discriminate|]. cbn [Py.bind].
    rewrite village_result_eq by exact (classify_inr_nonempty _ _ _ Ec).
    intros E. inversion E. exists band0, rest, classified. auto.
  - intros (band0 & rest & classified & Hm & Hc & ->).
    rewrite Hm. cbn [Py.bind]. unfold Py.getitem, Py.ret.
    cbn [nth_error Py.bind]. rewrite Hc. cbn [Py.bind].
    apply village_result_eq. exact (classify_inr_nonempty _ _ _ Hc).
Qed.

Lemma collect_records_cons (src : dataset) (ths : list pynum) (pa : Q)
  (sfx : string) (it : nat * village) (l : list (nat * village))
  (acc : list dict) :
  collect_records src ths pa sfx (it :: l) acc
  = match record_of src ths pa sfx it with
    | inl e => inl e
    | inr row => collect_records src ths pa sfx l (acc ++ [row])
    end.
Proof.
  unfold collect_records. cbn [Py.for_each].
  now destruct (record_of src ths pa sfx it).
Qed.

Lemma collect_records_inr (src : dataset) (ths : list pynum) (pa : Q)
  (sfx : string) :
  forall (l : list (nat * village)) (acc rows : list dict),
    collect_records src ths pa sfx l acc = inr rows
    <-> exists new,
          rows = acc ++ new
          /\ Forall2 (fun it row => record_of src ths pa sfx it = inr row)
               l new.
Proof.
  induction l as [|it l IH]; intros acc rows.
  - unfold collect_records. cbn [Py.for_each]. split.
    + intros E. inversion E. exists []. split; [now rewrite app_nil_r|].
      constructor.
    + intros (new & -> & Hf). inversion Hf. now rewrite app_nil_r.
  - rewrite collect_records_cons.
    destruct (record_of src ths pa sfx it) as [e|row] eqn:Er.
    + split; [discriminate|]. intros (new & _ & Hf). inversion Hf; subst.
      congruence.
    + rewrite IH. split.
      * intros (new & -> & Hf). exists (row :: new).
        split; [now rewrite <- app_assoc|]. constructor; assumption.
      * intros (new & -> & Hf). inversion Hf as [|? row' ? new' Hr Hf']; subst.
        exists new'. split; [|exact Hf'].
        rewrite <- app_assoc. simpl. congruence.
Qed.

(** When a run returns a table: every call succeeded, and row [i] is the
    record of village [i]. *)
Lemma run_result_inr (w : world) (rp sp : string)
  (thresholds : option (list pynum)) (unit : string) (df : DataFrame) :
  run_result w rp sp thresholds unit = inr df
  <-> exists villages src data pa sfx,
        gpd_read_file w sp = inr villages
        /\ rasterio_open w rp = inr src
        /\ ds_read src 1 = inr data
        /\ unit_conversion unit
             (Qabs (Ieee.mul (transform_a src) (transform_e src)))
           = inr (pa, sfx)
        /\ Forall2
             (fun it row =>
                record_of src (effective_thresholds thresholds) pa sfx it
                = inr row)
             (Py.enumerate villages) (records df).
Proof.
  unfold run_result. split.
  - destruct (gpd_read_file w sp) as [e|villages] eqn:Ev; [discriminate|].
    cbn [Py.bind].
    destruct (rasterio_open w rp) as [e|src] eqn:Es; [discriminate|].
    cbn [Py.bind].
    destruct (ds_read src 1) as [e|data] eqn:Ed; [discriminate|].
    cbn [Py.bind].
    destruct (unit_conversion unit _) as [e|[pa sfx]] eqn:Eu; [discriminate|].
    cbn [Py.bind fst snd].
    destruct (collect_records _ _ _ _ _ _) as [e|rows] eqn:Ec;
      [discriminate|]. cbn [Py.bind]. intros E. inversion E; subst df.
    apply collect_records_inr in Ec. destruct Ec as (new & -> & Hf).
    exists villages, src, data, pa, sfx. repeat split; auto.
  - intros (villages & src & data & pa & sfx & Hv & Hs & Hd & Hu & Hf).
    rewrite Hv. cbn [Py.bind]. rewrite Hs. cbn [Py.bind]. rewrite Hd.
    cbn [Py.bind]. rewrite Hu. cbn [Py.bind fst snd].
    assert (Hc : collect_records src (effective_thresholds thresholds) pa sfx
                   (Py.enumerate villages) [] = inr (records df)).
    { apply collect_records_inr. exists (records df). auto. }
    rewrite Hc. cbn [Py.bind]. now destruct df.
Qed.

End Inversion.

(** ** Counting the cells of a classified grid *)

Lemma count_map {A} (f : A -> bool) (l : list A) :
  length (filter (fun b : bool => b) (map f l)) = length (filter f l).
Proof.
  induction l as [|x l IH]; simpl; [reflexivity|].
  destruct (f x); simpl; now rewrite IH.
Qed.

(** [np.sum(a <cmp> v)] counts the cells that pass the test. *)
Lemma sum_grid_map (f : num -> bool) (c : grid num) :
  Np.sum (grid_map f c) = length (filter f (concat c)).
Proof. unfold Np.sum. now rewrite concat_grid_map, count_map. Qed.

Lemma list_sum_map_add {A} (f g : A -> nat) (l : list A) :
  list_sum (map (fun x => f x + g x) l)
  = list_sum (map f l) + list_sum (map g l).
Proof. induction l as [|x l IH]; simpl; [reflexivity | rewrite IH; lia]. Qed.

(** Boolean tests on [nat] in the hypotheses, as propositions. *)
Ltac nat_reflect :=
  repeat match goal with
    | H : Nat.eqb _ _ = true |- _ => apply Nat.eqb_eq in H
    | H : Nat.eqb _ _ = false |- _ => apply Nat.eqb_neq in H
    | H : Nat.leb _ _ = true |- _ => apply Nat.leb_le in H
    | H : Nat.leb _ _ = false |- _ => apply Nat.leb_gt in H
    | H : Nat.ltb _ _ = true |- _ => apply Nat.ltb_lt in H
    | H : Nat.ltb _ _ = false |- _ => apply Nat.ltb_ge in H
    end.

Lemma indicator_sum (k : nat) :
  forall len a,
    list_sum (map (fun j => if Nat.eqb k j then 1 else 0) (seq a len))
    = if Nat.leb a k && Nat.ltb k (a + len) then 1 else 0.
Proof.
  induction len as [|len IH]; intros a; simpl.
  - destruct (Nat.leb a k) eqn:E1, (Nat.ltb k (a + 0)) eqn:E2;
      try reflexivity.
    nat_reflect. lia.
  - rewrite IH.
    destruct (Nat.eqb k a) eqn:E, (Nat.leb (S a) k) eqn:E1,
      (Nat.ltb k (S a + len)) eqn:E2, (Nat.leb a k) eqn:E3,
      (Nat.ltb k (a + S len)) eqn:E4; simpl; try reflexivity;
      nat_reflect; lia.
Qed.

Section Counting.

(** [m] is the highest category, the cells hold categories 0 to [m]. *)
Variable m : nat.

Let in_range (v : num) : Prop := exists k, k <= m /\ v = num_of_nat k.

Let count (p : num -> bool) (l : list num) : nat := length (filter p l).

Let cat (k : nat) : num -> bool := fun x => eqb x (num_of_nat k).

Lemma count_cons (p : num -> bool) (v : num) (l : list num) :
  count p (v :: l) = (if p v then 1 else 0) + count p l.
Proof. unfold count. simpl. now destruct (p v). Qed.

Lemma count_bands_cons (v : num) (l : list num) :
  list_sum (map (fun j => count (cat j) (v :: l)) (seq 1 m))
  = list_sum (map (fun j => if cat j v then 1 else 0) (seq 1 m))
    + list_sum (map (fun j => count (cat j) l) (seq 1 m)).
Proof.
  rewrite <- list_sum_map_add. f_equal. apply map_ext.
  intros j. apply count_cons.
Qed.

Lemma bands_indicator (k : nat) :
  k <= m ->
  list_sum (map (fun j => if cat j (num_of_nat k) then 1 else 0) (seq 1 m))
  = if Nat.eqb k 0 then 0 else 1.
Proof.
  intros Hk.
  rewrite (map_ext _ (fun j => if Nat.eqb k j then 1 else 0))
    by (intros j; unfold cat; now rewrite eqb_nat).
  rewrite indicator_sum.
  destruct (Nat.eqb k 0) eqn:E, (Nat.leb 1 k) eqn:E1,
    (Nat.ltb k (1 + m)) eqn:E2; simpl; try reflexivity; nat_reflect; lia.
Qed.

(** Every cell is in category 0 or in one of the categories 1 to [m]. *)
Lemma count_partition (l : list num) :
  Forall in_range l ->
  count (cat 0) l + list_sum (map (fun j => count (cat j) l) (seq 1 m))
  = length l.
Proof.
  induction 1 as [|v l (k & Hk & ->) _ IH].
  - simpl. clear. induction (seq 1 m); simpl; auto.
  - rewrite count_cons, count_bands_cons, bands_indicator by exact Hk.
    unfold cat at 1. rewrite eqb_nat. simpl length.
    destruct (Nat.eqb k 0); lia.
Qed.

(** The cells above category 0 are those of the categories 1 to [m]. *)
Lemma count_flooded (l : list num) :
  Forall in_range l ->
  count (fun x => gtb x (num_of_nat 0)) l
  = list_sum (map (fun j => count (cat j) l) (seq 1 m)).
Proof.
  induction 1 as [|v l (k & Hk & ->) _ IH].
  - simpl. clear. induction (seq 1 m); simpl; auto.
  - rewrite count_cons, count_bands_cons, bands_indicator by exact Hk.
    unfold gtb at 1. rewrite ltb_nat, IH.
    destruct k; reflexivity.
Qed.

(** [classified >= 0] holds at every cell. *)
Lemma count_all (l : list num) :
  Forall in_range l -> count (fun x => geb x (num_of_nat 0)) l = length l.
Proof.
  induction 1 as [|v l (k & Hk & ->) _ IH]; [reflexivity|].
  rewrite count_cons, IH. unfold geb, leb. rewrite ltb_nat, eqb_nat.
  destruct k; reflexivity.
Qed.

End Counting.

Lemma classified_in_range (ths : list pynum) (g classified : grid num) :
  classify_flood_depth g (Some ths) = inr classified ->
  length (concat classified) = length (concat g)
  /\ Forall (fun v => exists k, k <= length ths + 1 /\ v = num_of_nat k)
       (concat classified).
Proof.
  intros Hc. pose proof (classify_inr_nonempty _ _ _ Hc) as Hne.
  rewrite classify_cells in Hc. destruct ths as [|t l] eqn:E; [congruence|].
  rewrite <- E in *. inversion Hc; subst classified.
  rewrite concat_grid_map. split; [apply length_map|].
  apply Forall_map, Forall_forall. intros d _.
  exact (cell_category_range ths d Hne).
Qed.

(** ** Counts *)

(** The counts of one classified grid: all cells, the categories 1 to n+1
    and the cells above category 0. *)
Lemma counts_conserved (ths : list pynum) (g classified : grid num) :
  classify_flood_depth g (Some ths) = inr classified ->
  Np.sum (ge_scalar classified (num_of_nat 0)) = length (concat g)
  /\ Np.sum (eq_scalar classified (num_of_nat 0))
     + list_sum (band_counts ths classified)
     = Np.sum (ge_scalar classified (num_of_nat 0))
  /\ Np.sum (gt_scalar classified (num_of_nat 0))
     = list_sum (band_counts ths classified).
Proof.
  intros Hc. destruct (classified_in_range _ _ _ Hc) as [Hlen Hr].
  unfold ge_scalar, eq_scalar, gt_scalar, band_counts.
  rewrite !sum_grid_map.
  rewrite (map_ext _ (fun j => length (filter (fun x => eqb x (num_of_nat j))
                                         (concat classified))))
    by (intros j; apply sum_grid_map).
  rewrite (count_all _ _ Hr), (count_flooded _ _ Hr), (count_partition _ _ Hr).
  auto.
Qed.

(** ** The claims on the aggregator *)

Section Aggregator.

Context `{FloatRepr}.


End Aggregator.



(** ** Units *)

Lemma unit_conversion_factor (unit : string) (f : Z) (p pa : Q)
  (sfx : string) :
  In (unit, f) unit_factors ->
  unit_conversion unit p = inr (pa, sfx) ->
  pa = unit_pixel_area unit f p.
Proof.
  unfold unit_factors. intros Hin Hu.
  repeat (destruct Hin as [Hin | Hin];
          [inversion Hin; subst; cbn in Hu; inversion Hu; reflexivity |]).
  destruct Hin.
Qed.

Lemma unit_conversion_valid (unit : string) (p pa : Q) (sfx : string) :
  unit_conversion unit p = inr (pa, sfx) ->
  exists f, In (unit, f) unit_factors.
Proof.
  unfold unit_conversion, unit_factors.
  destruct (String.eqb unit "m2") eqn:E1;
    [apply String.eqb_eq in E1; subst; eexists; simpl; eauto|].
  destruct (String.eqb unit "km2") eqn:E2;
    [apply String.eqb_eq in E2; subst; eexists; simpl; eauto|].
  destruct (String.eqb unit "hectare") eqn:E3;
    [apply String.eqb_eq in E3; subst; eexists; simpl; eauto|].
  destruct (String.eqb unit "rai") eqn:E4;
    [apply String.eqb_eq in E4; subst; eexists; simpl; eauto 6|].
  discriminate.
Qed.


Section Units.

Context `{FloatRepr}.


End Units.



(** ** Column names *)

Lemma nth_error_enumerate_from {A} (l : list A) (k i : nat) :
  nth_error (Py.enumerate_from k l) i
  = option_map (fun x => (k + i, x)) (nth_error l i).
Proof.
  revert k i. induction l as [|x l IH]; intros k [|i]; simpl;
    try reflexivity.
  - now rewrite Nat.add_0_r.
  - rewrite IH. now replace (S k + i) with (k + S i) by lia.
Qed.

Lemma map_fst_combine {A B} (l : list A) (m : list B) :
  length l = length m -> map fst (combine l m) = l.
Proof.
  revert m. induction l as [|a l IH]; intros [|b m] Hl; simpl in *;
    try discriminate; [reflexivity|].
  f_equal. apply IH. lia.
Qed.

Lemma Forall2_In_r {A B} (P : A -> B -> Prop) (l : list A) (m : list B)
  (y : B) :
  Forall2 P l m -> In y m -> exists x, In x l /\ P x y.
Proof.
  induction 1 as [|a b l m Hab _ IH]; intros Hin; [destruct Hin|].
  destruct Hin as [<- | Hin].
  - exists a. split; [now left | exact Hab].
  - destruct (IH Hin) as (x & Hx & Hp). exists x. split; [now right | exact Hp].
Qed.

Section Columns.

Context `{FloatRepr}.

Lemma length_area_columns (ths : list pynum) (sfx : string) :
  ths <> [] -> length (area_columns ths sfx) = length ths + 4.
Proof.
  intros Hne. unfold area_columns. simpl.
  rewrite length_app, (length_band_columns ths sfx Hne). simpl. lia.
Qed.

Lemma length_area_counts (ths : list pynum) (c : grid num) :
  length (area_counts ths c) = length ths + 4.
Proof.
  unfold area_counts. simpl. rewrite length_app, length_band_counts.
  simpl. lia.
Qed.

(** The names assigned to a record are the column names. *)
Lemma village_fields_names (ths : list pynum) (c : grid num) (pa : Q)
  (sfx : string) (idx : nat) (v : village) :
  ths <> [] ->
  map fst (village_fields ths c pa sfx idx v) = column_names ths sfx.
Proof.
  intros Hne. unfold village_fields, column_names. cbn [map fst].
  do 2 f_equal. apply map_fst_combine.
  now rewrite length_map, length_area_counts, length_area_columns.
Qed.

Lemma band_columns_first (ths : list pynum) (sfx : string) (t : pynum) :
  nth_error ths 0 = Some t ->
  nth_error (band_columns ths sfx) 0
  = Some ("0-" ++ py_str t ++ " m" ++ sfx)%string.
Proof.
  destruct ths as [|t0 l]; simpl; [discriminate|].
  intros E. inversion E. reflexivity.
Qed.

Lemma band_columns_next (ths : list pynum) (sfx : string) (i : nat)
  (p t : pynum) :
  nth_error ths i = Some p -> nth_error ths (S i) = Some t ->
  nth_error (band_columns ths sfx) (S i)
  = Some (py_str p ++ "-" ++ py_str t ++ "m" ++ sfx)%string.
Proof.
  intros Hp Ht. unfold band_columns, Py.enumerate.
  assert (Hlt : S i < length ths) by (apply nth_error_Some; congruence).
  rewrite nth_error_app1
    by (now rewrite length_map, length_enumerate_from).
  rewrite nth_error_map, nth_error_enumerate_from, Ht.
  cbn [option_map band_column Nat.add Nat.eqb]. rewrite Nat.sub_1_r.
  cbn [Nat.pred]. now rewrite (nth_error_nth _ _ t Hp).
Qed.

Lemma band_columns_last (ths : list pynum) (sfx : string) (t : pynum) :
  nth_error ths (length ths - 1) = Some t ->
  nth_error (band_columns ths sfx) (length ths)
  = Some (">" ++ py_str t ++ " m" ++ sfx)%string.
Proof.
  intros Ht. unfold band_columns, Py.enumerate.
  rewrite nth_error_app2
    by (now rewrite length_map, length_enumerate_from).
  rewrite length_map, length_enumerate_from, Nat.sub_diag.
  destruct ths as [|t0 l]; [discriminate|].
  simpl length in Ht. rewrite Nat.sub_1_r in Ht. cbn [Nat.pred] in Ht.
  rewrite nth_error_last in Ht. inversion Ht. reflexivity.
Qed.

(** C7 (amended: no space before "m" in the bands after the first, and the
    suffix of the unit after every name).  For a threshold list and the
    suffix [s] of the unit, the first band column is "0-{t0} m{s}", the
    column of a later band is "{lower}-{upper}m{s}" for its pair of
    consecutive thresholds, and the last one is ">{t[-1]} m{s}"; in a table a
    run returns every record has the same keys in the same order: the column
    names in the order of their first assignment, which are the column names
    themselves when these are distinct. *)
Theorem band_column_names (w : world) (rp sp : string)
  (thresholds : option (list pynum)) (unit : string)
  (log log' : list IO.event) (df : DataFrame) :
  calculate_flood_area_by_village w rp sp thresholds unit log
  = (inr df, log') ->
  let ths := effective_thresholds thresholds in
  exists unit_suffix,
    In (unit, unit_suffix)
      [("m2", " (m²)"); ("km2", " (km²)"); ("hectare", " (hectares)");
       ("rai", " (rai)")]
    /\ (forall row, In row (records df) ->
          dict_keys row = assigned_keys (column_names ths unit_suffix)
          /\ (NoDup (column_names ths unit_suffix) ->
              dict_keys row = column_names ths unit_suffix))
    /\ column_names ths unit_suffix
       = "village_id" :: "village_name"
         :: ("total_area" ++ unit_suffix)%string
         :: ("no_flood_area" ++ unit_suffix)%string
         :: band_columns ths unit_suffix
            ++ [("total_flooded_area" ++ unit_suffix)%string]
    /\ (ths <> [] -> length (band_columns ths unit_suffix) = length ths + 1)
    /\ (forall t, nth_error ths 0 = Some t ->
          nth_error (band_columns ths unit_suffix) 0
          = Some ("0-" ++ py_str t ++ " m" ++ unit_suffix)%string)
    /\ (forall i lower upper,
          nth_error ths i = Some lower -> nth_error ths (S i) = Some upper ->
          nth_error (band_columns ths unit_suffix) (S i)
          = Some (py_str lower ++ "-" ++ py_str upper ++ "m"
                    ++ unit_suffix)%string)
    /\ (forall t, nth_error ths (length ths - 1) = Some t ->
          nth_error (band_columns ths unit_suffix) (length ths)
          = Some (">" ++ py_str t ++ " m" ++ unit_suffix)%string).
Proof.
  rewrite calculate_run. intros E ths. inversion E as [[Hr Hl]]. clear E Hl.
  apply run_result_inr in Hr.
  destruct Hr as (villages & src & data & pa & sfx & Hv & Hs & Hd & Hu & Hf).
  exists sfx. split.
  { unfold unit_conversion in Hu.
    destruct (String.eqb unit "m2") eqn:E1;
      [apply String.eqb_eq in E1; inversion Hu; subst; simpl; auto|].
    destruct (String.eqb unit "km2") eqn:E2;
      [apply String.eqb_eq in E2; inversion Hu; subst; simpl; auto|].
    destruct (String.eqb unit "hectare") eqn:E3;
      [apply String.eqb_eq in E3; inversion Hu; subst; simpl; auto|].
    destruct (String.eqb unit "rai") eqn:E4;
      [apply String.eqb_eq in E4; inversion Hu; subst; simpl; auto 6|].
    discriminate. }
  split.
  { intros row Hin.
    destruct (Forall2_In_r _ _ _ _ Hf Hin) as ([idx v] & _ & Hrow).
    apply record_of_inr in Hrow.
    destruct Hrow as (band0 & rest & classified & Hm & Hc & ->).
    pose proof (classify_inr_nonempty _ _ _ Hc) as Hne.
    rewrite dict_keys_of_fields, village_fields_names by exact Hne.
    split; [reflexivity|]. intros Hnd. now apply assigned_keys_nodup. }
  split; [reflexivity|].
  split; [apply length_band_columns|].
  split; [apply band_columns_first|].
  split; [apply band_columns_next | apply band_columns_last].
Qed.

End Columns.

Lemma band_column_names_witness :
  exists df log' unit_suffix,
    calculate_flood_area_by_village (H := example_repr)
      (example_world example_villages) "WD-Tr2.tif" "villages.shp" None "m2" []
    = (inr df, log')
    /\ forall row, In row (records df) ->
         dict_keys row
         = assigned_keys
             (column_names (H := example_repr) default_thresholds unit_suffix).
Proof.
  destruct (calculate_flood_area_by_village (H := example_repr)
              (example_world example_villages) "WD-Tr2.tif" "villages.shp"
              None "m2" []) as [[e|df] log'] eqn:E;
    [vm_compute in E; discriminate E|].
  destruct (band_column_names _ _ _ _ _ _ _ _ E) as (sfx & _ & Hkeys & _).
  exists df, log', sfx. split; [reflexivity|].
  intros row Hin. exact (proj1 (Hkeys row Hin)).
Defined.

(** C7 as stated fails: with the thresholds [1, 2] and unit m2 the column of
    the second band is "1-2m (m²)", without a space before "m" and with the
    suffix of the unit, not "1-2 m". *)
Lemma band_column_without_space :
  match
    fst (calculate_flood_area_by_village (H := example_repr)
           (example_world example_villages) "WD-Tr2.tif" "villages.shp"
           (Some [PyInt 1; PyInt 2]) "m2" [])
  with
  | inr df =>
      map dict_keys (records df)
      = [["village_id"; "village_name"; "total_area (m²)";
          "no_flood_area (m²)"; "0-1 m (m²)"; "1-2m (m²)"; ">2 m (m²)";
          "total_flooded_area (m²)"];
         ["village_id"; "village_name"; "total_area (m²)";
          "no_flood_area (m²)"; "0-1 m (m²)"; "1-2m (m²)"; ">2 m (m²)";
          "total_flooded_area (m²)"]]
  | inl _ => False
  end
  /\ "1-2m (m²)" <> "1-2 m"
  /\ "0-1 m (m²)" <> "0-1 m"
  /\ ">2 m (m²)" <> ">2 m".
Proof. repeat split; try reflexivity; discriminate. Qed.

(** ** Failures *)

Lemma unit_conversion_unknown (unit : string) (p : Q) :
  ~ In unit ["m2"; "km2"; "hectare"; "rai"] ->
  unit_conversion unit p
  = inl (Py.ValueError "Unit must be one of: 'm2', 'km2', 'hectare', 'rai'").
Proof.
  intros Hn. unfold unit_conversion.
  destruct (String.eqb unit "m2") eqn:E1;
    [apply String.eqb_eq in E1; exfalso; apply Hn; simpl; auto|].
  destruct (String.eqb unit "km2") eqn:E2;
    [apply String.eqb_eq in E2; exfalso; apply Hn; simpl; auto|].
  destruct (String.eqb unit "hectare") eqn:E3;
    [apply String.eqb_eq in E3; exfalso; apply Hn; simpl; auto|].
  destruct (String.eqb unit "rai") eqn:E4;
    [apply String.eqb_eq in E4; exfalso; apply Hn; simpl; auto 6|].
  reflexivity.
Qed.

Lemma enumerate_from_app {A} (l1 l2 : list A) (k : nat) :
  Py.enumerate_from k (l1 ++ l2)
  = Py.enumerate_from k l1 ++ Py.enumerate_from (k + length l1) l2.
Proof.
  revert k. induction l1 as [|x l1 IH]; intros k; simpl.
  - now rewrite Nat.add_0_r.
  - rewrite IH. now replace (S k + length l1) with (k + S (length l1)) by lia.
Qed.

Section Failures.

Context `{FloatRepr}.

(** C5 (amended: ValueError, raised after the layer is loaded and band 1 is
    read).  With a unit token outside m2, km2, hectare and rai a run fails
    and clips no polygon; when the layer loads, the raster opens and band 1
    is read, the failure is a ValueError raised after these three calls, and
    the raster is closed. *)
Theorem unknown_unit_raises (w : world) (rp sp : string)
  (thresholds : option (list pynum)) (unit : string) (log : list IO.event) :
  ~ In unit ["m2"; "km2"; "hectare"; "rai"] ->
  (exists e,
     fst (calculate_flood_area_by_village w rp sp thresholds unit log) = inl e)
  /\ (exists events,
        snd (calculate_flood_area_by_village w rp sp thresholds unit log)
        = log ++ events
        /\ forall shapes, ~ In (IO.Mask shapes) events)
  /\ (forall villages src data,
        gpd_read_file w sp = inr villages ->
        rasterio_open w rp = inr src ->
        ds_read src 1 = inr data ->
        calculate_flood_area_by_village w rp sp thresholds unit log
        = (inl (Py.ValueError
                  "Unit must be one of: 'm2', 'km2', 'hectare', 'rai'"),
           log ++ [IO.ReadFile sp; IO.Open rp; IO.ReadBand 1; IO.Close rp])).
Proof.
  intros Hn. rewrite calculate_run. cbn [fst snd].
  unfold run_result, run_events. split; [|split].
  - destruct (gpd_read_file w sp); cbn [Py.bind]; [eauto|].
    destruct (rasterio_open w rp) as [|src]; cbn [Py.bind]; [eauto|].
    destruct (ds_read src 1); cbn [Py.bind]; [eauto|].
    rewrite (unit_conversion_unknown _ _ Hn). cbn [Py.bind]. eauto.
  - eexists. split; [reflexivity|]. intros shapes.
    destruct (gpd_read_file w sp);
      [intros [E | []]; discriminate E|].
    destruct (rasterio_open w rp) as [|src];
      [intros [E | [E | []]]; discriminate E|].
    destruct (ds_read src 1);
      [intros [E | [E | [E | [E | []]]]]; discriminate E|].
    rewrite (unit_conversion_unknown _ _ Hn).
    intros [E | [E | [E | [E | []]]]]; discriminate E.
  - intros villages src data Hv Hs Hd. rewrite Hv. cbn [Py.bind].
    rewrite Hs. cbn [Py.bind]. rewrite Hd. cbn [Py.bind].
    rewrite (unit_conversion_unknown _ _ Hn). reflexivity.
Qed.

End Failures.

Lemma unknown_unit_raises_witness :
  calculate_flood_area_by_village (H := example_repr)
    (example_world example_villages) "WD-Tr2.tif" "villages.shp" None "acre" []
  = (inl (Py.ValueError "Unit must be one of: 'm2', 'km2', 'hectare', 'rai'"),
     [IO.ReadFile "villages.shp"; IO.Open "WD-Tr2.tif"; IO.ReadBand 1;
      IO.Close "WD-Tr2.tif"]).
Proof.
  refine (proj2 (proj2 (unknown_unit_raises (H := example_repr)
                          (example_world example_villages) "WD-Tr2.tif"
                          "villages.shp" None "acre" [] _))
            example_villages example_raster example_depths
            eq_refl eq_refl eq_refl).
  intros [E | [E | [E | [E | []]]]]; discriminate E.
Defined.

(** C5 as stated fails: with the unit "acre" the exception is a ValueError,
    not a ConfigurationError, and band 1 of the raster has been read before
    it is raised. *)
Lemma unknown_unit_after_read :
  calculate_flood_area_by_village (H := example_repr)
    (example_world example_villages) "WD-Tr2.tif" "villages.shp" None "acre" []
  = (inl (Py.ValueError "Unit must be one of: 'm2', 'km2', 'hectare', 'rai'"),
     [IO.ReadFile "villages.shp"; IO.Open "WD-Tr2.tif"; IO.ReadBand 1;
      IO.Close "WD-Tr2.tif"])
  /\ Py.exn_class
       (Py.ValueError "Unit must be one of: 'm2', 'km2', 'hectare', 'rai'")
     <> "ConfigurationError"
  /\ In (IO.ReadBand 1)
       [IO.ReadFile "villages.shp"; IO.Open "WD-Tr2.tif"; IO.ReadBand 1;
        IO.Close "WD-Tr2.tif"].
Proof.
  split; [reflexivity|]. split; [discriminate|]. simpl. auto.
Qed.

(** ** Polygons that do not overlap the raster *)

Lemma scaled_zero (p : Q) : (scaled 0 p == 0)%Q.
Proof.
  unfold scaled, Ieee.mul, Ieee.round64. rewrite round_to_zero; [reflexivity|].
  change (Ieee.of_int (Z.of_nat 0)) with 0%Q. ring.
Qed.

Lemma area_counts_empty (ths : list pynum) (classified : grid num) :
  concat classified = [] ->
  Forall (fun n => n = 0) (area_counts ths classified).
Proof.
  intros He.
  assert (Hz : forall f, Np.sum (grid_map f classified) = 0)
    by (intros f; now rewrite sum_grid_map, He).
  unfold area_counts, band_counts, ge_scalar, eq_scalar, gt_scalar.
  repeat constructor; try apply Hz.
  apply Forall_app. split.
  - apply Forall_map, Forall_forall. intros k _. apply Hz.
  - repeat constructor. apply Hz.
Qed.

Section Overlap.

Context `{FloatRepr}.

Lemma collect_records_fail (src : dataset) (ths : list pynum) (pa : Q)
  (sfx : string) (it : nat * village) (post : list (nat * village))
  (e : Py.exn) :
  record_of src ths pa sfx it = inl e ->
  forall (pre : list (nat * village)) (acc : list dict),
    Forall (fun it' => exists row, record_of src ths pa sfx it' = inr row)
      pre ->
    collect_records src ths pa sfx (pre ++ it :: post) acc = inl e.
Proof.
  intros He. induction pre as [|it' pre IH]; intros acc Hpre;
    cbn [app]; rewrite collect_records_cons.
  - now rewrite He.
  - inversion Hpre as [|? ? [row Hrow] Hpre']; subst.
    rewrite Hrow. now apply IH.
Qed.

Lemma record_of_clipped (src : dataset) (ths : list pynum) (pa : Q)
  (sfx : string) (idx : nat) (v : village) (band0 : grid num)
  (rest : list (grid num)) :
  ths <> [] ->
  ds_mask src [village_geometry v] = inr (band0 :: rest) ->
  exists row, record_of src ths pa sfx (idx, v) = inr row.
Proof.
  intros Hne Hm. eexists. apply record_of_inr.
  exists band0, rest. eexists. split; [exact Hm|]. split; [|reflexivity].
  rewrite classify_cells. destruct ths; [congruence | reflexivity].
Qed.

(** C8 (amended: an error of the clip is not caught).  In a table a run
    returns, the record of a polygon whose clip is a grid with no cell has
    every area equal to zero; and when the clip of a polygon raises, the
    clips before it having succeeded, the run returns no table: the exception
    of the clip leaves [calculate_flood_area_by_village]. *)
Theorem clip_empty_or_error (w : world) (rp sp : string)
  (thresholds : option (list pynum)) (unit : string) (log : list IO.event) :
  (forall log' df,
     calculate_flood_area_by_village w rp sp thresholds unit log
     = (inr df, log') ->
     exists villages src,
       gpd_read_file w sp = inr villages
       /\ rasterio_open w rp = inr src
       /\ Forall2
            (fun (it : nat * village) (row : dict) =>
               forall band0 rest,
                 ds_mask src [village_geometry (snd it)] = inr (band0 :: rest)
                 -> concat band0 = [] ->
                 forall k a,
                   In (k, VNum a) row ->
                   k <> "village_id" -> k <> "village_name" -> (a == 0)%Q)
            (Py.enumerate villages) (records df))
  /\ (forall pre v post src data e,
        gpd_read_file w sp = inr (pre ++ v :: post) ->
        rasterio_open w rp = inr src ->
        ds_read src 1 = inr data ->
        In unit ["m2"; "km2"; "hectare"; "rai"] ->
        effective_thresholds thresholds <> [] ->
        Forall (fun u => exists band0 rest,
                  ds_mask src [village_geometry u] = inr (band0 :: rest)) pre ->
        ds_mask src [village_geometry v] = inl e ->
        fst (calculate_flood_area_by_village w rp sp thresholds unit log)
        = inl e).
Proof.
  split.
  - intros log' df E. rewrite calculate_run in E.
    inversion E as [[Hr Hl]]. clear E Hl. apply run_result_inr in Hr.
    destruct Hr as (villages & src & data & pa & sfx & Hv & Hs & Hd & Hu & Hf).
    exists villages, src. repeat split; auto.
    eapply Forall2_impl; [|exact Hf].
    intros [idx v] row Hrow band0 rest Hm He k a Hin Hid Hname.
    apply record_of_inr in Hrow.
    destruct Hrow as (band0' & rest' & classified & Hm' & Hc & ->).
    cbn [snd] in Hm. rewrite Hm in Hm'. inversion Hm'; subst band0' rest'.
    apply dict_of_fields_In in Hin. unfold village_fields in Hin.
    destruct Hin as [E | [E | Hin]]; [inversion E; congruence
                                     | inversion E; congruence |].
    apply in_combine_r in Hin. apply in_map_iff in Hin.
    destruct Hin as (n & En & Hn). inversion En; subst a.
    destruct (classified_in_range _ _ _ Hc) as [Hlen _].
    rewrite He in Hlen. apply length_zero_iff_nil in Hlen.
    pose proof (area_counts_empty (effective_thresholds thresholds)
                  classified Hlen) as Hz.
    rewrite Forall_forall in Hz. rewrite (Hz n Hn). apply scaled_zero.
  - intros pre v post src data e Hv Hs Hd Hu Hne Hpre Hm.
    rewrite calculate_run. cbn [fst]. unfold run_result.
    rewrite Hv. cbn [Py.bind]. rewrite Hs. cbn [Py.bind]. rewrite Hd.
    cbn [Py.bind].
    destruct (unit_conversion unit _) as [e'|[pa sfx]] eqn:Eu.
    { exfalso. unfold unit_conversion in Eu.
      destruct Hu as [<- | [<- | [<- | [<- | []]]]]; discriminate Eu. }
    cbn [Py.bind fst snd]. unfold Py.enumerate.
    rewrite enumerate_from_app. cbn [Py.enumerate_from].
    rewrite (collect_records_fail src _ pa sfx (0 + length pre, v) _ e).
    + reflexivity.
    + unfold record_of. cbn [fst snd]. now rewrite Hm.
    + apply Forall_forall. intros [idx u] Hin.
      pose proof (enumerate_from_In _ _ _ _ Hin) as [_ Hu'].
      apply nth_error_In in Hu'.
      rewrite Forall_forall in Hpre.
      destruct (Hpre u Hu') as (band0 & rest & Hm').
      exact (record_of_clipped src _ pa sfx idx u band0 rest Hne Hm').
Qed.

End Overlap.

Lemma clip_empty_or_error_witness :
  exists df log',
    calculate_flood_area_by_village (H := example_repr)
      (example_world [ {| village_geometry := [(0, 0)%Q];
                          village_attrs := [] |} ])
      "WD-Tr2.tif" "villages.shp" None "m2" []
    = (inr df, log')
    /\ forall row k a,
         In row (records df) -> In (k, VNum a) row ->
         k <> "village_id" -> k <> "village_name" -> (a == 0)%Q.
Proof.
  destruct (calculate_flood_area_by_village (H := example_repr)
              (example_world [ {| village_geometry := [(0, 0)%Q];
                                  village_attrs := [] |} ])
              "WD-Tr2.tif" "villages.shp" None "m2" [])
    as [[e|df] log'] eqn:E; [vm_compute in E; discriminate E|].
  exists df, log'. split; [reflexivity|]. intros row k a Hrow.
  destruct (proj1 (clip_empty_or_error (H := example_repr) _ _ _ _ _ _)
              log' df E) as (villages & src & Hv & Hs & Hf).
  inversion Hv; subst villages. inversion Hs; subst src.
  destruct (Forall2_In_r _ _ _ _ Hf Hrow) as ([idx v] & Hin & Hz).
  destruct Hin as [Ei | []]. inversion Ei; subst idx v.
  exact (Hz [] [] eq_refl eq_refl k a).
Defined.

(** C8 as stated fails when the clip raises: for a polygon that does not
    overlap the raster, rasterio raises ValueError, the aggregator does not
    catch it, and the run returns this exception instead of a table with a
    record of zeros. *)
Lemma clip_error_aborts_run :
  calculate_flood_area_by_village (H := example_repr)
    (example_world [ {| village_geometry := []; village_attrs := [] |} ])
    "WD-Tr2.tif" "villages.shp" None "m2" []
  = (inl (Py.ValueError "Input shapes do not overlap raster."),
     [IO.ReadFile "villages.shp"; IO.Open "WD-Tr2.tif"; IO.ReadBand 1;
      IO.Mask [[]]; IO.Close "WD-Tr2.tif"]).
Proof. reflexivity. Qed.

(** ** Equal inputs *)

Lemma ltb_equiv (x x' y y' : num) :
  num_equiv x x' -> num_equiv y y' -> ltb x y = ltb x' y'.
Proof.
  destruct x, x', y, y'; simpl; try contradiction; try reflexivity.
  intros Hx Hy. unfold Qltb. now rewrite Hx, Hy.
Qed.

Lemma eqb_equiv (x x' y y' : num) :
  num_equiv x x' -> num_equiv y y' -> eqb x y = eqb x' y'.
Proof.
  destruct x, x', y, y'; simpl; try contradiction; try reflexivity.
  intros Hx Hy. now rewrite Hx, Hy.
Qed.

Lemma leb_equiv (x x' y y' : num) :
  num_equiv x x' -> num_equiv y y' -> leb x y = leb x' y'.
Proof.
  intros Hx Hy. unfold leb.
  now rewrite (ltb_equiv _ _ _ _ Hx Hy), (eqb_equiv _ _ _ _ Hx Hy).
Qed.

Lemma num_equiv_refl (x : num) : num_equiv x x.
Proof. destruct x; simpl; auto. reflexivity. Qed.

Lemma Forall2_nth_error_l {A B} (P : A -> B -> Prop) (l : list A)
  (m : list B) :
  Forall2 P l m ->
  forall i x, nth_error l i = Some x ->
              exists y, nth_error m i = Some y /\ P x y.
Proof.
  induction 1 as [|a b l m Hab _ IH]; intros [|i] x Hx; simpl in *;
    try discriminate.
  - inversion Hx; subst. eauto.
  - eauto.
Qed.

Lemma Forall2_nth_error_None {A B} (P : A -> B -> Prop) (l : list A)
  (m : list B) :
  Forall2 P l m ->
  forall i, nth_error l i = None -> nth_error m i = None.
Proof.
  intros Hf i Hi. apply nth_error_None. apply nth_error_None in Hi.
  now rewrite <- (Forall2_length Hf).
Qed.

Section EqualInputs.

Variables (ths ths' : list pynum) (d d' : num).

Hypothesis Hths :
  Forall2 (fun t t' => num_equiv (py_value t) (py_value t')) ths ths'.

Hypothesis Hd : num_equiv d d'.

Lemma nth_error_equiv (i : nat) :
  match nth_error ths i, nth_error ths' i with
  | Some t, Some t' => num_equiv (py_value t) (py_value t')
  | None, None => True
  | _, _ => False
  end.
Proof.
  destruct (nth_error ths i) as [t|] eqn:E.
  - destruct (Forall2_nth_error_l _ _ _ Hths i t E) as (t' & -> & Ht).
    exact Ht.
  - now rewrite (Forall2_nth_error_None _ _ _ Hths i E).
Qed.

Lemma in_band_equiv (i : nat) : in_band ths i d = in_band ths' i d'.
Proof.
  unfold in_band, band_lower.
  pose proof (nth_error_equiv i) as Hi.
  pose proof (nth_error_equiv (i - 1)) as Hp.
  destruct (nth_error ths i) as [t|], (nth_error ths' i) as [t'|];
    try contradiction.
  - destruct (Nat.eqb i 0).
    + unfold gtb.
      now rewrite (ltb_equiv _ _ _ _ (num_equiv_refl _) Hd),
        (leb_equiv _ _ _ _ Hd Hi).
    + destruct (nth_error ths (i - 1)) as [p|],
        (nth_error ths' (i - 1)) as [p'|]; try contradiction;
        cbn [option_map]; [|reflexivity].
      unfold gtb.
      now rewrite (ltb_equiv _ _ _ _ Hp Hd), (leb_equiv _ _ _ _ Hd Hi).
  - destruct (Nat.eqb i 0); [reflexivity|].
    destruct (nth_error ths (i - 1)), (nth_error ths' (i - 1));
      try contradiction; reflexivity.
Qed.

Lemma above_last_equiv : above_last ths d = above_last ths' d'.
Proof.
  destruct (nth_error ths 0) as [t0|] eqn:E0.
  - assert (Hne : ths <> []) by (intros E; rewrite E in E0; discriminate).
    destruct (Forall2_nth_error_l _ _ _ Hths 0 t0 E0) as (t0' & E0' & _).
    assert (Hne' : ths' <> []) by (intros E; rewrite E in E0'; discriminate).
    destruct (above_last_nth ths d Hne) as (tl & Htl & ->).
    destruct (above_last_nth ths' d' Hne') as (tl' & Htl' & ->).
    pose proof (nth_error_equiv (length ths - 1)) as Hl.
    rewrite <- (Forall2_length Hths) in Htl'.
    rewrite Htl, Htl' in Hl. unfold gtb. exact (ltb_equiv _ _ _ _ Hl Hd).
  - pose proof (Forall2_nth_error_None _ _ _ Hths 0 E0) as E0'.
    destruct ths; [|discriminate]. destruct ths'; [|discriminate].
    reflexivity.
Qed.

(** Equal thresholds and equal depths give the same category. *)
Lemma cell_category_equiv :
  ths <> [] -> cell_category ths d = cell_category ths' d'.
Proof.
  intros Hne.
  assert (Hne' : ths' <> []).
  { intros E. pose proof (Forall2_length Hths) as Hlen. rewrite E in Hlen.
    apply length_zero_iff_nil in Hlen. contradiction. }
  destruct (cell_category_cases ths d Hne)
    as [[Ha Hc] | [[Ha (i & Hi & Hb & Hno & Hc)] | [Ha [Hno Hc]]]];
    destruct (cell_category_cases ths' d' Hne')
      as [[Ha' Hc'] | [[Ha' (i' & Hi' & Hb' & Hno' & Hc')] | [Ha' [Hno' Hc']]]];
    rewrite Hc, Hc', <- ?(Forall2_length Hths);
    rewrite above_last_equiv in Ha; try congruence.
  - destruct (Nat.lt_trichotomy i i') as [Hlt | [-> | Hgt]].
    + pose proof (Hno i' Hlt) as Hx. rewrite in_band_equiv in Hx. congruence.
    + reflexivity.
    + rewrite in_band_equiv in Hb. rewrite (Hno' i Hgt) in Hb. discriminate.
  - rewrite in_band_equiv, Hno' in Hb. discriminate.
  - rewrite <- in_band_equiv, Hno in Hb'. discriminate.
Qed.

End EqualInputs.

Lemma grid_map_equiv (f f' : num -> num) (g g' : grid num) :
  (forall d d', num_equiv d d' -> f d = f' d') ->
  Forall2 (Forall2 num_equiv) g g' ->
  grid_map f g = grid_map f' g'.
Proof.
  intros Hf Hg. unfold grid_map.
  induction Hg as [|row row' g g' Hrow _ IH]; simpl; [reflexivity|].
  f_equal; [|exact IH].
  induction Hrow as [|x x' r r' Hx _ IHr]; simpl; [reflexivity|].
  f_equal; [now apply Hf | exact IHr].
Qed.

(** The classifier is a function of the values of its inputs. *)
Lemma classify_equiv (g g' : grid num) (ths ths' : list pynum) :
  Forall2 (Forall2 num_equiv) g g' ->
  Forall2 (fun t t' => num_equiv (py_value t) (py_value t')) ths ths' ->
  classify_flood_depth g (Some ths) = classify_flood_depth g' (Some ths').
Proof.
  intros Hg Hths. rewrite !classify_cells.
  destruct Hths as [|t t' l l' Ht Hl]; [reflexivity|].
  f_equal. apply grid_map_equiv; [|exact Hg].
  intros d d' Hd. apply cell_category_equiv; [|exact Hd|discriminate].
  now constructor.
Qed.

(** ** Rows in the order of the villages *)

Lemma string_last_app (s t : string) (c : ascii) :
  string_last t = Some c -> string_last (s ++ t)%string = Some c.
Proof.
  intros Ht. induction s as [|a s IH]; simpl; [exact Ht|]. now rewrite IH.
Qed.

Lemma dict_get_set_other (d : dict) (k k' : string) (v : pyval) :
  k' <> k -> dict_get (dict_set d k' v) k = dict_get d k.
Proof.
  intros Hne. induction d as [|[k0 v0] d IH]; simpl.
  - destruct (String.eqb k' k) eqn:E; [|reflexivity].
    apply String.eqb_eq in E. contradiction.
  - destruct (String.eqb k0 k') eqn:E0; simpl.
    + apply String.eqb_eq in E0. subst k0.
      destruct (String.eqb k' k) eqn:E; [|reflexivity].
      apply String.eqb_eq in E. contradiction.
    + now rewrite IH.
Qed.

Lemma dict_get_fold_other (fs : list (string * pyval)) (k : string) :
  Forall (fun kv => fst kv <> k) fs ->
  forall d : dict,
    dict_get (fold_left (fun d kv => dict_set d (fst kv) (snd kv)) fs d) k
    = dict_get d k.
Proof.
  induction 1 as [|kv fs Hkv _ IH]; intros d; simpl; [reflexivity|].
  rewrite IH. now apply dict_get_set_other.
Qed.

Section RowOrder.

Context `{FloatRepr}.

Lemma area_columns_last (ths : list pynum) (sfx : string) (c : ascii) :
  string_last sfx = Some c ->
  Forall (fun k => string_last k = Some c) (area_columns ths sfx).
Proof.
  intros Hs. unfold area_columns, band_columns, last_column.
  repeat constructor; try now apply string_last_app.
  repeat (apply Forall_app; split).
  - apply Forall_map, Forall_forall. intros [i t] _. unfold band_column.
    destruct (Nat.eqb i 0); repeat apply string_last_app; exact Hs.
  - destruct ths; repeat constructor. repeat apply string_last_app. exact Hs.
  - repeat constructor. now apply string_last_app.
Qed.

Lemma unit_suffix_last (unit : string) (p pa : Q) (sfx : string) :
  unit_conversion unit p = inr (pa, sfx) -> string_last sfx = Some ")"%char.
Proof.
  unfold unit_conversion.
  repeat match goal with
         | |- context [String.eqb unit ?u] => destruct (String.eqb unit u)
         end; intros E; inversion E; reflexivity.
Qed.

(** The first two assignments of a record are not overwritten. *)
Lemma village_fields_id_name (ths : list pynum) (c : grid num) (p pa : Q)
  (unit sfx : string) (idx : nat) (v : village) :
  unit_conversion unit p = inr (pa, sfx) ->
  dict_get (dict_of_fields (village_fields ths c pa sfx idx v)) "village_id"
  = Some (village_get v "ADM3_EN" (VInt (Z.of_nat idx)))
  /\ dict_get (dict_of_fields (village_fields ths c pa sfx idx v))
       "village_name"
     = Some (village_get v "ADM3_TH"
               (VStr ("Village_" ++ Py.str_of_int (Z.of_nat idx))%string)).
Proof.
  intros Hu. pose proof (unit_suffix_last _ _ _ _ Hu) as Hs.
  pose proof (area_columns_last ths sfx _ Hs) as Hc.
  unfold dict_of_fields, village_fields. cbn [fold_left fst snd].
  assert (Hother : forall k,
            string_last k <> Some ")"%char ->
            Forall (fun kv : string * pyval => fst kv <> k)
              (combine (area_columns ths sfx)
                 (map (fun n => VNum (scaled n pa)) (area_counts ths c)))).
  { intros k Hk. apply Forall_forall. intros [k' v'] Hin.
    apply in_combine_l in Hin. rewrite Forall_forall in Hc.
    cbn [fst]. intros ->. apply Hk. now apply Hc. }
  split; rewrite dict_get_fold_other by (apply Hother; discriminate);
    reflexivity.
Qed.

(** C9.  The classifier is a function of the values of its arguments: grids
    and thresholds that are equal as numbers give the same result, and it
    makes no call to a collaborator.  What a run returns does not depend on
    the log of earlier calls, and a run appends the same calls whatever the
    log, so two runs on the same inputs return the same table.  The table has
    one record per village, in the order of the layer: record [i] holds the
    identifier and the name of village [i]. *)
Theorem aggregator_deterministic (w : world) (rp sp : string)
  (thresholds : option (list pynum)) (unit : string) :
  (forall g g' ths ths',
     Forall2 (Forall2 num_equiv) g g' ->
     Forall2 (fun t t' => num_equiv (py_value t) (py_value t')) ths ths' ->
     classify_flood_depth g (Some ths) = classify_flood_depth g' (Some ths'))
  /\ (forall log1 log2,
        fst (calculate_flood_area_by_village w rp sp thresholds unit log1)
        = fst (calculate_flood_area_by_village w rp sp thresholds unit log2))
  /\ (exists events,
        forall log,
          snd (calculate_flood_area_by_village w rp sp thresholds unit log)
          = log ++ events)
  /\ (forall log,
        let '(first, log1) :=
          calculate_flood_area_by_village w rp sp thresholds unit log in
        let '(second, log2) :=
          calculate_flood_area_by_village w rp sp thresholds unit log1 in
        first = second)
  /\ (forall log log' df,
        calculate_flood_area_by_village w rp sp thresholds unit log
        = (inr df, log') ->
        exists villages,
          gpd_read_file w sp = inr villages
          /\ length (records df) = length villages
          /\ forall i v,
               nth_error villages i = Some v ->
               exists row,
                 nth_error (records df) i = Some row
                 /\ dict_get row "village_id"
                    = Some (village_get v "ADM3_EN" (VInt (Z.of_nat i)))
                 /\ dict_get row "village_name"
                    = Some (village_get v "ADM3_TH"
                              (VStr ("Village_"
                                       ++ Py.str_of_int (Z.of_nat i))%string))).
Proof.
  split; [exact classify_equiv|].
  split; [intros log1 log2; now rewrite !calculate_run|].
  split; [eexists; intros log; now rewrite calculate_run|].
  split; [intros log; now rewrite !calculate_run|].
  intros log log' df E. rewrite calculate_run in E.
  inversion E as [[Hr Hl]]. clear E Hl. apply run_result_inr in Hr.
  destruct Hr as (villages & src & data & pa & sfx & Hv & Hs & Hd & Hu & Hf).
  exists villages. split; [exact Hv|]. split.
  { rewrite <- (Forall2_length Hf). unfold Py.enumerate.
    apply length_enumerate_from. }
  intros i v Hi.
  assert (Hit : nth_error (Py.enumerate villages) i = Some (i, v)).
  { unfold Py.enumerate. now rewrite nth_error_enumerate_from, Hi. }
  destruct (Forall2_nth_error_l _ _ _ Hf i _ Hit) as (row & Hrow & Hrec).
  exists row. split; [exact Hrow|].
  apply record_of_inr in Hrec.
  destruct Hrec as (band0 & rest & classified & _ & _ & ->).
  exact (village_fields_id_name _ _ _ _ _ _ _ _ Hu).
Qed.

End RowOrder.

Lemma aggregator_deterministic_witness :
  exists df log',
    calculate_flood_area_by_village (H := example_repr)
      (example_world example_villages) "WD-Tr2.tif" "villages.shp" None "km2"
      []
    = (inr df, log')
    /\ option_map (fun row => dict_get row "village_id")
         (nth_error (records df) 1)
       = Some (Some (VInt 1)).
Proof.
  destruct (calculate_flood_area_by_village (H := example_repr)
              (example_world example_villages) "WD-Tr2.tif" "villages.shp"
              None "km2" []) as [[e|df] log'] eqn:E;
    [vm_compute in E; discriminate E|].
  exists df, log'. split; [reflexivity|].
  destruct (aggregator_deterministic (H := example_repr)
              (example_world example_villages) "WD-Tr2.tif" "villages.shp"
              None "km2") as (_ & _ & _ & _ & Horder).
  destruct (Horder [] log' df E) as (villages & Hv & _ & Hrows).
  inversion Hv; subst villages.
  destruct (Hrows 1 _ eq_refl) as (row & -> & Hid & _).
  cbn [option_map]. now rewrite Hid.
Defined.

(** ** The scenarios of the specification *)

(** Thresholds 0.5, 1, 2, 3, unit m2, cells of 100 m2: 400 m2 without flood,
    100 m2 in each band, 500 m2 flooded, 900 m2 in all. *)
Example scenario_default_m2 :
  fst (calculate_flood_area_by_village (H := example_repr)
         (example_world [ {| village_geometry := example_square;
                             village_attrs := [] |} ])
         "WD-Tr2.tif" "villages.shp" None "m2" [])
  = inr (pd_DataFrame
           [[("village_id", VInt 0); ("village_name", VStr "Village_0");
             ("total_area (m²)", VNum 900); ("no_flood_area (m²)", VNum 400);
             ("0-0.5 m (m²)", VNum 100); ("0.5-1.0m (m²)", VNum 100);
             ("1.0-2.0m (m²)", VNum 100); ("2.0-3.0m (m²)", VNum 100);
             (">3.0 m (m²)", VNum 100);
             ("total_flooded_area (m²)", VNum 500)]]).
Proof. reflexivity. Qed.

(** One flooded cell of 40 m x 40 m, unit rai: the area of its band is 1. *)
Example scenario_one_cell_rai :
  match
    fst (calculate_flood_area_by_village (H := example_repr)
           (example_world_of (example_raster_of 40 (-40) [[Fin (3 # 10)]])
              [ {| village_geometry := example_square;
                   village_attrs := [] |} ])
           "WD-Tr2.tif" "villages.shp" None "rai" [])
  with
  | inr (pd_DataFrame [row]) =>
      match dict_get row "0-0.5 m (rai)" with
      | Some (VNum a) => (a == 1)%Q
      | _ => False
      end
  | _ => False
  end.
Proof. reflexivity. Qed.

(** * Further properties of the classifier *)

(** ** Bands that take no cell *)

Lemma category_is_band (ths : list pynum) (d : num) (i : nat) :
  ths <> [] -> i < length ths ->
  cell_category ths d = num_of_nat (i + 1) -> in_band ths i d = true.
Proof.
  intros Hne Hi Hc.
  destruct (cell_category_cases ths d Hne)
    as [[_ H] | [[_ (i' & _ & Hb & _ & H)] | [_ [_ H]]]];
    rewrite Hc in H; apply num_of_nat_inj in H.
  - lia.
  - now replace i with i' by lia.
  - lia.
Qed.

Lemma first_band_empty (ths : list pynum) (t : pynum) (d : num) :
  nth_error ths 0 = Some t ->
  ltb (num_of_nat 0) (py_value t) = false ->
  in_band ths 0 d = false.
Proof.
  intros Ht Hlt. rewrite (in_band_first ths t d Ht).
  destruct (gtb d (num_of_nat 0)) eqn:Eg; [|reflexivity].
  destruct (leb d (py_value t)) eqn:El; [|reflexivity].
  unfold gtb in Eg. rewrite (ltb_leb_trans _ _ _ Eg El) in Hlt. discriminate.
Qed.

Lemma next_band_empty (ths : list pynum) (i : nat) (p t : pynum) (d : num) :
  nth_error ths i = Some p -> nth_error ths (S i) = Some t ->
  ltb (py_value p) (py_value t) = false ->
  in_band ths (S i) d = false.
Proof.
  intros Hp Ht Hlt. rewrite (in_band_next ths i p t d Hp Ht).
  destruct (gtb d (py_value p)) eqn:Eg; [|reflexivity].
  destruct (leb d (py_value t)) eqn:El; [|reflexivity].
  unfold gtb in Eg. rewrite (ltb_leb_trans _ _ _ Eg El) in Hlt. discriminate.
Qed.

Lemma count_none (p : num -> bool) (l : list num) :
  (forall x, p x = false) -> length (filter p l) = 0.
Proof.
  intros Hp. induction l as [|x l IH]; simpl; [reflexivity|].
  now rewrite Hp.
Qed.

(** X2.  A band whose upper threshold is not above its lower bound takes no
    cell: when thresholds[0] is not above 0 no cell gets category 1, and when
    thresholds[i+1] is not above thresholds[i] (a repeated or descending
    threshold) no cell gets category i+2, so [np.sum(classified == k)] is 0
    for that category. *)
Theorem classify_empty_band (depth_array classified : grid num)
  (thresholds : list pynum) :
  classify_flood_depth depth_array (Some thresholds) = inr classified ->
  (forall t,
     nth_error thresholds 0 = Some t ->
     ltb (num_of_nat 0) (py_value t) = false ->
     Np.sum (eq_scalar classified (num_of_nat 1)) = 0)
  /\ (forall i lower upper,
        nth_error thresholds i = Some lower ->
        nth_error thresholds (S i) = Some upper ->
        ltb (py_value lower) (py_value upper) = false ->
        Np.sum (eq_scalar classified (num_of_nat (i + 2))) = 0).
Proof.
  intros Hc.
  assert (Hne : thresholds <> []).
  { intros E. rewrite E, classify_cells in Hc. discriminate. }
  rewrite classify_cells in Hc.
  destruct thresholds as [|t0 l] eqn:E; [congruence|]. rewrite <- E in *.
  inversion Hc; subst classified. clear Hc.
  unfold eq_scalar. split.
  - intros t Ht Hlt. rewrite sum_grid_map, concat_grid_map.
    rewrite <- count_map, map_map, count_map. apply count_none. intros d.
    destruct (eqb (cell_category thresholds d) (num_of_nat 1)) eqn:Ee;
      [|reflexivity].
    destruct (cell_category_range thresholds d Hne) as (k & _ & Hk).
    rewrite Hk, eqb_nat in Ee. apply Nat.eqb_eq in Ee. subst k.
    assert (Hlen : 0 < length thresholds)
      by (apply nth_error_Some; congruence).
    pose proof (first_band_empty thresholds t d Ht Hlt) as Hb.
    rewrite (category_is_band thresholds d 0 Hne Hlen Hk) in Hb.
    discriminate.
  - intros i lower upper Hl Hu Hlt. rewrite sum_grid_map, concat_grid_map.
    rewrite <- count_map, map_map, count_map. apply count_none. intros d.
    destruct (eqb (cell_category thresholds d) (num_of_nat (i + 2))) eqn:Ee;
      [|reflexivity].
    destruct (cell_category_range thresholds d Hne) as (k & _ & Hk).
    rewrite Hk, eqb_nat in Ee. apply Nat.eqb_eq in Ee. subst k.
    assert (Hlen : S i < length thresholds)
      by (apply nth_error_Some; congruence).
    replace (i + 2) with (S i + 1) in Hk by lia.
    pose proof (next_band_empty thresholds i lower upper d Hl Hu Hlt) as Hb.
    rewrite (category_is_band thresholds d (S i) Hne Hlen Hk) in Hb.
    discriminate.
Qed.

(** The threshold 1 repeated: the band (1, 1] of category 2 is empty. *)
Lemma classify_empty_band_witness :
  Np.sum (eq_scalar [[num_of_nat 1; num_of_nat 1; num_of_nat 3]]
            (num_of_nat 2)) = 0.
Proof.
  refine (proj2 (classify_empty_band
                   [[Fin (1 # 2); Fin 1; Fin 2]]
                   [[num_of_nat 1; num_of_nat 1; num_of_nat 3]]
                   [PyInt 1; PyInt 1] _)
            0 (PyInt 1) (PyInt 1) _ _ _); reflexivity.
Defined.

(** ** Flooded cells *)

Lemma leb_of_not_ltb (x y : num) :
  x <> NaN -> y <> NaN -> ltb y x = false -> leb x y = true.
Proof.
  unfold leb. destruct x, y; simpl; try congruence; intros _ _ H;
    try reflexivity.
  unfold Qltb in *. apply negb_false_iff in H. apply Qle_bool_iff in H.
  apply Qle_lteq in H. destruct H as [H | H].
  - destruct (Qle_bool q0 q) eqn:E; [|reflexivity].
    apply Qle_bool_iff in E. exfalso. exact (Qlt_not_le _ _ H E).
  - apply Qeq_bool_iff in H. rewrite H. apply orb_true_r.
Qed.

Lemma ltb_not_nan (x y : num) : ltb x y = true -> x <> NaN /\ y <> NaN.
Proof. destruct x, y; simpl; intros H; split; congruence. Qed.

(** Below or at threshold [k] and above 0: some band up to [k] takes the
    depth. *)
Lemma band_found (ths : list pynum) (d : num) :
  positive ths = true -> ltb (num_of_nat 0) d = true ->
  forall k t,
    nth_error ths k = Some t -> leb d (py_value t) = true ->
    exists i, i <= k /\ in_band ths i d = true.
Proof.
  intros Hp Hd. induction k as [|k IH]; intros t Ht Hle.
  - exists 0. split; [lia|]. rewrite (in_band_first ths t d Ht).
    unfold gtb. now rewrite Hd, Hle.
  - destruct (nth_error ths k) as [p|] eqn:Ek.
    + destruct (ltb (py_value p) d) eqn:El.
      * exists (S k). split; [lia|].
        rewrite (in_band_next ths k p t d Ek Ht). unfold gtb.
        now rewrite El, Hle.
      * destruct (IH p eq_refl) as (i & Hi & Hb).
        { apply leb_of_not_ltb; [| |exact El].
          - exact (proj2 (ltb_not_nan _ _ Hd)).
          - exact (proj2 (ltb_not_nan _ _ (positive_nth _ _ _ Hp Ek))). }
        exists i. split; [lia | exact Hb].
    + apply nth_error_None in Ek.
      assert (S k < length ths) by (apply nth_error_Some; congruence). lia.
Qed.

(** With thresholds above zero the bands and the last category leave no gap
    above 0. *)
Lemma positive_depth_covered (ths : list pynum) (d : num) :
  ths <> [] -> positive ths = true -> ltb (num_of_nat 0) d = true ->
  above_last ths d = true \/ exists i, in_band ths i d = true.
Proof.
  intros Hne Hp Hd.
  destruct (above_last_nth ths d Hne) as (tl & Htl & Heq).
  destruct (above_last ths d) eqn:Ea; [now left|]. right.
  symmetry in Heq. unfold gtb in Heq.
  destruct (band_found ths d Hp Hd (length ths - 1) tl Htl) as (i & _ & Hb).
  - apply leb_of_not_ltb; [| |exact Heq].
    + exact (proj2 (ltb_not_nan _ _ Hd)).
    + exact (proj2 (ltb_not_nan _ _ (positive_nth _ _ _ Hp Htl))).
  - eauto.
Qed.

Lemma category_zero_iff (ths : list pynum) (d : num) :
  ths <> [] -> positive ths = true ->
  (cell_category ths d = num_of_nat 0 <-> gtb d (num_of_nat 0) = false).
Proof.
  intros Hne Hp. unfold gtb. split.
  - intros Hc. destruct (ltb (num_of_nat 0) d) eqn:Ed; [|reflexivity].
    exfalso.
    destruct (cell_category_cases ths d Hne)
      as [[_ H] | [[_ (i & _ & _ & _ & H)] | [Ha [Hno _]]]].
    + rewrite Hc in H. apply num_of_nat_inj in H. lia.
    + rewrite Hc in H. apply num_of_nat_inj in H. lia.
    + destruct (positive_depth_covered ths d Hne Hp Ed) as [Ha' | [i Hb]].
      * congruence.
      * rewrite Hno in Hb. discriminate.
  - intros Hd.
    destruct (cell_category_cases ths d Hne)
      as [[Ha _] | [[_ (i & _ & Hb & _)] | [_ [_ H]]]].
    + rewrite (above_last_positive _ _ Hp Ha) in Hd. discriminate.
    + rewrite (in_band_positive _ _ _ Hp Hb) in Hd. discriminate.
    + exact H.
Qed.

Lemma count_ext (p q : num -> bool) (l : list num) :
  (forall x, p x = q x) -> length (filter p l) = length (filter q l).
Proof. intros Hpq. now rewrite (filter_ext p q Hpq). Qed.

(** Counting the cells of a classified grid by a test on the category is
    counting the cells of the depth grid by that test on their category. *)
Lemma sum_classified (ths : list pynum) (g : grid num) (p q : num -> bool) :
  (forall d, p (cell_category ths d) = q d) ->
  Np.sum (grid_map p (grid_map (cell_category ths) g))
  = Np.sum (grid_map q g).
Proof.
  intros Hpq. rewrite !sum_grid_map, concat_grid_map.
  rewrite <- count_map, map_map, count_map. now apply count_ext.
Qed.

(** X3.  With thresholds above zero, sorted or not, a cell is left in
    category 0 exactly when its depth is not above 0 (zero, negative or NaN):
    every depth above 0 falls in a band or above the last threshold.  So
    [np.sum(classified > 0)] counts the cells of depth above 0 and
    [np.sum(classified == 0)] the others. *)
Theorem classify_flooded_iff_positive (depth_array : grid num)
  (thresholds : list pynum) :
  thresholds <> [] ->
  positive thresholds = true ->
  exists classified,
    classify_flood_depth depth_array (Some thresholds) = inr classified
    /\ Forall2 (Forall2 (fun d v =>
         v = num_of_nat 0 <-> gtb d (num_of_nat 0) = false))
         depth_array classified
    /\ Np.sum (gt_scalar classified (num_of_nat 0))
       = Np.sum (gt_scalar depth_array (num_of_nat 0))
    /\ Np.sum (eq_scalar classified (num_of_nat 0))
       = Np.sum (grid_map (fun d => negb (gtb d (num_of_nat 0))) depth_array).
Proof.
  intros Hne Hp. rewrite classify_cells.
  destruct thresholds as [|t l] eqn:E; [congruence|]. rewrite <- E in *.
  eexists. split; [reflexivity|].
  assert (Hz : forall d,
            eqb (cell_category thresholds d) (num_of_nat 0)
            = negb (gtb d (num_of_nat 0))).
  { intros d. destruct (cell_category_range thresholds d Hne) as (k & _ & Hk).
    pose proof (category_zero_iff thresholds d Hne Hp) as Hiff.
    rewrite Hk in *. rewrite eqb_nat.
    destruct (gtb d (num_of_nat 0)); simpl.
    - apply Nat.eqb_neq. intros ->. destruct Hiff as [Hiff _].
      specialize (Hiff eq_refl). discriminate.
    - apply Nat.eqb_eq. apply num_of_nat_inj. now apply Hiff. }
  split; [|split].
  - apply Forall2_grid_map. intros d. now apply category_zero_iff.
  - unfold gt_scalar. apply sum_classified. intros d.
    destruct (cell_category_range thresholds d Hne) as (k & _ & Hk).
    specialize (Hz d). rewrite Hk in *. rewrite eqb_nat in Hz.
    unfold gtb at 1. rewrite ltb_nat.
    destruct (gtb d (num_of_nat 0)); simpl in Hz.
    + apply Nat.eqb_neq in Hz. apply Nat.ltb_lt. lia.
    + apply Nat.eqb_eq in Hz. now subst k.
  - unfold eq_scalar. apply sum_classified. exact Hz.
Qed.

Lemma classify_flooded_iff_positive_witness :
  exists classified,
    classify_flood_depth example_depths (Some [PyInt 3; PyInt 1])
    = inr classified
    /\ Np.sum (gt_scalar classified (num_of_nat 0)) = 5.
Proof.
  destruct (classify_flooded_iff_positive example_depths [PyInt 3; PyInt 1]
              ltac:(discriminate) eq_refl)
    as (classified & Hc & _ & Hsum & _).
  exists classified. split; [exact Hc|]. rewrite Hsum. reflexivity.
Defined.

(** ** Deeper water, higher category *)

Lemma category_monotone (ths : list pynum) (d d' : num) (k k' : nat) :
  ths <> [] -> ascending ths = true -> positive ths = true ->
  leb d d' = true ->
  cell_category ths d = num_of_nat k ->
  cell_category ths d' = num_of_nat k' ->
  k <= k'.
Proof.
  intros Hne Ha Hp Hle Hk Hk'.
  destruct (cell_category_sorted ths d Hne Ha Hp)
    as (k0 & E0 & Hr & _ & Hband & Hlast & _).
  rewrite Hk in E0. apply num_of_nat_inj in E0. subst k0.
  destruct (cell_category_sorted ths d' Hne Ha Hp)
    as (k0 & E0 & Hr' & _ & Hband' & Hlast' & _).
  rewrite Hk' in E0. apply num_of_nat_inj in E0. subst k0.
  destruct (Nat.eq_dec k 0) as [->|Hk0]; [lia|].
  destruct (Nat.eq_dec k (length ths + 1)) as [->|Hkn].
  - (* above the last threshold *)
    assert (Hab : above_last ths d = true) by now apply Hlast.
    destruct (above_last_nth ths d Hne) as (tl & Htl & Heq).
    destruct (above_last_nth ths d' Hne) as (tl' & Htl' & Heq').
    rewrite Htl in Htl'. inversion Htl'; subst tl'.
    rewrite Heq in Hab. unfold gtb in Hab.
    assert (Hab' : above_last ths d' = true).
    { rewrite Heq'. unfold gtb. exact (ltb_leb_trans _ _ _ Hab Hle). }
    apply Hlast' in Hab'. lia.
  - (* in band k - 1 *)
    assert (Hi : k - 1 < length ths) by lia.
    assert (Hb : in_band ths (k - 1) d = true)
      by (apply Hband; [exact Hi | lia]).
    pose proof (in_band_positive _ _ _ Hp Hb) as Hpos.
    assert (Hpos' : ltb (num_of_nat 0) d' = true)
      by exact (ltb_leb_trans _ _ _ Hpos Hle).
    destruct (Nat.eq_dec k' (length ths + 1)) as [->|Hkn']; [lia|].
    destruct (Nat.eq_dec k' 0) as [->|Hk0'].
    { exfalso. apply (category_zero_iff ths d' Hne Hp) in Hk'.
      unfold gtb in Hk'. congruence. }
    assert (Hi' : k' - 1 < length ths) by lia.
    assert (Hb' : in_band ths (k' - 1) d' = true)
      by (apply Hband'; [exact Hi' | lia]).
    destruct (Nat.le_gt_cases k k') as [Hok | Hgt]; [exact Hok|]. exfalso.
    (* d' <= t(k'-1) <= lower bound of band k-1 < d <= d' *)
    apply in_band_true in Hb. destruct Hb as (lo & _ & Hlo & _ & Hgtd & _).
    apply in_band_true in Hb'. destruct Hb' as (_ & t' & _ & Ht' & _ & Hle').
    replace (k - 1) with (S (k - 2)) in Hlo by lia.
    rewrite band_lower_S in Hlo.
    destruct (nth_error ths (k - 2)) as [p|] eqn:Ep; [|discriminate].
    simpl in Hlo. inversion Hlo; subst lo.
    pose proof (ltb_leb_trans _ _ _ (ltb_leb_trans _ _ _ Hgtd Hle) Hle')
      as Hc.
    pose proof (ascending_le ths Ha (k' - 1) (k - 2) t' p _ ltac:(lia)
                  Ht' Ep Hc) as Hc'.
    rewrite ltb_irrefl in Hc'. discriminate.
Qed.

(** X4.  With strictly ascending thresholds above zero the category grows
    with the depth: of two cells, the one whose depth is not lower never gets
    the lower category. *)
Theorem classify_monotone (depth_array : grid num) (thresholds : list pynum) :
  thresholds <> [] ->
  ascending thresholds = true ->
  positive thresholds = true ->
  exists classified,
    classify_flood_depth depth_array (Some thresholds) = inr classified
    /\ forall d v d' v',
         In (d, v) (combine (concat depth_array) (concat classified)) ->
         In (d', v') (combine (concat depth_array) (concat classified)) ->
         leb d d' = true ->
         exists k k', v = num_of_nat k /\ v' = num_of_nat k' /\ k <= k'.
Proof.
  intros Hne Ha Hp. rewrite classify_cells.
  destruct thresholds as [|t l] eqn:E; [congruence|]. rewrite <- E in *.
  eexists. split; [reflexivity|].
  rewrite concat_grid_map.
  assert (Hin : forall d v,
            In (d, v) (combine (concat depth_array)
                         (map (cell_category thresholds)
                            (concat depth_array))) ->
            v = cell_category thresholds d).
  { induction (concat depth_array) as [|x cells IH]; simpl; [contradiction|].
    intros d v [Hx | Hx]; [now inversion Hx | now apply IH]. }
  intros d v d' v' Hd Hd' Hle.
  apply Hin in Hd, Hd'. subst v v'.
  destruct (cell_category_range thresholds d Hne) as (k & _ & Hk).
  destruct (cell_category_range thresholds d' Hne) as (k' & _ & Hk').
  exists k, k'. split; [exact Hk|]. split; [exact Hk'|].
  exact (category_monotone thresholds d d' k k' Hne Ha Hp Hle Hk Hk').
Qed.

Lemma classify_monotone_witness :
  exists classified,
    classify_flood_depth example_depths (Some default_thresholds)
    = inr classified
    /\ length (concat classified) = 9.
Proof.
  destruct (classify_monotone example_depths default_thresholds
              ltac:(discriminate) eq_refl eq_refl) as (classified & Hc & _).
  exists classified. split; [exact Hc|].
  vm_compute in Hc. inversion Hc. reflexivity.
Defined.

(** * Further properties of the aggregator *)

(** ** Categories and bands *)

Lemma category_eqb_band (ths : list pynum) (d : num) (i : nat) :
  ths <> [] -> ascending ths = true -> positive ths = true ->
  i < length ths ->
  eqb (cell_category ths d) (num_of_nat (i + 1)) = in_band ths i d.
Proof.
  intros Hne Ha Hp Hi.
  destruct (cell_category_sorted ths d Hne Ha Hp)
    as (k & -> & _ & _ & Hband & _).
  rewrite eqb_nat. specialize (Hband i Hi).
  destruct (in_band ths i d).
  - apply Nat.eqb_eq. now apply Hband.
  - apply Nat.eqb_neq. intros E. apply Hband in E. discriminate.
Qed.

Lemma category_eqb_last (ths : list pynum) (d : num) :
  ths <> [] -> ascending ths = true -> positive ths = true ->
  eqb (cell_category ths d) (num_of_nat (length ths + 1)) = above_last ths d.
Proof.
  intros Hne Ha Hp.
  destruct (cell_category_sorted ths d Hne Ha Hp)
    as (k & -> & _ & _ & _ & Hlast & _).
  rewrite eqb_nat.
  destruct (above_last ths d).
  - apply Nat.eqb_eq. now apply Hlast.
  - apply Nat.eqb_neq. intros E. apply Hlast in E. discriminate.
Qed.

(** ** Areas are not negative *)

Lemma unit_conversion_nonneg (unit : string) (p pa : Q) (sfx : string) :
  (0 <= p)%Q -> unit_conversion unit p = inr (pa, sfx) -> (0 <= pa)%Q.
Proof.
  intros Hp Hu. destruct (unit_conversion_valid _ _ _ _ Hu) as [f Hin].
  rewrite (unit_conversion_factor _ _ _ _ _ Hin Hu).
  unfold unit_pixel_area. destruct (String.eqb unit "m2"); [exact Hp|].
  apply round_to_nonneg.
  assert (Hf : (0 < Ieee.of_int f)%Q).
  { unfold unit_factors in Hin.
    repeat (destruct Hin as [Hin | Hin];
            [inversion Hin; subst; vm_compute; reflexivity|]).
    destruct Hin. }
  apply Qle_shift_div_l; [exact Hf|]. now rewrite Qmult_0_l.
Qed.

Lemma scaled_nonneg (n : nat) (p : Q) : (0 <= p)%Q -> (0 <= scaled n p)%Q.
Proof.
  intros Hp. unfold scaled. apply round_to_nonneg.
  apply Qmult_le_0_compat; [|exact Hp].
  apply round_to_nonneg. unfold Qle. simpl. lia.
Qed.

Section Signs.

Context `{FloatRepr}.

(** X6.  No area of a returned table is negative, whatever the signs of the
    scales of the transform (a north-up raster has a negative scale-y): the
    pixel area is an absolute value divided by a positive factor, and every
    area is a cell count times it. *)
Theorem areas_not_negative (w : world) (rp sp : string)
  (thresholds : option (list pynum)) (unit : string)
  (log log' : list IO.event) (df : DataFrame) :
  calculate_flood_area_by_village w rp sp thresholds unit log
  = (inr df, log') ->
  forall row k a,
    In row (records df) -> In (k, VNum a) row ->
    k <> "village_id" -> k <> "village_name" -> (0 <= a)%Q.
Proof.
  intros E row k a Hrow Hin Hid Hname. rewrite calculate_run in E.
  inversion E as [[Hr Hl]]. clear E Hl. apply run_result_inr in Hr.
  destruct Hr as (villages & src & data & pa & sfx & Hv & Hs & Hd & Hu & Hf).
  destruct (Forall2_In_r _ _ _ _ Hf Hrow) as ([idx v] & _ & Hrec).
  apply record_of_inr in Hrec.
  destruct Hrec as (band0 & rest & classified & _ & _ & ->).
  apply dict_of_fields_In in Hin. unfold village_fields in Hin.
  destruct Hin as [E | [E | Hin]]; [inversion E; congruence
                                   | inversion E; congruence |].
  apply in_combine_r in Hin. apply in_map_iff in Hin.
  destruct Hin as (n & En & _). inversion En; subst a.
  apply scaled_nonneg.
  exact (unit_conversion_nonneg _ _ _ _ (Qabs_nonneg _) Hu).
Qed.

End Signs.

Lemma areas_not_negative_witness :
  exists df log',
    calculate_flood_area_by_village (H := example_repr)
      (example_world example_villages) "WD-Tr2.tif" "villages.shp" None
      "hectare" []
    = (inr df, log')
    /\ forall row k a,
         In row (records df) -> In (k, VNum a) row ->
         k <> "village_id" -> k <> "village_name" -> (0 <= a)%Q.
Proof.
  destruct (calculate_flood_area_by_village (H := example_repr)
              (example_world example_villages) "WD-Tr2.tif" "villages.shp"
              None "hectare" []) as [[e|df] log'] eqn:E;
    [vm_compute in E; discriminate E|].
  exists df, log'. split; [reflexivity|].
  exact (areas_not_negative (H := example_repr) _ _ _ _ _ _ _ _ E).
Defined.

(** ** The calls of a run *)

Lemma map_snd_enumerate_from {A} (l : list A) (k : nat) :
  map snd (Py.enumerate_from k l) = l.
Proof.
  revert k. induction l as [|x l IH]; intros k; simpl; [reflexivity|].
  now rewrite IH.
Qed.

Section Calls.

Context `{FloatRepr}.

Lemma mask_events_success (src : dataset) (ths : list pynum) (pa : Q)
  (sfx : string) (l : list (nat * village)) (rows : list dict) :
  Forall2 (fun it row => record_of src ths pa sfx it = inr row) l rows ->
  mask_events src ths pa sfx l
  = map (fun it => IO.Mask [village_geometry (snd it)]) l.
Proof.
  induction 1 as [|it row l rows Hrow _ IH]; cbn [mask_events map];
    [reflexivity|].
  now rewrite Hrow, IH.
Qed.

Lemma mask_events_masks (src : dataset) (ths : list pynum) (pa : Q)
  (sfx : string) (l : list (nat * village)) :
  Forall (fun ev => ev = IO.ReadBand 1 \/ exists shapes, ev = IO.Mask shapes)
    (mask_events src ths pa sfx l).
Proof.
  induction l as [|it l IH]; cbn [mask_events]; constructor.
  - right. eauto.
  - destruct (record_of src ths pa sfx it); [constructor | exact IH].
Qed.

(** X7.  A run that returns a table has loaded the layer, opened the raster,
    read band 1, clipped the raster once per village, in the order of the
    layer, and closed the raster: these calls and no other, in this order. *)
Theorem run_clips_each_village_once (w : world) (rp sp : string)
  (thresholds : option (list pynum)) (unit : string)
  (log log' : list IO.event) (df : DataFrame) :
  calculate_flood_area_by_village w rp sp thresholds unit log
  = (inr df, log') ->
  exists villages,
    gpd_read_file w sp = inr villages
    /\ log'
       = log ++ [IO.ReadFile sp; IO.Open rp; IO.ReadBand 1]
           ++ map (fun v => IO.Mask [village_geometry v]) villages
           ++ [IO.Close rp].
Proof.
  rewrite calculate_run. intros E. inversion E as [[Hr Hl]]. clear E.
  apply run_result_inr in Hr.
  destruct Hr as (villages & src & data & pa & sfx & Hv & Hs & Hd & Hu & Hf).
  exists villages. split; [exact Hv|].
  unfold run_events. rewrite Hv, Hs, Hd, Hu. cbn [fst snd app].
  rewrite (mask_events_success _ _ _ _ _ _ Hf).
  unfold Py.enumerate.
  rewrite <- (map_map snd (fun v => IO.Mask [village_geometry v])).
  now rewrite map_snd_enumerate_from.
Qed.

(** X8.  Once the layer is loaded and the raster opens, the raster is closed
    at the end of the run whether the run returns a table or raises: the log
    grows by the load, the open, then only reads of band 1 and clips, and
    last the close. *)
Theorem raster_always_closed (w : world) (rp sp : string)
  (thresholds : option (list pynum)) (unit : string) (log : list IO.event)
  (villages : list village) (src : dataset) :
  gpd_read_file w sp = inr villages ->
  rasterio_open w rp = inr src ->
  exists middle,
    snd (calculate_flood_area_by_village w rp sp thresholds unit log)
    = log ++ [IO.ReadFile sp; IO.Open rp] ++ middle ++ [IO.Close rp]
    /\ Forall
         (fun ev => ev = IO.ReadBand 1 \/ exists shapes, ev = IO.Mask shapes)
         middle.
Proof.
  intros Hv Hs. rewrite calculate_run. cbn [snd].
  unfold run_events. rewrite Hv, Hs. eexists. split; [reflexivity|].
  constructor; [now left|].
  destruct (ds_read src 1); [constructor|].
  destruct (unit_conversion unit _) as [|conv]; [constructor|].
  apply mask_events_masks.
Qed.

(** X9.  An exception of a collaborator before the loop leaves the run as it
    is: when the layer fails to load the raster is not opened; when the
    raster fails to open nothing is read; when band 1 cannot be read the
    raster is closed and no polygon is clipped. *)
Theorem collaborator_error_propagates (w : world) (rp sp : string)
  (thresholds : option (list pynum)) (unit : string) (log : list IO.event)
  (e : Py.exn) :
  (gpd_read_file w sp = inl e ->
   calculate_flood_area_by_village w rp sp thresholds unit log
   = (inl e, log ++ [IO.ReadFile sp]))
  /\ (forall villages,
        gpd_read_file w sp = inr villages ->
        rasterio_open w rp = inl e ->
        calculate_flood_area_by_village w rp sp thresholds unit log
        = (inl e, log ++ [IO.ReadFile sp; IO.Open rp]))
  /\ (forall villages src,
        gpd_read_file w sp = inr villages ->
        rasterio_open w rp = inr src ->
        ds_read src 1 = inl e ->
        calculate_flood_area_by_village w rp sp thresholds unit log
        = (inl e,
           log ++ [IO.ReadFile sp; IO.Open rp; IO.ReadBand 1; IO.Close rp])).
Proof.
  rewrite calculate_run. unfold run_result, run_events. split; [|split].
  - intros Hv. rewrite Hv. reflexivity.
  - intros villages Hv Hs. rewrite Hv, Hs. reflexivity.
  - intros villages src Hv Hs Hd. rewrite Hv, Hs. cbn [Py.bind].
    rewrite Hd. reflexivity.
Qed.

(** X10.  A layer with no village gives the empty table for every valid
    unit, whatever the thresholds, the empty list included: the raster is
    opened, band 1 is read, nothing is clipped or classified. *)
Theorem empty_layer_empty_table (w : world) (rp sp : string)
  (thresholds : option (list pynum)) (unit : string) (log : list IO.event)
  (src : dataset) (data : grid num) :
  gpd_read_file w sp = inr [] ->
  rasterio_open w rp = inr src ->
  ds_read src 1 = inr data ->
  In unit ["m2"; "km2"; "hectare"; "rai"] ->
  calculate_flood_area_by_village w rp sp thresholds unit log
  = (inr (pd_DataFrame []),
     log ++ [IO.ReadFile sp; IO.Open rp; IO.ReadBand 1; IO.Close rp]).
Proof.
  intros Hv Hs Hd Hu. rewrite calculate_run.
  unfold run_result, run_events. rewrite Hv. cbn [Py.bind].
  rewrite Hs. cbn [Py.bind]. rewrite Hd. cbn [Py.bind].
  destruct (unit_conversion unit _) as [e|[pa sfx]] eqn:Eu.
  - exfalso. unfold unit_conversion in Eu.
    destruct Hu as [<- | [<- | [<- | [<- | []]]]]; discriminate Eu.
  - reflexivity.
Qed.

(** X11.  With the empty threshold list and a layer whose first village is
    clipped without error, the run raises the IndexError of the classifier
    after this one clip; the raster is closed and no table is returned. *)
Theorem empty_thresholds_abort_run (w : world) (rp sp : string)
  (unit : string) (log : list IO.event) (v : village)
  (villages : list village) (src : dataset) (data band0 : grid num)
  (rest : list (grid num)) :
  gpd_read_file w sp = inr (v :: villages) ->
  rasterio_open w rp = inr src ->
  ds_read src 1 = inr data ->
  In unit ["m2"; "km2"; "hectare"; "rai"] ->
  ds_mask src [village_geometry v] = inr (band0 :: rest) ->
  calculate_flood_area_by_village w rp sp (Some []) unit log
  = (inl (Py.IndexError "list index out of range"),
     log ++ [IO.ReadFile sp; IO.Open rp; IO.ReadBand 1;
             IO.Mask [village_geometry v]; IO.Close rp]).
Proof.
  intros Hv Hs Hd Hu Hm. rewrite calculate_run.
  unfold run_result, run_events. rewrite Hv. cbn [Py.bind].
  rewrite Hs. cbn [Py.bind]. rewrite Hd. cbn [Py.bind].
  destruct (unit_conversion unit _) as [e|[pa sfx]] eqn:Eu.
  { exfalso. unfold unit_conversion in Eu.
    destruct Hu as [<- | [<- | [<- | [<- | []]]]]; discriminate Eu. }
  cbn [Py.bind fst snd effective_thresholds]. unfold Py.enumerate.
  cbn [Py.enumerate_from mask_events]. rewrite collect_records_cons.
  assert (Hrec : record_of src [] pa sfx (0, v)
                 = inl (Py.IndexError "list index out of range")).
  { unfold record_of. cbn [fst snd]. rewrite Hm. cbn [Py.bind].
    unfold Py.getitem, Py.ret. cbn [nth_error Py.bind].
    now rewrite classify_cells. }
  rewrite Hrec. reflexivity.
Qed.

End Calls.

Lemma run_clips_each_village_once_witness :
  exists df,
    calculate_flood_area_by_village (H := example_repr)
      (example_world example_villages) "WD-Tr2.tif" "villages.shp" None "m2" []
    = (inr df,
       [IO.ReadFile "villages.shp"; IO.Open "WD-Tr2.tif"; IO.ReadBand 1;
        IO.Mask [example_square]; IO.Mask [example_square];
        IO.Close "WD-Tr2.tif"]).
Proof.
  destruct (calculate_flood_area_by_village (H := example_repr)
              (example_world example_villages) "WD-Tr2.tif" "villages.shp"
              None "m2" []) as [[e|df] log'] eqn:E;
    [vm_compute in E; discriminate E|].
  exists df. f_equal.
  destruct (run_clips_each_village_once (H := example_repr) _ _ _ _ _ _ _ _ E)
    as (villages & Hv & ->).
  inversion Hv; subst villages. reflexivity.
Defined.

Lemma raster_always_closed_witness :
  exists middle,
    snd (calculate_flood_area_by_village (H := example_repr)
           (example_world [ {| village_geometry := [];
                               village_attrs := [] |} ])
           "WD-Tr2.tif" "villages.shp" None "m2" [])
    = [] ++ [IO.ReadFile "villages.shp"; IO.Open "WD-Tr2.tif"] ++ middle
        ++ [IO.Close "WD-Tr2.tif"]
    /\ Forall
         (fun ev => ev = IO.ReadBand 1 \/ exists shapes, ev = IO.Mask shapes)
         middle.
Proof.
  exact (raster_always_closed (H := example_repr)
           (example_world [ {| village_geometry := [];
                               village_attrs := [] |} ])
           "WD-Tr2.tif" "villages.shp" None "m2" [] _ example_raster
           eq_refl eq_refl).
Defined.

Lemma collaborator_error_propagates_witness :
  calculate_flood_area_by_village (H := example_repr)
    {| gpd_read_file := fun _ => inl (Py.Exn "DriverError" "no such file");
       rasterio_open := fun _ => inr example_raster |}
    "WD-Tr2.tif" "villages.shp" None "m2" []
  = (inl (Py.Exn "DriverError" "no such file"), [IO.ReadFile "villages.shp"]).
Proof.
  exact (proj1 (collaborator_error_propagates (H := example_repr)
                  {| gpd_read_file :=
                       fun _ => inl (Py.Exn "DriverError" "no such file");
                     rasterio_open := fun _ => inr example_raster |}
                  "WD-Tr2.tif" "villages.shp" None "m2" []
                  (Py.Exn "DriverError" "no such file"))
           eq_refl).
Defined.

Lemma empty_layer_empty_table_witness :
  calculate_flood_area_by_village (H := example_repr)
    (example_world []) "WD-Tr2.tif" "villages.shp" (Some []) "rai" []
  = (inr (pd_DataFrame []),
     [IO.ReadFile "villages.shp"; IO.Open "WD-Tr2.tif"; IO.ReadBand 1;
      IO.Close "WD-Tr2.tif"]).
Proof.
  apply (empty_layer_empty_table (H := example_repr) (example_world [])
           "WD-Tr2.tif" "villages.shp" (Some []) "rai" []
           example_raster example_depths eq_refl eq_refl eq_refl).
  simpl. auto 6.
Defined.

Lemma empty_thresholds_abort_run_witness :
  calculate_flood_area_by_village (H := example_repr)
    (example_world example_villages) "WD-Tr2.tif" "villages.shp" (Some [])
    "m2" []
  = (inl (Py.IndexError "list index out of range"),
     [IO.ReadFile "villages.shp"; IO.Open "WD-Tr2.tif"; IO.ReadBand 1;
      IO.Mask [example_square]; IO.Close "WD-Tr2.tif"]).
Proof.
  apply (empty_thresholds_abort_run (H := example_repr)
           (example_world example_villages) "WD-Tr2.tif" "villages.shp" "m2"
           [] _ _ example_raster example_depths example_depths []
           eq_refl eq_refl eq_refl).
  - simpl. auto.
  - reflexivity.
Defined.

(** ** What a run depends on *)

Section Dependence.

Context `{FloatRepr}.

Variables (src src' : dataset) (ths : list pynum) (pa : Q) (sfx : string).

Hypothesis Hmask : forall shapes, ds_mask src shapes = ds_mask src' shapes.

Lemma record_of_same_clips (it : nat * village) :
  record_of src ths pa sfx it = record_of src' ths pa sfx it.
Proof. unfold record_of. now rewrite Hmask. Qed.

Lemma collect_records_same_clips (l : list (nat * village)) :
  forall acc,
    collect_records src ths pa sfx l acc
    = collect_records src' ths pa sfx l acc.
Proof.
  induction l as [|it l IH]; intros acc; [reflexivity|].
  rewrite !collect_records_cons, record_of_same_clips.
  destruct (record_of src' ths pa sfx it); [reflexivity | apply IH].
Qed.

Lemma mask_events_same_clips (l : list (nat * village)) :
  mask_events src ths pa sfx l = mask_events src' ths pa sfx l.
Proof.
  induction l as [|it l IH]; cbn [mask_events]; [reflexivity|].
  rewrite record_of_same_clips, IH. reflexivity.
Qed.

End Dependence.

Section Unused.

Context `{FloatRepr}.

(** X12.  The grid that [src.read(1)] returns is not used: two runs whose
    layers, transforms and clips agree, and whose reads of band 1 both
    succeed, return the same result and make the same calls whatever the two
    reads return. *)
Theorem band_read_not_used (w w' : world) (rp sp : string)
  (thresholds : option (list pynum)) (unit : string) (log : list IO.event)
  (src src' : dataset) (data data' : grid num) :
  gpd_read_file w sp = gpd_read_file w' sp ->
  rasterio_open w rp = inr src ->
  rasterio_open w' rp = inr src' ->
  transform_a src = transform_a src' ->
  transform_e src = transform_e src' ->
  (forall shapes, ds_mask src shapes = ds_mask src' shapes) ->
  ds_read src 1 = inr data ->
  ds_read src' 1 = inr data' ->
  calculate_flood_area_by_village w rp sp thresholds unit log
  = calculate_flood_area_by_village w' rp sp thresholds unit log.
Proof.
  intros Hv Hs Hs' Ha He Hm Hd Hd'. rewrite !calculate_run.
  unfold run_result, run_events. rewrite <- Hv.
  destruct (gpd_read_file w sp) as [e|villages]; [reflexivity|].
  cbn [Py.bind]. rewrite Hs, Hs'. cbn [Py.bind]. rewrite Hd, Hd'.
  cbn [Py.bind]. rewrite <- Ha, <- He.
  destruct (unit_conversion unit _) as [e|[pa sfx]]; [reflexivity|].
  cbn [Py.bind fst snd].
  rewrite (collect_records_same_clips src src' _ pa sfx Hm).
  rewrite (mask_events_same_clips src src' _ pa sfx Hm).
  reflexivity.
Qed.

End Unused.

Lemma band_read_not_used_witness :
  calculate_flood_area_by_village (H := example_repr)
    (example_world example_villages) "WD-Tr2.tif" "villages.shp" None "m2" []
  = calculate_flood_area_by_village (H := example_repr)
      (example_world_of
         {| ds_read := fun _ => inr [[NaN]];
            transform_a := 10;
            transform_e := -10;
            ds_mask := ds_mask example_raster |}
         example_villages)
      "WD-Tr2.tif" "villages.shp" None "m2" [].
Proof.
  apply (band_read_not_used (H := example_repr)
           (example_world example_villages)
           (example_world_of
              {| ds_read := fun _ => inr [[NaN]];
                 transform_a := 10;
                 transform_e := -10;
                 ds_mask := ds_mask example_raster |}
              example_villages)
           "WD-Tr2.tif" "villages.shp" None "m2" [] example_raster
           {| ds_read := fun _ => inr [[NaN]];
              transform_a := 10;
              transform_e := -10;
              ds_mask := ds_mask example_raster |}
           example_depths [[NaN]]); reflexivity.
Defined.

(** ** Villages without identifier or name *)

Lemma str_of_nat_inj (i j : nat) :
  Py.str_of_int (Z.of_nat i) = Py.str_of_int (Z.of_nat j) -> i = j.
Proof.
  unfold Py.str_of_int. intros E.
  apply (f_equal NilEmpty.int_of_string) in E.
  rewrite !NilEmpty.isi in E. inversion E as [E'].
  apply (f_equal Z.of_int) in E'. rewrite !DecimalZ.of_to in E'. lia.
Qed.

Lemma dict_get_None (d : dict) (k : string) :
  dict_get d k = None <-> ~ In k (dict_keys d).
Proof.
  induction d as [|[k' v] d IH]; simpl; [tauto|].
  destruct (String.eqb k' k) eqn:E.
  - apply String.eqb_eq in E. split; [discriminate|]. intros Hn. tauto.
  - apply String.eqb_neq in E. rewrite IH. tauto.
Qed.

Lemma same_columns_None (villages : list village) (key : string)
  (v v' : village) :
  same_columns villages = true ->
  In v villages -> In v' villages ->
  dict_get (village_attrs v) key = None ->
  dict_get (village_attrs v') key = None.
Proof.
  intros Hs Hv Hv'. rewrite !dict_get_None.
  assert (Hk : forall u, In u villages ->
               dict_keys (village_attrs u)
               = dict_keys (village_attrs (hd v villages))).
  { destruct villages as [|v0 rest]; [contradiction|]. cbn [hd].
    intros u [<- | Hu]; [reflexivity|].
    cbn [same_columns] in Hs. rewrite forallb_forall in Hs.
    specialize (Hs u Hu).
    destruct (list_eq_dec string_dec (dict_keys (village_attrs v0))
                (dict_keys (village_attrs u))); [auto|discriminate]. }
  rewrite (Hk v Hv), (Hk v' Hv'). auto.
Qed.

Section Fallback.

Context `{FloatRepr}.

(** X13.  The rows of a layer share its columns.  When the layer has no
    column ADM3_EN, every record of a returned table gets its position [i]
    as identifier, and when it has no column ADM3_TH every record gets the
    name "Village_{i}", each independently of the other; a village that has
    the attribute gives its value to the record; and the made-up names
    differ from one position to another. *)
Theorem identifier_fallback (w : world) (rp sp : string)
  (thresholds : option (list pynum)) (unit : string)
  (log log' : list IO.event) (df : DataFrame) (villages : list village) :
  gpd_read_file w sp = inr villages ->
  same_columns villages = true ->
  calculate_flood_area_by_village w rp sp thresholds unit log
  = (inr df, log') ->
  ((exists v, In v villages /\ dict_get (village_attrs v) "ADM3_EN" = None) ->
   forall i row,
     nth_error (records df) i = Some row ->
     dict_get row "village_id" = Some (VInt (Z.of_nat i)))
  /\ ((exists v,
         In v villages /\ dict_get (village_attrs v) "ADM3_TH" = None) ->
      forall i row,
        nth_error (records df) i = Some row ->
        dict_get row "village_name"
        = Some (VStr ("Village_" ++ Py.str_of_int (Z.of_nat i))%string))
  /\ (forall i v row,
        nth_error villages i = Some v ->
        nth_error (records df) i = Some row ->
        (forall x, dict_get (village_attrs v) "ADM3_EN" = Some x ->
                   dict_get row "village_id" = Some x)
        /\ (forall x, dict_get (village_attrs v) "ADM3_TH" = Some x ->
                      dict_get row "village_name" = Some x))
  /\ (forall i j,
        ("Village_" ++ Py.str_of_int (Z.of_nat i))%string
        = ("Village_" ++ Py.str_of_int (Z.of_nat j))%string ->
        i = j).
Proof.
  intros Hv Hsame. rewrite calculate_run. intros E.
  inversion E as [[Hr Hl]]. clear E Hl.
  apply run_result_inr in Hr.
  destruct Hr as (villages' & src & data & pa & sfx & Hv' & Hs & Hd & Hu & Hf).
  rewrite Hv in Hv'. inversion Hv'; subst villages'. clear Hv'.
  assert (Hrow : forall i row,
            nth_error (records df) i = Some row ->
            exists v,
              nth_error villages i = Some v
              /\ dict_get row "village_id"
                 = Some (village_get v "ADM3_EN" (VInt (Z.of_nat i)))
              /\ dict_get row "village_name"
                 = Some (village_get v "ADM3_TH"
                           (VStr ("Village_"
                                    ++ Py.str_of_int (Z.of_nat i))%string))).
  { intros i row Hrow.
    assert (Hlen : i < length villages).
    { apply Forall2_length in Hf. unfold Py.enumerate in Hf.
      rewrite length_enumerate_from in Hf. rewrite Hf.
      apply nth_error_Some. congruence. }
    destruct (nth_error villages i) as [v|] eqn:Hi;
      [|apply nth_error_None in Hi; lia].
    exists v. split; [reflexivity|].
    assert (Hit : nth_error (Py.enumerate villages) i = Some (i, v)).
    { unfold Py.enumerate. now rewrite nth_error_enumerate_from, Hi. }
    destruct (Forall2_nth_error_l _ _ _ Hf i _ Hit) as (row' & Hrow' & Hrec).
    rewrite Hrow in Hrow'. inversion Hrow'; subst row'.
    apply record_of_inr in Hrec.
    destruct Hrec as (band0 & rest & classified & _ & _ & ->).
    exact (village_fields_id_name (effective_thresholds thresholds)
             classified _ pa unit sfx i v Hu). }
  split; [|split; [|split]].
  - intros (v0 & Hin0 & Hnone) i row Hi.
    destruct (Hrow i row Hi) as (v & Hvi & Hid & _).
    rewrite Hid. unfold village_get.
    rewrite (same_columns_None villages _ v0 v Hsame Hin0
               (nth_error_In _ _ Hvi) Hnone).
    reflexivity.
  - intros (v0 & Hin0 & Hnone) i row Hi.
    destruct (Hrow i row Hi) as (v & Hvi & _ & Hname).
    rewrite Hname. unfold village_get.
    rewrite (same_columns_None villages _ v0 v Hsame Hin0
               (nth_error_In _ _ Hvi) Hnone).
    reflexivity.
  - intros i v row Hvi Hi.
    destruct (Hrow i row Hi) as (v' & Hvi' & Hid & Hname).
    rewrite Hvi in Hvi'. inversion Hvi'; subst v'.
    rewrite Hid, Hname. unfold village_get.
    split; intros x Hx; now rewrite Hx.
  - intros i j E. apply str_of_nat_inj.
    simpl in E. now inversion E.
Qed.

End Fallback.

Lemma identifier_fallback_witness :
  exists df log',
    calculate_flood_area_by_village (H := example_repr)
      (example_world example_layer) "WD-Tr2.tif" "villages.shp" None "m2" []
    = (inr df, log')
    /\ map (fun row => dict_get row "village_name") (records df)
       = [Some (VStr "Village_0"); Some (VStr "Village_1")]
    /\ map (fun row => dict_get row "village_id") (records df)
       = [Some (VStr "Nai Mueang"); Some (VStr "Pak Nam")].
Proof.
  destruct (calculate_flood_area_by_village (H := example_repr)
              (example_world example_layer) "WD-Tr2.tif" "villages.shp"
              None "m2" []) as [[e|df] log'] eqn:E;
    [vm_compute in E; discriminate E|].
  exists df, log'. split; [reflexivity|].
  destruct (identifier_fallback (H := example_repr)
              (example_world example_layer) "WD-Tr2.tif" "villages.shp" None
              "m2" [] log' df example_layer eq_refl eq_refl E)
    as (_ & Hname & Hid & _).
  assert (Hlen : length (records df) = 2)
    by (vm_compute in E; inversion E; reflexivity).
  destruct (records df) as [|r0 [|r1 [|r2 rest]]]; try discriminate Hlen.
  cbn [map]. split.
  - rewrite (Hname ltac:(eexists; split; [left; reflexivity | reflexivity])
               0 r0 eq_refl).
    rewrite (Hname ltac:(eexists; split; [left; reflexivity | reflexivity])
               1 r1 eq_refl).
    reflexivity.
  - rewrite (proj1 (Hid 0 _ r0 eq_refl eq_refl) _ eq_refl).
    rewrite (proj1 (Hid 1 _ r1 eq_refl eq_refl) _ eq_refl).
    reflexivity.
Defined.

(** ** Grids in blocks, infinite depths *)

(** X14.  Classifying a grid made of two blocks of rows is classifying each
    block and stacking the results, errors included: the category of a cell
    depends on no other cell. *)
Theorem classify_rows_append (g1 g2 : grid num)
  (thresholds : option (list pynum)) :
  classify_flood_depth (g1 ++ g2) thresholds
  = (c1 <- classify_flood_depth g1 thresholds ;;
     c2 <- classify_flood_depth g2 thresholds ;;
     Py.ret (c1 ++ c2)).
Proof.
  assert (Heq : forall g,
            classify_flood_depth g thresholds
            = classify_flood_depth g
                (Some (effective_thresholds thresholds)))
    by (intros g; destruct thresholds; reflexivity).
  rewrite !Heq, !classify_cells.
  destruct (effective_thresholds thresholds); [reflexivity|].
  cbn [Py.bind]. unfold Py.ret, grid_map. now rewrite map_app.
Qed.

Lemma in_band_ninf (ths : list pynum) (i : nat) : in_band ths i NInf = false.
Proof.
  unfold in_band. destruct (band_lower ths i) as [lo|]; [|reflexivity].
  destruct (nth_error ths i); [|reflexivity].
  unfold gtb. now destruct lo.
Qed.

Lemma above_last_ninf (ths : list pynum) : above_last ths NInf = false.
Proof.
  unfold above_last. destruct ths as [|t l]; [reflexivity|].
  unfold gtb. now destruct (py_value (last l t)).
Qed.

(** X15.  For every non-empty threshold list a cell of depth -inf is left in
    category 0, and when every threshold is a finite number a cell of depth
    +inf gets the last category n+1. *)
Theorem classify_infinite_depths (depth_array : grid num)
  (thresholds : list pynum) :
  thresholds <> [] ->
  exists classified,
    classify_flood_depth depth_array (Some thresholds) = inr classified
    /\ Forall2 (Forall2 (fun d v =>
         (d = NInf -> v = num_of_nat 0)
         /\ (d = PInf ->
             (forall t, In t thresholds -> exists q, py_value t = Fin q) ->
             v = num_of_nat (length thresholds + 1))))
         depth_array classified.
Proof.
  intros Hne. rewrite classify_cells.
  destruct thresholds as [|t0 l] eqn:E; [congruence|]. rewrite <- E in *.
  eexists. split; [reflexivity|].
  apply Forall2_grid_map. intros d. split.
  - intros ->. apply cell_category_unmatched; auto using in_band_ninf,
                 above_last_ninf.
  - intros -> Hfin.
    destruct (above_last_nth thresholds PInf Hne) as (tl & Htl & Heq).
    destruct (Hfin tl (nth_error_In _ _ Htl)) as [q Hq].
    destruct (cell_category_cases thresholds PInf Hne)
      as [[_ H] | [[Ha _] | [Ha _]]]; [exact H | |];
      rewrite Heq, Hq in Ha; discriminate Ha.
Qed.

Lemma classify_infinite_depths_witness :
  exists classified,
    classify_flood_depth [[NInf; PInf]] (Some default_thresholds)
    = inr classified
    /\ classified = [[num_of_nat 0; num_of_nat 5]].
Proof.
  destruct (classify_infinite_depths [[NInf; PInf]] default_thresholds
              ltac:(discriminate)) as (classified & Hc & _).
  exists classified. split; [exact Hc|].
  vm_compute in Hc. inversion Hc. reflexivity.
Defined.

(** * The classifier on an array with its dtype *)

(** ** The conversion of the thresholds *)

Lemma num_same_eq (x y : num) : Dtyped.num_same x y = true -> x = y.
Proof.
  destruct x as [[a b]| | |], y as [[c d]| | |]; simpl; try discriminate; auto.
  intros H. apply andb_true_iff in H. destruct H as [H1 H2].
  apply Z.eqb_eq in H1. apply Pos.eqb_eq in H2. now subst.
Qed.

Lemma categories_fit_store (dt : Dtyped.dtype) (n k : nat) :
  Dtyped.categories_fit dt n = true -> k <= n + 1 ->
  Dtyped.store dt k = inr (num_of_nat k).
Proof.
  unfold Dtyped.categories_fit. intros H Hk.
  rewrite forallb_forall in H. specialize (H k).
  destruct (Dtyped.store dt k) as [e|v].
  - discriminate H. apply in_seq. lia.
  - f_equal. apply num_same_eq, H, in_seq. lia.
Qed.

Lemma scalar_as_zero (dt : Dtyped.dtype) :
  Dtyped.scalar_as dt (PyInt 0) = inr (num_of_nat 0).
Proof. destruct dt; reflexivity. Qed.

(** Each converted threshold is what the array compares its cells with. *)
Lemma converted_Forall2 (dt : Dtyped.dtype) (ths cths : list pynum) :
  Dtyped.converted dt ths = inr cths ->
  Forall2 (fun t c => Dtyped.scalar_as dt t = inr (py_value c)) ths cths.
Proof.
  revert cths. induction ths as [|t l IH]; simpl; intros cths H.
  - inversion H. constructor.
  - destruct (Dtyped.scalar_as dt t) as [e|v] eqn:Ev; [discriminate|].
    simpl in H. destruct (Dtyped.converted dt l) as [e|vs]; [discriminate|].
    simpl in H. inversion H; subst. constructor; [exact Ev|]. now apply IH.
Qed.

Lemma converted_length (dt : Dtyped.dtype) (ths cths : list pynum) :
  Dtyped.converted dt ths = inr cths -> length cths = length ths.
Proof.
  intros H. symmetry. exact (Forall2_length (converted_Forall2 _ _ _ H)).
Qed.

(** ** The array classifier is the cell classifier on the converted
    thresholds *)

Lemma Forall2_last {A B} (R : A -> B -> Prop) (l : list A) (m : list B)
  (a : A) (b : B) :
  R a b -> Forall2 R l m -> R (List.last l a) (List.last m b).
Proof.
  intros Hab H. revert a b Hab.
  induction H as [|x y l m Hxy H IH]; intros a b Hab; [exact Hab|].
  destruct H; [exact Hxy|]. cbn [List.last]. apply IH. exact Hab.
Qed.

Lemma getitem_last_Forall2 {A B} (R : A -> B -> Prop) (l : list A)
  (m : list B) :
  Forall2 R l m ->
  (l = [] /\ m = [])
  \/ exists a b,
       Py.getitem_last l = inr a /\ Py.getitem_last m = inr b /\ R a b.
Proof.
  intros [|a b l' m' Hab H]; [now left|]. right.
  exists (List.last l' a), (List.last m' b).
  split; [reflexivity|]. split; [reflexivity|]. now apply Forall2_last.
Qed.

Section Converted.

Variables (dt : Dtyped.dtype) (g : grid num) (ths cths : list pynum).

Let conv (t c : pynum) : Prop := Dtyped.scalar_as dt t = inr (py_value c).

Hypothesis Hconv : Forall2 conv ths cths.

Hypothesis Hfit :
  forall k, k <= length ths + 1 -> Dtyped.store dt k = inr (num_of_nat k).

Lemma setitem_fit (cl : grid num) (mask : grid bool) (k : nat) :
  k <= length ths + 1 ->
  Dtyped.setitem (Dtyped.NdArray dt cl) mask k
  = (cells <- setmask cl mask (num_of_nat k) ;;
     Py.ret (Dtyped.NdArray dt cells)).
Proof.
  intros Hk. unfold Dtyped.setitem. cbn [Dtyped.nd_dtype Dtyped.nd_cells].
  rewrite (Hfit k Hk). reflexivity.
Qed.

Lemma nd_classify_band (i : nat) (t c : pynum) (cl : grid num) :
  nth_error ths i = Some t -> nth_error cths i = Some c ->
  Dtyped.classify_band (Dtyped.NdArray dt g) ths (i, t) (Dtyped.NdArray dt cl)
  = (cells <- classify_band g cths (i, c) cl ;;
     Py.ret (Dtyped.NdArray dt cells)).
Proof.
  intros Ht Hc.
  assert (Hi : i < length ths) by (apply nth_error_Some; congruence).
  assert (Htc : conv t c).
  { destruct (Forall2_nth_error_l _ _ _ Hconv _ _ Ht) as (c' & Hc' & H').
    rewrite Hc in Hc'. inversion Hc'; subst. exact H'. }
  unfold Dtyped.classify_band, classify_band, Dtyped.gt, Dtyped.le.
  cbn [Dtyped.nd_dtype Dtyped.nd_cells].
  destruct (Nat.eqb i 0).
  - rewrite scalar_as_zero. cbn [Py.bind Py.ret]. rewrite Htc.
    cbn [Py.bind Py.ret]. apply setitem_fit. lia.
  - unfold Py.getitem.
    destruct (nth_error ths (i - 1)) as [p|] eqn:Ep.
    + destruct (Forall2_nth_error_l _ _ _ Hconv _ _ Ep) as (cp & Hcp & Hp).
      rewrite Hcp. cbn [Py.bind Py.ret]. rewrite Hp, Htc.
      cbn [Py.bind Py.ret]. apply setitem_fit. lia.
    + apply nth_error_None in Ep. lia.
Qed.

Lemma nd_classify_loop :
  forall (l lc : list pynum) (k : nat) (cl : grid num),
    Forall2 conv l lc ->
    (forall j t, nth_error l j = Some t -> nth_error ths (k + j) = Some t) ->
    (forall j c, nth_error lc j = Some c -> nth_error cths (k + j) = Some c) ->
    Py.for_each (Py.enumerate_from k l)
      (Dtyped.classify_band (Dtyped.NdArray dt g) ths) (Dtyped.NdArray dt cl)
    = (cells <- Py.for_each (Py.enumerate_from k lc)
                  (classify_band g cths) cl ;;
       Py.ret (Dtyped.NdArray dt cells)).
Proof.
  intros l lc k cl H. revert k cl.
  induction H as [|t c l lc Htc _ IH]; intros k cl Hl Hlc;
    cbn [Py.enumerate_from Py.for_each]; [reflexivity|].
  rewrite (nd_classify_band k t c).
  - destruct (classify_band g cths (k, c) cl) as [e|cl']; [reflexivity|].
    cbn [Py.bind Py.ret]. apply IH.
    + intros j x Hj. replace (S k + j) with (k + S j) by lia. now apply Hl.
    + intros j x Hj. replace (S k + j) with (k + S j) by lia. now apply Hlc.
  - rewrite <- (Nat.add_0_r k). now apply Hl.
  - rewrite <- (Nat.add_0_r k). now apply Hlc.
Qed.

Lemma nd_classify :
  Dtyped.classify_flood_depth (Dtyped.NdArray dt g) (Some ths)
  = (cells <- classify_flood_depth g (Some cths) ;;
     Py.ret (Dtyped.NdArray dt cells)).
Proof.
  unfold Dtyped.classify_flood_depth, classify_flood_depth, Dtyped.eq,
    Dtyped.gt, Dtyped.zeros_like.
  cbn [Dtyped.nd_dtype Dtyped.nd_cells].
  rewrite scalar_as_zero. cbn [Py.bind Py.ret].
  rewrite setitem_fit by lia.
  destruct (setmask (zeros_like g) (eq_scalar g (num_of_nat 0)) (num_of_nat 0))
    as [e|cl]; [reflexivity|].
  cbn [Py.bind Py.ret]. unfold Py.enumerate.
  rewrite (nd_classify_loop ths cths 0 cl Hconv) by auto.
  destruct (Py.for_each (Py.enumerate_from 0 cths) (classify_band g cths) cl)
    as [e|cl']; [reflexivity|].
  cbn [Py.bind Py.ret].
  destruct (getitem_last_Forall2 _ _ _ Hconv)
    as [[E1 E2] | (t & c & Et & Ec & Htc)].
  - rewrite E1, E2. reflexivity.
  - rewrite Et, Ec. cbn [Py.bind Py.ret]. unfold conv in Htc. rewrite Htc.
    cbn [Py.bind Py.ret]. rewrite setitem_fit by lia.
    rewrite (Forall2_length Hconv). reflexivity.
Qed.

End Converted.

(** When every threshold converts and the dtype holds the categories, the
    array classifier returns the array, of the dtype of the depth array, of
    the cells that the cell classifier computes from the converted
    thresholds; it raises what the cell classifier raises. *)
Lemma classify_converted (a : Dtyped.ndarray) (ths cths : list pynum) :
  Dtyped.converted (Dtyped.nd_dtype a) ths = inr cths ->
  Dtyped.categories_fit (Dtyped.nd_dtype a) (length ths) = true ->
  Dtyped.classify_flood_depth a (Some ths)
  = (cells <- classify_flood_depth (Dtyped.nd_cells a) (Some cths) ;;
     Py.ret (Dtyped.NdArray (Dtyped.nd_dtype a) cells)).
Proof.
  intros Hc Hf. destruct a as [dt g].
  cbn [Dtyped.nd_dtype Dtyped.nd_cells] in *.
  apply nd_classify.
  - exact (converted_Forall2 _ _ _ Hc).
  - intros k Hk. exact (categories_fit_store _ _ _ Hf Hk).
Qed.

(** A float64 array compares with a Python float as it is. *)
Lemma converted_float64 (ths : list pynum) :
  Forall (fun t => exists x, t = PyFloat x) ths ->
  Dtyped.converted Dtyped.float64 ths = inr ths.
Proof.
  induction 1 as [|t l [x ->] _ IH]; [reflexivity|].
  cbn [Dtyped.converted Dtyped.scalar_as Dtyped.as_float64 Py.bind Py.ret].
  rewrite IH. reflexivity.
Qed.

(** ** The claims on the array classifier *)

(** C1 (amended: thresholds as the array compares them, above zero).  For
    every depth array and every non-empty list of [n] thresholds that, once
    converted to the dtype of the array, are strictly ascending and above
    zero, the dtype holding the categories 0 to n+1, the classifier returns
    an array in which each cell holds one category [k] in 0..n+1: [k] is 0
    when the depth equals 0, [k] is [i+1] exactly when the depth is in band
    [i] of the converted thresholds (above the previous one, or above 0 for
    the first band, and at most the [i]-th), [k] is [n+1] exactly when the
    depth is above the last converted threshold, and a depth equal to the
    [i]-th converted threshold gets category [i+1], the band below it. *)
Theorem classify_bands_partition (depth_array : Dtyped.ndarray)
  (thresholds converted : list pynum) :
  thresholds <> [] ->
  Dtyped.converted (Dtyped.nd_dtype depth_array) thresholds = inr converted ->
  ascending converted = true ->
  positive converted = true ->
  Dtyped.categories_fit (Dtyped.nd_dtype depth_array) (length thresholds)
  = true ->
  exists classified,
    Dtyped.classify_flood_depth depth_array (Some thresholds) = inr classified
    /\ Forall2 (Forall2 (fun d v =>
         exists k,
           v = num_of_nat k
           /\ k <= length thresholds + 1
           /\ (eqb d (num_of_nat 0) = true -> k = 0)
           /\ (forall i, i < length thresholds ->
                         (k = i + 1 <-> in_band converted i d = true))
           /\ (k = length thresholds + 1 <-> above_last converted d = true)
           /\ (forall i t, nth_error converted i = Some t ->
                           eqb d (py_value t) = true -> k = i + 1)))
         (Dtyped.nd_cells depth_array) (Dtyped.nd_cells classified).
Proof.
  intros Hne Hc Ha Hp Hf. rewrite (classify_converted _ _ _ Hc Hf).
  pose proof (converted_length _ _ _ Hc) as Hlen. rewrite <- Hlen.
  assert (Hne' : converted <> [])
    by (destruct converted, thresholds; try discriminate; congruence).
  rewrite classify_cells.
  destruct converted as [|t l] eqn:E; [congruence|]. rewrite <- E in *.
  cbn [Py.bind Py.ret]. eexists. split; [reflexivity|].
  cbn [Dtyped.nd_cells]. apply Forall2_grid_map. intros d.
  destruct (cell_category_sorted converted d Hne' Ha Hp) as (k & Hk & H).
  exists k. split; [exact Hk | exact H].
Qed.

(** [0.1], [0.3] and [0.7] as float32 cells, against the Python floats
    [0.1], [0.3] and [0.7]: each cell equals its converted threshold. *)
Lemma classify_bands_partition_witness :
  exists classified,
    Dtyped.classify_flood_depth Dtyped.example_float32
      (Some Dtyped.example_thresholds) = inr classified
    /\ Dtyped.nd_cells classified
       = [[num_of_nat 1; num_of_nat 2; num_of_nat 3]].
Proof.
  destruct (classify_bands_partition Dtyped.example_float32
              Dtyped.example_thresholds
              (map (fun t => PyFloat (Dtyped.as_float32 (py_value t)))
                 Dtyped.example_thresholds)
              ltac:(discriminate) ltac:(vm_compute; reflexivity)
              ltac:(vm_compute; reflexivity) ltac:(vm_compute; reflexivity)
              ltac:(vm_compute; reflexivity))
    as (classified & Hc & _).
  exists classified. split; [exact Hc|].
  vm_compute in Hc. inversion Hc. reflexivity.
Defined.

(** C1 as stated fails in two ways.  With the ascending thresholds [-1, 1] a
    float64 cell of depth 0 is in the band (-1, 1] and gets category 2, not
    0.  With the thresholds [0.1, 0.3, 0.7], ascending and above zero, the
    float32 cells [0.1], [0.3] and [0.7] get the categories 1, 2 and 3,
    although as numbers the first two are above the Python floats [0.1] and
    [0.3] and so in the bands 2 and 3 of the stated rule. *)
Lemma classify_bands_claim_fails :
  (ascending [PyInt (-1); PyInt 1] = true
   /\ eqb (Fin 0) (num_of_nat 0) = true
   /\ Dtyped.classify_flood_depth (Dtyped.NdArray Dtyped.float64 [[Fin 0]])
        (Some [PyInt (-1); PyInt 1])
      = inr (Dtyped.NdArray Dtyped.float64 [[num_of_nat 2]]))
  /\ (ascending Dtyped.example_thresholds = true
      /\ positive Dtyped.example_thresholds = true
      /\ Dtyped.classify_flood_depth Dtyped.example_float32
           (Some Dtyped.example_thresholds)
         = inr (Dtyped.NdArray Dtyped.float32
                  [[num_of_nat 1; num_of_nat 2; num_of_nat 3]])
      /\ Forall2
           (Forall2
              (fun d i => in_band Dtyped.example_thresholds i d = true))
           (Dtyped.nd_cells Dtyped.example_float32) [[1; 2; 2]]).
Proof.
  split.
  - repeat split; vm_compute; reflexivity.
  - split; [vm_compute; reflexivity|]. split; [vm_compute; reflexivity|].
    split; [vm_compute; reflexivity|].
    repeat constructor.
Qed.

(** ** Shape and dtype of the classified array *)

Lemma length_zip_with {A B C} (f : A -> B -> C) (l : list A) (m : list B) :
  length l = length m -> length (zip_with f l m) = length m.
Proof.
  revert m. induction l as [|a l IH]; intros [|b m] E; simpl in *;
    try discriminate; auto.
Qed.

Lemma shape_grid_zip {A B C} (f : A -> B -> C) (g : grid A) (h : grid B) :
  shape g = shape h -> shape (grid_zip f g h) = shape h.
Proof.
  unfold shape, grid_zip. revert h.
  induction g as [|r g IH]; intros [|r' h] E; simpl in *;
    try discriminate; auto.
  injection E as E1 E2.
  apply (f_equal2 cons); [now apply length_zip_with | now apply IH].
Qed.

Lemma setmask_shape (a a' : grid num) (mask : grid bool) (v : num) :
  setmask a mask v = inr a' -> shape a' = shape a.
Proof.
  unfold setmask, shape_eqb.
  destruct (list_eq_dec Nat.eq_dec (shape mask) (shape a)) as [E|]; intros H;
    [|discriminate].
  inversion H. now apply shape_grid_zip.
Qed.

Lemma setitem_same_kind (a a' : Dtyped.ndarray) (mask : grid bool) (k : nat) :
  Dtyped.setitem a mask k = inr a' -> Dtyped.same_kind a' a.
Proof.
  unfold Dtyped.setitem.
  destruct (Dtyped.store (Dtyped.nd_dtype a) k) as [e|v]; [discriminate|].
  cbn [Py.bind]. destruct (setmask (Dtyped.nd_cells a) mask v) as [e|c] eqn:E;
    [discriminate|].
  cbn [Py.bind Py.ret]. intros H. inversion H. split; [reflexivity|].
  cbn [Dtyped.nd_cells]. exact (setmask_shape _ _ _ _ E).
Qed.

Lemma classify_band_same_kind (d : Dtyped.ndarray) (ths : list pynum)
  (it : nat * pynum) (c c' : Dtyped.ndarray) :
  Dtyped.classify_band d ths it c = inr c' -> Dtyped.same_kind c' c.
Proof.
  destruct it as [i t]. unfold Dtyped.classify_band.
  destruct (Nat.eqb i 0).
  - destruct (Dtyped.gt d (PyInt 0)); [discriminate|]. cbn [Py.bind].
    destruct (Dtyped.le d t); [discriminate|]. cbn [Py.bind].
    apply setitem_same_kind.
  - destruct (Py.getitem ths (i - 1)) as [e|p]; [discriminate|]. cbn [Py.bind].
    destruct (Dtyped.gt d p); [discriminate|]. cbn [Py.bind].
    destruct (Dtyped.le d t); [discriminate|]. cbn [Py.bind].
    apply setitem_same_kind.
Qed.

Lemma classify_loop_same_kind (d : Dtyped.ndarray) (ths : list pynum) :
  forall (l : list (nat * pynum)) (c c' : Dtyped.ndarray),
    Py.for_each l (Dtyped.classify_band d ths) c = inr c' ->
    Dtyped.same_kind c' c.
Proof.
  induction l as [|it l IH]; intros c c' H; cbn [Py.for_each] in H.
  - inversion H. split; reflexivity.
  - destruct (Dtyped.classify_band d ths it c) as [e|c1] eqn:E; [discriminate|].
    cbn [Py.bind] in H. apply IH in H. apply classify_band_same_kind in E.
    destruct H, E. split; congruence.
Qed.

Lemma classify_same_kind (d classified : Dtyped.ndarray)
  (thresholds : option (list pynum)) :
  Dtyped.classify_flood_depth d thresholds = inr classified ->
  Dtyped.same_kind classified d.
Proof.
  unfold Dtyped.classify_flood_depth.
  set (ths := match thresholds with
              | None => default_thresholds
              | Some l => l
              end).
  destruct (Dtyped.eq d (PyInt 0)) as [e|dry]; [discriminate|]. cbn [Py.bind].
  destruct (Dtyped.setitem (Dtyped.zeros_like d) dry 0) as [e|c0] eqn:E0;
    [discriminate|]. cbn [Py.bind].
  destruct (Py.for_each (Py.enumerate ths) (Dtyped.classify_band d ths) c0)
    as [e|c1] eqn:E1; [discriminate|]. cbn [Py.bind].
  destruct (Py.getitem_last ths) as [e|t]; [discriminate|]. cbn [Py.bind].
  destruct (Dtyped.gt d t) as [e|m]; [discriminate|]. cbn [Py.bind].
  intros E2. apply setitem_same_kind in E0, E2.
  apply classify_loop_same_kind in E1.
  destruct E0 as [A0 B0], E1 as [A1 B1], E2 as [A2 B2].
  unfold Dtyped.zeros_like in *. cbn [Dtyped.nd_dtype Dtyped.nd_cells] in *.
  unfold zeros_like in B0. rewrite shape_grid_map in B0.
  split; congruence.
Qed.

(** C3 (amended: the dtype of the depth array, categories that fit).  When
    the thresholds are not empty, convert to the dtype of the depth array and
    that dtype holds the categories, the classifier returns an array whose
    values are among the whole numbers 0..len(thresholds)+1; and every array
    it returns has the dtype and the shape of the depth array. *)
Theorem classify_shape_and_range (depth_array : Dtyped.ndarray)
  (thresholds : option (list pynum)) :
  (forall converted,
     effective_thresholds thresholds <> [] ->
     Dtyped.converted (Dtyped.nd_dtype depth_array)
       (effective_thresholds thresholds) = inr converted ->
     Dtyped.categories_fit (Dtyped.nd_dtype depth_array)
       (length (effective_thresholds thresholds)) = true ->
     exists classified,
       Dtyped.classify_flood_depth depth_array thresholds = inr classified
       /\ Forall (Forall (fun v =>
            exists k,
              k <= length (effective_thresholds thresholds) + 1
              /\ v = num_of_nat k))
            (Dtyped.nd_cells classified))
  /\ (forall classified,
        Dtyped.classify_flood_depth depth_array thresholds = inr classified ->
        Dtyped.nd_dtype classified = Dtyped.nd_dtype depth_array
        /\ shape (Dtyped.nd_cells classified)
           = shape (Dtyped.nd_cells depth_array)
        /\ length (Dtyped.nd_cells classified)
           = length (Dtyped.nd_cells depth_array)).
Proof.
  split.
  - intros converted Hne Hc Hf.
    assert (Heq : Dtyped.classify_flood_depth depth_array thresholds
                  = Dtyped.classify_flood_depth depth_array
                      (Some (effective_thresholds thresholds)))
      by (destruct thresholds; reflexivity).
    rewrite Heq, (classify_converted _ _ _ Hc Hf).
    pose proof (converted_length _ _ _ Hc) as Hlen. rewrite <- Hlen.
    assert (Hne' : converted <> [])
      by (destruct converted, (effective_thresholds thresholds);
          try discriminate; congruence).
    rewrite classify_cells.
    destruct converted as [|t l] eqn:E; [congruence|]. rewrite <- E in *.
    cbn [Py.bind Py.ret]. eexists. split; [reflexivity|].
    cbn [Dtyped.nd_cells]. unfold grid_map.
    apply Forall_map, Forall_forall. intros row _.
    apply Forall_map, Forall_forall. intros d _.
    exact (cell_category_range converted d Hne').
  - intros classified Hc. destruct (classify_same_kind _ _ _ Hc) as [Hd Hs].
    split; [exact Hd|]. split; [exact Hs|].
    unfold shape in Hs. apply (f_equal (@length nat)) in Hs.
    now rewrite !length_map in Hs.
Qed.

Lemma classify_shape_and_range_witness :
  exists classified,
    Dtyped.classify_flood_depth Dtyped.example_float32 None = inr classified
    /\ Dtyped.nd_dtype classified = Dtyped.float32
    /\ shape (Dtyped.nd_cells classified) = [3].
Proof.
  destruct (classify_shape_and_range Dtyped.example_float32 None)
    as [Hret Hpost].
  destruct (Hret default_thresholds ltac:(discriminate)
              ltac:(vm_compute; reflexivity) ltac:(vm_compute; reflexivity))
    as (classified & Hc & _).
  exists classified. split; [exact Hc|].
  destruct (Hpost classified Hc) as (Hd & Hs & _). split; assumption.
Defined.

(** C3 as stated fails in two ways: for a float32 depth array the classified
    array is a float32 array, not an integer one; and for a uint8 depth array
    and 255 thresholds no array is returned, the category 256 being refused
    with an OverflowError. *)
Lemma classify_float_grid_or_overflow :
  (exists classified,
     Dtyped.classify_flood_depth Dtyped.example_float32 None = inr classified
     /\ Dtyped.is_integer (Dtyped.nd_dtype classified) = false)
  /\ length (map (fun k => PyInt (Z.of_nat k)) (seq 1 255)) = 255
  /\ Dtyped.classify_flood_depth (Dtyped.NdArray Dtyped.uint8 [[Fin 3]])
       (Some (map (fun k => PyInt (Z.of_nat k)) (seq 1 255)))
     = inl (Dtyped.OverflowError
              "Python integer 256 out of bounds for uint8").
Proof.
  split; [|split].
  - eexists. split; vm_compute; reflexivity.
  - reflexivity.
  - vm_compute. reflexivity.
Qed.

(** * Further properties of the array classifier *)

(** A comparison with a category takes the category as it is. *)
Lemma scalar_as_category (dt : Dtyped.dtype) (n k : nat) :
  Dtyped.categories_fit dt n = true -> k <= n + 1 ->
  Dtyped.scalar_as dt (PyInt (Z.of_nat k)) = inr (num_of_nat k).
Proof.
  intros Hf Hk. pose proof (categories_fit_store _ _ _ Hf Hk) as Hs.
  destruct dt; try exact Hs; reflexivity.
Qed.

(** ** Thresholds in any order *)

(** X1.  For every non-empty threshold list, sorted or not, that converts to
    the dtype of the depth array, the dtype holding the categories, the
    classifier returns an array in which a cell above the last converted
    threshold holds n+1 whatever bands it is in; any other cell holds the
    number of the last band of the loop whose test it passes, and 0 when it
    passes none.  The tests are those on the converted thresholds. *)
Theorem classify_last_match (depth_array : Dtyped.ndarray)
  (thresholds converted : list pynum) :
  thresholds <> [] ->
  Dtyped.converted (Dtyped.nd_dtype depth_array) thresholds = inr converted ->
  Dtyped.categories_fit (Dtyped.nd_dtype depth_array) (length thresholds)
  = true ->
  exists classified,
    Dtyped.classify_flood_depth depth_array (Some thresholds) = inr classified
    /\ Forall2 (Forall2 (fun d v =>
         (above_last converted d = true
          /\ v = num_of_nat (length thresholds + 1))
         \/ (above_last converted d = false
             /\ exists i,
                  i < length thresholds
                  /\ in_band converted i d = true
                  /\ (forall j, i < j -> in_band converted j d = false)
                  /\ v = num_of_nat (i + 1))
         \/ (above_last converted d = false
             /\ (forall j, in_band converted j d = false)
             /\ v = num_of_nat 0)))
         (Dtyped.nd_cells depth_array) (Dtyped.nd_cells classified).
Proof.
  intros Hne Hc Hf. rewrite (classify_converted _ _ _ Hc Hf).
  pose proof (converted_length _ _ _ Hc) as Hlen. rewrite <- Hlen.
  assert (Hne' : converted <> [])
    by (destruct converted, thresholds; try discriminate; congruence).
  rewrite classify_cells.
  destruct converted as [|t l] eqn:E; [congruence|]. rewrite <- E in *.
  cbn [Py.bind Py.ret]. eexists. split; [reflexivity|].
  cbn [Dtyped.nd_cells]. apply Forall2_grid_map. intros d.
  exact (cell_category_cases _ d Hne').
Qed.

(** With the thresholds [2, 1] a depth of 1.5 is in the first band (0, 2]
    and above the last threshold: it gets category 3. *)
Lemma classify_last_match_witness :
  exists classified,
    Dtyped.classify_flood_depth
      (Dtyped.NdArray Dtyped.float64 [[Fin (1 # 2); Fin (3 # 2)]])
      (Some [PyInt 2; PyInt 1])
    = inr classified
    /\ Dtyped.nd_cells classified = [[num_of_nat 1; num_of_nat 3]].
Proof.
  destruct (classify_last_match
              (Dtyped.NdArray Dtyped.float64 [[Fin (1 # 2); Fin (3 # 2)]])
              [PyInt 2; PyInt 1] [PyFloat (Fin 2); PyFloat (Fin 1)]
              ltac:(discriminate) ltac:(vm_compute; reflexivity)
              ltac:(vm_compute; reflexivity))
    as (classified & Hc & _).
  exists classified. split; [exact Hc|].
  vm_compute in Hc. inversion Hc. reflexivity.
Defined.

(** ** What the counts of the aggregator count *)

(** X5.  With thresholds that are strictly ascending and above zero once
    converted to the dtype of the depth array, the counts the aggregator
    takes from the classified array are counts of depths:
    [np.sum(classified >= 0)] is the number of cells,
    [np.sum(classified == 0)] the number of cells whose depth is not above 0
    (zero, negative or NaN), [np.sum(classified == i + 1)] the number of
    cells in band [i] of the converted thresholds,
    [np.sum(classified == n + 1)] the number of cells above the last one, and
    [np.sum(classified > 0)] the number of cells of depth above 0. *)
Theorem columns_count_depths (depth_array : Dtyped.ndarray)
  (thresholds converted : list pynum) :
  thresholds <> [] ->
  Dtyped.converted (Dtyped.nd_dtype depth_array) thresholds = inr converted ->
  ascending converted = true ->
  positive converted = true ->
  Dtyped.categories_fit (Dtyped.nd_dtype depth_array) (length thresholds)
  = true ->
  exists classified,
    Dtyped.classify_flood_depth depth_array (Some thresholds) = inr classified
    /\ Dtyped.count (Dtyped.ge classified (PyInt 0))
       = inr (length (concat (Dtyped.nd_cells depth_array)))
    /\ Dtyped.count (Dtyped.eq classified (PyInt 0))
       = inr (Np.sum (grid_map (fun d => negb (gtb d (num_of_nat 0)))
                        (Dtyped.nd_cells depth_array)))
    /\ (forall i,
          i < length thresholds ->
          Dtyped.count (Dtyped.eq classified (PyInt (Z.of_nat (i + 1))))
          = inr (Np.sum (grid_map (in_band converted i)
                           (Dtyped.nd_cells depth_array))))
    /\ Dtyped.count
         (Dtyped.eq classified (PyInt (Z.of_nat (length thresholds + 1))))
       = inr (Np.sum (grid_map (above_last converted)
                        (Dtyped.nd_cells depth_array)))
    /\ Dtyped.count (Dtyped.gt classified (PyInt 0))
       = inr (Np.sum (gt_scalar (Dtyped.nd_cells depth_array) (num_of_nat 0))).
Proof.
  intros Hne Hc Ha Hp Hf. rewrite (classify_converted _ _ _ Hc Hf).
  pose proof (converted_length _ _ _ Hc) as Hlen.
  assert (Hne' : converted <> [])
    by (destruct converted, thresholds; try discriminate; congruence).
  destruct (classify_flood_depth (Dtyped.nd_cells depth_array) (Some converted))
    as [e|cells] eqn:E.
  { rewrite classify_cells in E.
    destruct converted; [congruence|discriminate]. }
  destruct (counts_conserved _ _ _ E) as (Hall & _ & _).
  rewrite classify_cells in E.
  destruct converted as [|t l] eqn:Ec; [congruence|].
  rewrite <- Ec in *. inversion E; subst cells. clear E.
  cbn [Py.bind Py.ret]. eexists. split; [reflexivity|].
  set (g := Dtyped.nd_cells depth_array) in *.
  set (dt := Dtyped.nd_dtype depth_array) in *.
  assert (Hcat : forall k, k <= length thresholds + 1 ->
                 Dtyped.scalar_as dt (PyInt (Z.of_nat k)) = inr (num_of_nat k))
    by (intros k Hk; exact (scalar_as_category _ _ _ Hf Hk)).
  unfold Dtyped.count, Dtyped.ge, Dtyped.eq, Dtyped.gt.
  cbn [Dtyped.nd_dtype Dtyped.nd_cells].
  change (PyInt 0) with (PyInt (Z.of_nat 0)).
  rewrite (Hcat 0) by lia. unfold Py.ret. cbn [Py.bind].
  split; [now rewrite Hall|]. split.
  { f_equal. unfold eq_scalar. apply sum_classified. intros d.
    destruct (cell_category_range converted d Hne') as (k & _ & Hk).
    pose proof (category_zero_iff converted d Hne' Hp) as Hiff.
    rewrite Hk in *. rewrite eqb_nat.
    destruct (gtb d (num_of_nat 0)); simpl.
    - apply Nat.eqb_neq. intros ->. destruct Hiff as [Hiff _].
      specialize (Hiff eq_refl). discriminate.
    - apply Nat.eqb_eq. apply num_of_nat_inj. now apply Hiff. }
  split.
  { intros i Hi. rewrite (Hcat (i + 1)) by lia. cbn [Py.bind].
    f_equal. unfold eq_scalar. apply sum_classified. intros d.
    apply category_eqb_band; auto. lia. }
  split.
  { rewrite (Hcat (length thresholds + 1)) by lia. cbn [Py.bind].
    f_equal. unfold eq_scalar. apply sum_classified. intros d.
    rewrite <- Hlen. now apply category_eqb_last. }
  f_equal. unfold gt_scalar. apply sum_classified. intros d.
  destruct (cell_category_range converted d Hne') as (k & _ & Hk).
  pose proof (category_zero_iff converted d Hne' Hp) as Hiff.
  rewrite Hk in *. unfold gtb at 1. rewrite ltb_nat.
  destruct (gtb d (num_of_nat 0)).
  - apply Nat.ltb_lt. destruct k; [|lia].
    destruct Hiff as [Hiff _]. specialize (Hiff eq_refl). discriminate.
  - destruct Hiff as [_ Hiff]. specialize (Hiff eq_refl).
    apply num_of_nat_inj in Hiff. now subst k.
Qed.

Lemma columns_count_depths_witness :
  exists classified,
    Dtyped.classify_flood_depth Dtyped.example_float32
      (Some Dtyped.example_thresholds) = inr classified
    /\ Dtyped.count (Dtyped.eq classified (PyInt 2)) = inr 1.
Proof.
  destruct (columns_count_depths Dtyped.example_float32
              Dtyped.example_thresholds
              (map (fun t => PyFloat (Dtyped.as_float32 (py_value t)))
                 Dtyped.example_thresholds)
              ltac:(discriminate) ltac:(vm_compute; reflexivity)
              ltac:(vm_compute; reflexivity) ltac:(vm_compute; reflexivity)
              ltac:(vm_compute; reflexivity))
    as (classified & Hc & _ & _ & Hb & _).
  exists classified. split; [exact Hc|].
  exact (Hb 1 ltac:(simpl; lia)).
Defined.
